(** * Verification of the ODQA retrieval baseline

    Shallow embedding of [src/retrieval/dense/dpr.py], [src/prepare.py] and
    [src/run.py], together with the sparse scorers and the query facade
    described by the specification, and the properties established about
    them. *)

From Stdlib Require Import ZArith QArith Qround Lqa Reals Lra Lia List String Bool.
From Stdlib Require DecimalString DecimalZ DecimalPos.
From stdpp Require Import gmap strings list sorting.

Set Default Proof Using "Type".

(** ** Python exceptions and fallible computations *)

Inductive PyExc : Type :=
| KeyError (key : string)
| AttributeError (msg : string)
| TypeError (msg : string)
| ValueError (msg : string)
| IndexError (msg : string)
| RuntimeError (msg : string)
| ZeroDivisionError
| OSError (msg : string).

Inductive Result (A : Type) : Type :=
| Ok (a : A)
| Raise (e : PyExc).
Arguments Ok {A} a.
Arguments Raise {A} e.

Definition rbind {A B} (m : Result A) (k : A → Result B) : Result B :=
  match m with
  | Ok a => k a
  | Raise e => Raise e
  end.

Notation "'let*' x ':=' m 'in' k" := (rbind m (fun x => k))
  (at level 10, x pattern, m at level 100, k at level 200).

Definition returns {A} (m : Result A) : Prop := ∃ a, m = Ok a.
Definition raises {A} (m : Result A) : Prop := ∃ e, m = Raise e.

Lemma rbind_Ok_inv {A B} (m : Result A) (k : A → Result B) b :
  rbind m k = Ok b → ∃ a, m = Ok a ∧ k a = Ok b.
Proof. destruct m as [a|e]; simpl; [eauto | discriminate]. Qed.

(** Membership in an explicit list. *)
Ltac not_in_list :=
  repeat (apply not_elem_of_cons; split; [done|]); apply not_elem_of_nil.

Ltac in_list := repeat constructor.

Lemma raises_not_returns {A} (m : Result A) : raises m → ¬ returns m.
Proof. intros [e ->] [a Ha]. discriminate. Qed.

(** ** [epoch_time] (dpr.py, lines 28-32)

    Timestamps are the values of [time.time()]; they are modelled by exact
    rationals.  [int(x)] truncates towards zero. *)

Module EpochTime.

Local Open Scope Q_scope.

Local Ltac lra := Lqa.lra.

Definition py_int (x : Q) : Z := Z.quot (Qnum x) (Zpos (Qden x)).

Definition epoch_time (start_time end_time : Q) : Z * Z :=
  let elapsed_time := end_time - start_time in
  let elapsed_mins := py_int (elapsed_time / 60) in
  let elapsed_secs := py_int (elapsed_time - inject_Z elapsed_mins * 60) in
  (elapsed_mins, elapsed_secs).

Example epoch_time_125_5 : epoch_time 10 (271 # 2) = (2%Z, 5%Z).
Proof. reflexivity. Qed.

Lemma py_int_nonneg (x : Q) : 0 <= x → py_int x = Qfloor x.
Proof.
  destruct x as [n d]. unfold Qle, py_int, Qfloor. simpl. intros H.
  apply Z.quot_div_nonneg; lia.
Qed.

Lemma Qfloor_unique (x : Q) (z : Z) :
  inject_Z z <= x → x < inject_Z (z + 1) → Qfloor x = z.
Proof.
  intros Hlo Hhi.
  pose proof (Qfloor_le x) as H1. pose proof (Qlt_floor x) as H2.
  assert (Hz1 : (z < Qfloor x + 1)%Z).
  { rewrite Zlt_Qlt. eapply Qle_lt_trans; eauto. }
  assert (Hz2 : (Qfloor x < z + 1)%Z).
  { rewrite Zlt_Qlt. eapply Qle_lt_trans; eauto. }
  lia.
Qed.

Lemma Qfloor_sub_Z (x : Q) (k : Z) : Qfloor (x - inject_Z k) = (Qfloor x - k)%Z.
Proof.
  apply Qfloor_unique.
  - unfold Z.sub. rewrite inject_Z_plus, inject_Z_opp.
    pose proof (Qfloor_le x). lra.
  - replace (Qfloor x - k + 1)%Z with ((Qfloor x + 1) + - k)%Z by lia.
    rewrite inject_Z_plus, inject_Z_opp.
    pose proof (Qlt_floor x). lra.
Qed.

Lemma Qfloor_div_60 (e : Q) :
  inject_Z (Qfloor (e / 60)) * 60 <= e ∧ e < inject_Z (Qfloor (e / 60)) * 60 + 60.
Proof.
  pose proof (Qfloor_le (e / 60)) as Hlo.
  pose proof (Qlt_floor (e / 60)) as Hhi.
  rewrite inject_Z_plus in Hhi.
  assert (He : e == (e / 60) * 60) by (field; discriminate).
  set (m := inject_Z (Qfloor (e / 60))) in *.
  change (inject_Z 1) with 1 in Hhi.
  set (q := e / 60) in *.
  split; lra.
Qed.

(** C10: for [end_time >= start_time], [epoch_time] returns the truncated
    number of whole minutes, a number of seconds between 0 and 59, and
    together they make up the whole-second part of the elapsed time. *)
Theorem epoch_time_spec (start_time end_time : Q) :
  start_time <= end_time →
  let elapsed := end_time - start_time in
  let '(elapsed_mins, elapsed_secs) := epoch_time start_time end_time in
  elapsed_mins = py_int (elapsed / 60) ∧
  (0 <= elapsed_mins)%Z ∧
  (0 <= elapsed_secs <= 59)%Z ∧
  (60 * elapsed_mins + elapsed_secs)%Z = Qfloor elapsed ∧
  Qfloor elapsed = py_int elapsed.
Proof.
  intros Hle. unfold epoch_time. cbv zeta.
  set (e := end_time - start_time).
  assert (He : 0 <= e) by (unfold e; lra).
  assert (He60 : 0 <= e / 60).
  { apply Qle_shift_div_l; [reflexivity | lra]. }
  rewrite (py_int_nonneg _ He60).
  destruct (Qfloor_div_60 e) as [Hlo Hhi].
  set (m := Qfloor (e / 60)) in *.
  assert (Hm : (0 <= m)%Z).
  { unfold m. change 0%Z with (Qfloor 0). apply Qfloor_resp_le. exact He60. }
  assert (Hr : 0 <= e - inject_Z m * 60) by lra.
  rewrite (py_int_nonneg _ Hr), (py_int_nonneg _ He).
  assert (Hk : inject_Z m * 60 == inject_Z (m * 60)).
  { rewrite inject_Z_mult. reflexivity. }
  assert (Hs : Qfloor (e - inject_Z m * 60) = (Qfloor e - m * 60)%Z).
  { rewrite <- Qfloor_sub_Z. apply Qfloor_comp. rewrite Hk. reflexivity. }
  rewrite Hs.
  assert (H0 : (m * 60 <= Qfloor e)%Z).
  { replace (m * 60)%Z with (Qfloor (inject_Z (m * 60))) by apply Qfloor_Z.
    apply Qfloor_resp_le. rewrite <- Hk. exact Hlo. }
  assert (H1 : (Qfloor e < m * 60 + 60)%Z).
  { rewrite Zlt_Qlt. eapply Qle_lt_trans; [apply Qfloor_le |].
    rewrite inject_Z_plus, <- Hk. exact Hhi. }
  repeat split; lia.
Qed.

Lemma epoch_time_spec_witness :
  10 <= (271 # 2) ∧
  let '(elapsed_mins, elapsed_secs) := epoch_time 10 (271 # 2) in
  elapsed_mins = py_int (((271 # 2) - 10) / 60) ∧
  (0 <= elapsed_mins)%Z ∧
  (0 <= elapsed_secs <= 59)%Z ∧
  (60 * elapsed_mins + elapsed_secs)%Z = Qfloor ((271 # 2) - 10) ∧
  Qfloor ((271 # 2) - 10) = py_int ((271 # 2) - 10).
Proof.
  assert (H : 10 <= 271 # 2) by (unfold Qle; simpl; lia).
  split; [exact H |].
  exact (epoch_time_spec 10 (271 # 2) H).
Defined.

(** *** Intervals of either sign *)

Lemma py_int_opp (x : Q) : py_int (- x) = (- py_int x)%Z.
Proof. destruct x as [n d]. unfold py_int. simpl. apply Z.quot_opp_l. lia. Qed.

Lemma py_int_comp (x y : Q) : x == y → py_int x = py_int y.
Proof.
  intros Hxy. destruct (Qlt_le_dec x 0) as [Hneg|Hpos].
  - assert (Hx : 0 <= - x) by lra. assert (Hy : 0 <= - y) by lra.
    rewrite <- (Z.opp_involutive (py_int x)), <- (Z.opp_involutive (py_int y)).
    rewrite <- (py_int_opp x), <- (py_int_opp y).
    rewrite (py_int_nonneg _ Hx), (py_int_nonneg _ Hy).
    f_equal. apply Qfloor_comp. by rewrite Hxy.
  - assert (Hy : 0 <= y) by lra.
    rewrite (py_int_nonneg _ Hpos), (py_int_nonneg _ Hy).
    by apply Qfloor_comp.
Qed.

Lemma epoch_time_swap (start_time end_time : Q) :
  epoch_time start_time end_time
  = ((- (epoch_time end_time start_time).1)%Z,
     (- (epoch_time end_time start_time).2)%Z).
Proof.
  unfold epoch_time. cbv zeta. cbn [fst snd].
  set (e := start_time - end_time).
  assert (H1 : py_int ((end_time - start_time) / 60) = (- py_int (e / 60))%Z).
  { rewrite <- py_int_opp. apply py_int_comp. unfold e. field. }
  rewrite H1. f_equal.
  transitivity (py_int (- (e - inject_Z (py_int (e / 60)) * 60)));
    [|apply py_int_opp].
  apply py_int_comp. rewrite inject_Z_opp. unfold e. ring.
Qed.

(** X10: Whatever the order of the two timestamps, [epoch_time] splits the
    truncated interval: [60 * mins + secs = int(end - start)] with
    [|secs| <= 59]; when [end_time <= start_time] neither component is
    positive, since [int] truncates towards zero, and swapping the
    timestamps negates both components. *)
Theorem epoch_time_truncates (start_time end_time : Q) :
  let '(elapsed_mins, elapsed_secs) := epoch_time start_time end_time in
  (60 * elapsed_mins + elapsed_secs)%Z = py_int (end_time - start_time) ∧
  (-59 <= elapsed_secs <= 59)%Z ∧
  (end_time <= start_time → (elapsed_mins <= 0)%Z ∧ (elapsed_secs <= 0)%Z) ∧
  epoch_time end_time start_time = ((- elapsed_mins)%Z, (- elapsed_secs)%Z).
Proof.
  destruct (Qlt_le_dec end_time start_time) as [Hlt|Hle].
  - assert (Hle : end_time <= start_time) by lra.
    pose proof (epoch_time_spec end_time start_time Hle) as Hspec.
    rewrite (epoch_time_swap start_time end_time).
    destruct (epoch_time end_time start_time) as [m s] eqn:Hms.
    cbv zeta in Hspec. destruct Hspec as (_ & Hm & Hs & Hsum & Hfl).
    cbn [fst snd]. rewrite !Z.opp_involutive.
    split; [|split; [lia | split; [intros _; lia | reflexivity]]].
    assert (Hopp : py_int (end_time - start_time)
                   = (- py_int (start_time - end_time))%Z).
    { rewrite <- py_int_opp. apply py_int_comp. ring. }
    rewrite Hopp, <- Hfl, <- Hsum. lia.
  - pose proof (epoch_time_spec start_time end_time Hle) as Hspec.
    pose proof (epoch_time_swap end_time start_time) as Hswap.
    destruct (epoch_time start_time end_time) as [m s] eqn:Hms.
    cbv zeta in Hspec. destruct Hspec as (_ & Hm & Hs & Hsum & Hfl).
    cbn [fst snd] in Hswap.
    split; [by rewrite <- Hfl, <- Hsum|]. split; [lia|].
    split; [|exact Hswap].
    intros Hge. assert (He : end_time - start_time == 0) by lra.
    assert (H0 : Qfloor (end_time - start_time) = 0%Z).
    { rewrite (Qfloor_comp _ _ He). reflexivity. }
    lia.
Qed.

(** An interval of minus 125.5 seconds. *)
Example epoch_time_negative : epoch_time (271 # 2) 10 = ((-2)%Z, (-5)%Z).
Proof. reflexivity. Qed.

End EpochTime.

(** ** Python classes: class objects, C3 linearisation and [type(name, bases, dict)]

    Classes live in a heap and are identified by their address; a class
    object records its own dictionary and the method resolution order that
    was computed when it was created, as CPython does. *)

Module Py.

(** Class addresses. *)
Abbreviation cid := nat (only parsing).

(** A Python dict literal: later bindings of a key replace earlier ones. *)
Definition py_dict {A} (items : list (string * A)) : gmap string A :=
  foldl (λ m kv, <[kv.1 := kv.2]> m) ∅ items.

Section Classes.
Context {V : Type}.

Record ClassObj := mkClass {
  cls_name : string;
  cls_bases : list cid;
  cls_dict : gmap string V;
  cls_mro : list cid
}.

(** The class heap: the class with address [c] is the [c]-th entry. *)
Definition object_cid : cid := 0.
Definition object_class : ClassObj := mkClass "object" [] ∅ [object_cid].

(** *** C3 merge (CPython's [pmerge]) *)

Definition in_tail (c : cid) (l : list cid) : bool :=
  match l with
  | [] => false
  | _ :: t => bool_decide (c ∈ t)
  end.

Definition good_head (c : cid) (ls : list (list cid)) : bool :=
  forallb (λ l, negb (in_tail c l)) ls.

Fixpoint find_candidate (cands all : list (list cid)) : option cid :=
  match cands with
  | [] => None
  | [] :: rest => find_candidate rest all
  | (c :: _) :: rest => if good_head c all then Some c else find_candidate rest all
  end.

Definition drop_head (c : cid) (l : list cid) : list cid :=
  match l with
  | [] => []
  | c' :: t => if bool_decide (c' = c) then t else l
  end.

Definition nonempty (l : list cid) : bool :=
  match l with [] => false | _ :: _ => true end.

Fixpoint mro_merge (fuel : nat) (ls : list (list cid)) : option (list cid) :=
  match List.filter nonempty ls with
  | [] => Some []
  | live =>
      match fuel with
      | 0 => None
      | S fuel' =>
          match find_candidate live live with
          | None => None
          | Some c => cons c <$> mro_merge fuel' (drop_head c <$> live)
          end
      end
  end.

Definition total_length (ls : list (list cid)) : nat :=
  foldr (λ l n, length l + n) 0 ls.

(** *** [type(name, bases, dict)]: create a class *)

(** A class statement without bases derives from [object]. *)
Definition effective_bases (bases : list cid) : list cid :=
  match bases with [] => [object_cid] | _ => bases end.

Definition type_new (h : list ClassObj) (name : string) (bases : list cid)
    (dict : gmap string V) : Result (list ClassObj * cid) :=
  let bases := effective_bases bases in
  if negb (bool_decide (NoDup bases)) then Raise (TypeError "duplicate base class")
  else
    match mapM (λ b, cls_mro <$> h !! b) bases with
    | None => Raise (TypeError "bases must be types")
    | Some mros =>
        let ls := mros ++ [bases] in
        match mro_merge (total_length ls) ls with
        | None =>
            Raise (TypeError "Cannot create a consistent method resolution order (MRO)")
        | Some m =>
            let c := length h in
            Ok (h ++ [mkClass name bases dict (c :: m)], c)
        end
    end.

(** Class statements, executed in order. *)
Fixpoint declare_all (h : list ClassObj)
    (decls : list (string * list cid * list (string * V)))
    : Result (list ClassObj) :=
  match decls with
  | [] => Ok h
  | (name, bases, body) :: rest =>
      let* hc := type_new h name bases (py_dict body) in
      declare_all hc.1 rest
  end.

(** *** Attribute lookup on a class: first hit along the MRO *)

Fixpoint mro_lookup (h : list ClassObj) (mro : list cid) (attr : string) : option V :=
  match mro with
  | [] => None
  | k :: rest =>
      match h !! k ≫= (λ o, cls_dict o !! attr) with
      | Some v => Some v
      | None => mro_lookup h rest attr
      end
  end.

Definition class_getattr (h : list ClassObj) (c : cid) (attr : string) : option V :=
  h !! c ≫= (λ o, mro_lookup h (cls_mro o) attr).

(** Every class's MRO starts with the class itself. *)
Definition heap_wf (h : list ClassObj) : Prop :=
  ∀ c o, h !! c = Some o → ∃ t, cls_mro o = c :: t.

(** *** Facts about the merge *)

Lemma filter_nonempty_nil (ls : list (list cid)) :
  List.filter nonempty ls = [] → ∀ l, l ∈ ls → l = [].
Proof.
  induction ls as [|l0 ls IH]; intros Hf l Hl.
  - inversion Hl.
  - simpl in Hf. destruct l0 as [|x l0]; simpl in Hf; [|discriminate].
    apply elem_of_cons in Hl as [-> | Hl]; [reflexivity | auto].
Qed.

Lemma elem_of_filter_nonempty (ls : list (list cid)) (l : list cid) :
  l ∈ ls → l ≠ [] → l ∈ List.filter nonempty ls.
Proof.
  intros Hl Hne. apply list_elem_of_In. apply filter_In. split.
  - by apply list_elem_of_In.
  - destruct l; [congruence | reflexivity].
Qed.

Lemma mro_merge_S (fuel : nat) (ls : list (list cid)) :
  mro_merge (S fuel) ls =
  match List.filter nonempty ls with
  | [] => Some []
  | live =>
      match find_candidate live live with
      | None => None
      | Some c => cons c <$> mro_merge fuel (drop_head c <$> live)
      end
  end.
Proof. reflexivity. Qed.

(** Each input list is a sublist of the merge: local precedence and the
    linearisations of the bases are preserved. *)
Lemma mro_merge_sublist (fuel : nat) :
  ∀ ls m, mro_merge fuel ls = Some m → ∀ l, l ∈ ls → sublist l m.
Proof.
  induction fuel as [|fuel IH]; intros ls m Hm l Hl.
  - simpl in Hm. destruct (List.filter nonempty ls) eqn:Hf; [|discriminate].
    injection Hm as <-. rewrite (filter_nonempty_nil _ Hf l Hl). constructor.
  - rewrite mro_merge_S in Hm.
    destruct (List.filter nonempty ls) as [|l0 live] eqn:Hf.
    + injection Hm as <-. rewrite (filter_nonempty_nil _ Hf l Hl). constructor.
    + cbv beta iota zeta in Hm.
      destruct (find_candidate (l0 :: live) (l0 :: live)) as [c|]; [|discriminate].
      destruct (mro_merge fuel (drop_head c <$> l0 :: live)) as [m'|] eqn:Hm';
        [|discriminate].
      simpl in Hm. injection Hm as <-.
      destruct l as [|x t]; [apply sublist_nil_l|].
      assert (Hin : drop_head c (x :: t) ∈ drop_head c <$> l0 :: live).
      { apply list_elem_of_fmap_2. rewrite <- Hf.
        by apply elem_of_filter_nonempty. }
      specialize (IH _ _ Hm' _ Hin). simpl in IH.
      case_bool_decide as Hx.
      * subst x. by apply sublist_skip.
      * by apply sublist_cons.
Qed.

(** With two bases [c1], [c2] the merge can only start with [c1]. *)
Lemma mro_merge_two_bases (fuel : nat) (c1 c2 : cid) (t1 t2 m : list cid) :
  c1 ≠ c2 →
  mro_merge fuel [c1 :: t1; c2 :: t2; [c1; c2]] = Some m →
  ∃ r, m = c1 :: r ∧ c2 ∈ r.
Proof.
  intros Hne Hm.
  pose proof (mro_merge_sublist _ _ _ Hm [c1; c2]) as Hsub.
  assert (Hsub' : sublist [c1; c2] m) by (apply Hsub; set_solver).
  clear Hsub.
  destruct fuel as [|fuel]; [discriminate|].
  rewrite mro_merge_S in Hm.
  cbn [List.filter nonempty find_candidate] in Hm.
  destruct (good_head c1 _) eqn:Hg1.
  - destruct (mro_merge fuel _) as [m'|]; [|discriminate].
    simpl in Hm. injection Hm as <-. exists m'. split; [reflexivity|].
    apply sublist_cons_l in Hsub' as (k1 & k2 & Heq & Hs).
    apply sublist_subseteq in Hs.
    destruct k1 as [|y k1]; simpl in Heq.
    + injection Heq as <-. set_solver.
    + injection Heq as -> ->. set_solver.
  - assert (Hg2 : good_head c2 [c1 :: t1; c2 :: t2; [c1; c2]] = false).
    { assert (Hin : bool_decide (c2 ∈ [c2]) = true).
      { apply bool_decide_eq_true_2. constructor. }
      unfold good_head. cbn [forallb in_tail]. rewrite Hin.
      simpl. by rewrite !andb_false_r. }
    rewrite Hg2 in Hm. discriminate.
Qed.

(** *** Facts about class creation *)

Lemma type_new_unfold (h h' : list ClassObj) name bases dict c :
  type_new h name bases dict = Ok (h', c) →
  let bs := effective_bases bases in
  ∃ mros m,
    NoDup bs ∧
    mapM (λ b, cls_mro <$> h !! b) bs = Some mros ∧
    mro_merge (total_length (mros ++ [bs])) (mros ++ [bs]) = Some m ∧
    c = length h ∧
    h' = h ++ [mkClass name bs dict (c :: m)].
Proof.
  intros Hnew bs. unfold type_new in Hnew. fold bs in Hnew.
  destruct (bool_decide (NoDup bs)) eqn:Hnd; simpl in Hnew; [|discriminate].
  apply bool_decide_eq_true_1 in Hnd.
  destruct (mapM _ bs) as [mros|] eqn:Hmros; [|discriminate].
  destruct (mro_merge _ _) as [m|] eqn:Hm; [|discriminate].
  injection Hnew as <- <-. exists mros, m. done.
Qed.

Lemma type_new_inv (h h' : list ClassObj) name bases dict c :
  bases ≠ [] →
  type_new h name bases dict = Ok (h', c) →
  ∃ mros m,
    NoDup bases ∧
    mapM (λ b, cls_mro <$> h !! b) bases = Some mros ∧
    mro_merge (total_length (mros ++ [bases])) (mros ++ [bases]) = Some m ∧
    c = length h ∧
    h' = h ++ [mkClass name bases dict (c :: m)].
Proof.
  intros Hne Hnew. apply type_new_unfold in Hnew.
  destruct bases as [|b bs]; [congruence|]. exact Hnew.
Qed.

(** Creating a class allocates a fresh address and leaves every existing
    class object as it was. *)
Lemma type_new_frame (h h' : list ClassObj) name bases dict c :
  type_new h name bases dict = Ok (h', c) →
  c = length h ∧ length h' = S (length h) ∧
  ∀ k o, h !! k = Some o → h' !! k = Some o.
Proof.
  intros Hnew. apply type_new_unfold in Hnew.
  destruct Hnew as (mros & m & _ & _ & _ & -> & ->).
  split; [done|]. split.
  - rewrite length_app. simpl. lia.
  - intros k o Hk. by apply lookup_app_l_Some.
Qed.

Lemma type_new_lookup (h h' : list ClassObj) name bases dict c :
  type_new h name bases dict = Ok (h', c) →
  ∃ o, h' !! c = Some o ∧ cls_name o = name ∧ cls_dict o = dict ∧
       (bases ≠ [] → cls_bases o = bases) ∧ ∃ t, cls_mro o = c :: t.
Proof.
  intros Hnew. apply type_new_unfold in Hnew.
  destruct Hnew as (mros & m & _ & _ & _ & -> & ->).
  eexists. split.
  - rewrite lookup_app_r by lia. rewrite Nat.sub_diag. reflexivity.
  - simpl. repeat split; eauto. intros Hb. destruct bases; [congruence | reflexivity].
Qed.

Lemma type_new_wf (h h' : list ClassObj) name bases dict c :
  heap_wf h → type_new h name bases dict = Ok (h', c) → heap_wf h'.
Proof.
  intros Hwf Hnew k o Hk.
  destruct (type_new_frame _ _ _ _ _ _ Hnew) as (-> & Hlen & Hold).
  destruct (type_new_lookup _ _ _ _ _ _ Hnew) as (o' & Ho' & _ & _ & _ & Hmro).
  destruct (decide (k < length h)) as [Hlt|Hge].
  - destruct (lookup_lt_is_Some_2 h k Hlt) as [o0 Ho0].
    rewrite (Hold _ _ Ho0) in Hk. injection Hk as <-. eauto.
  - assert (k = length h) as ->.
    { apply lookup_lt_Some in Hk. lia. }
    rewrite Ho' in Hk. injection Hk as <-. exact Hmro.
Qed.


(** *** Single-inheritance tails merge to themselves

    Once the mixin and the base have been emitted, what remains is the
    base's own linearisation against [object]. *)

Lemma in_tail_false (c : cid) (l : list cid) :
  (∀ x t, l = x :: t → c ∉ t) → in_tail c l = false.
Proof.
  intros H. destruct l as [|x t]; [reflexivity|]. simpl.
  apply bool_decide_eq_false_2. by eapply H.
Qed.

Lemma in_tail_true (c x : cid) (t : list cid) :
  c ∈ t → in_tail c (x :: t) = true.
Proof. intros H. simpl. by apply bool_decide_eq_true_2. Qed.

Lemma good_head_false (c : cid) (ls : list (list cid)) (x : cid) (t : list cid) :
  x :: t ∈ ls → c ∈ t → good_head c ls = false.
Proof.
  intros Hl Hc. unfold good_head.
  destruct (forallb _ ls) eqn:Hf; [|reflexivity].
  rewrite forallb_forall in Hf. apply list_elem_of_In in Hl.
  specialize (Hf _ Hl). rewrite (in_tail_true _ _ _ Hc) in Hf. discriminate.
Qed.

Lemma good_head_true (c : cid) (ls : list (list cid)) :
  Forall (λ l, c ∉ tail l) ls → good_head c ls = true.
Proof.
  intros H. unfold good_head. apply forallb_forall. intros l Hl.
  apply list_elem_of_In in Hl. rewrite Forall_forall in H.
  specialize (H _ Hl). destruct l as [|x t]; [reflexivity|]. simpl in *.
  by rewrite bool_decide_eq_false_2.
Qed.

Lemma drop_head_eq (c : cid) (t : list cid) : drop_head c (c :: t) = t.
Proof. simpl. by rewrite bool_decide_eq_true_2. Qed.

Lemma drop_head_ne (c x : cid) (t : list cid) :
  x ≠ c → drop_head c (x :: t) = x :: t.
Proof. intros H. simpl. by rewrite bool_decide_eq_false_2. Qed.

Lemma mro_merge_object_tail (tb : list cid) :
  ∀ fuel, NoDup tb → last tb = Some object_cid → length tb ≤ fuel →
  mro_merge fuel [[object_cid]; tb] = Some tb.
Proof.
  induction tb as [|x tb IH]; intros fuel Hnd Hlast Hfuel; [discriminate|].
  destruct fuel as [|fuel]; [simpl in Hfuel; lia|].
  rewrite mro_merge_S. cbn [List.filter nonempty find_candidate].
  apply NoDup_cons in Hnd as [Hx Hnd].
  destruct tb as [|y tb].
  - injection Hlast as ->.
    assert (Hg : good_head object_cid [[object_cid]; [object_cid]] = true)
      by reflexivity.
    rewrite Hg. destruct fuel; reflexivity.
  - assert (H0 : object_cid ∈ y :: tb).
    { change (last (x :: y :: tb)) with (last (y :: tb)) in Hlast.
      apply last_Some in Hlast as [l' ->].
      apply elem_of_app. right. in_list. }
    assert (Hx0 : x ≠ object_cid) by (intros ->; contradiction).
    assert (Hg0 : good_head object_cid [[object_cid]; x :: y :: tb] = false).
    { apply (good_head_false _ _ x (y :: tb)); [in_list | exact H0]. }
    assert (Hgx : good_head x [[object_cid]; x :: y :: tb] = true).
    { apply good_head_true. repeat constructor; simpl; [set_solver | exact Hx]. }
    rewrite Hg0, Hgx. cbn [fmap list_fmap].
    rewrite (drop_head_ne x object_cid []) by congruence.
    rewrite drop_head_eq.
    rewrite IH; [reflexivity | exact Hnd | exact Hlast | simpl in *; lia].
Qed.

(** A mixin that derives from [object] alone, put in front of a base with a
    well-formed linearisation, always yields the order
    [mixin, base, ancestors of base]. *)
Lemma mro_merge_plain_mixin (fuel : nat) (mix base : cid) (tb : list cid) :
  mix ≠ object_cid → base ≠ object_cid → mix ≠ base → mix ∉ tb →
  NoDup (base :: tb) → last (base :: tb) = Some object_cid →
  3 + length tb ≤ fuel →
  mro_merge fuel [[mix; object_cid]; base :: tb; [mix; base]]
  = Some (mix :: base :: tb).
Proof.
  intros Hm0 Hb0 Hmb Hmtb Hnd Hlast Hfuel.
  destruct fuel as [|fuel]; [lia|].
  rewrite mro_merge_S. cbn [List.filter nonempty find_candidate].
  assert (Hg1 : good_head mix [[mix; object_cid]; base :: tb; [mix; base]] = true).
  { apply good_head_true.
    repeat constructor; simpl; [not_in_list | exact Hmtb | not_in_list]. }
  rewrite Hg1. cbn [fmap list_fmap].
  rewrite !drop_head_eq, (drop_head_ne mix base tb) by congruence.
  destruct fuel as [|fuel]; [lia|].
  rewrite mro_merge_S. cbn [List.filter nonempty find_candidate].
  apply NoDup_cons in Hnd as [Hbtb Hnd].
  assert (Htb : object_cid ∈ tb ∧ last tb = Some object_cid).
  { destruct tb as [|y tb]; [simpl in Hlast; congruence|].
    change (last (base :: y :: tb)) with (last (y :: tb)) in Hlast.
    split; [|exact Hlast].
    apply last_Some in Hlast as [l' ->]. set_solver. }
  destruct Htb as [H0 Hlast'].
  assert (Hg0 : good_head object_cid [[object_cid]; base :: tb; [base]] = false).
  { apply (good_head_false _ _ base tb); [set_solver | exact H0]. }
  assert (Hgb : good_head base [[object_cid]; base :: tb; [base]] = true).
  { apply good_head_true.
    repeat constructor; simpl; [set_solver | exact Hbtb | set_solver]. }
  rewrite Hg0, Hgb. cbn [fmap list_fmap].
  rewrite (drop_head_ne base object_cid []) by congruence.
  rewrite !drop_head_eq.
  assert (Hrest : mro_merge fuel [[object_cid]; tb; []] = Some tb).
  { rewrite <- (mro_merge_object_tail tb fuel Hnd Hlast') by (simpl in *; lia).
    destruct fuel; reflexivity. }
  rewrite Hrest. reflexivity.
Qed.

Lemma type_new_plain_mixin (h : list ClassObj) name dict
    (mix base : cid) (om ob : ClassObj) (tb : list cid) :
  h !! mix = Some om → cls_mro om = [mix; object_cid] →
  h !! base = Some ob → cls_mro ob = base :: tb →
  mix ≠ object_cid → base ≠ object_cid → mix ≠ base → mix ∉ tb →
  NoDup (base :: tb) → last (base :: tb) = Some object_cid →
  type_new h name [mix; base] dict
  = Ok (h ++ [mkClass name [mix; base] dict (length h :: mix :: base :: tb)],
        length h).
Proof.
  intros Hm Hmm Hb Hbm Hm0 Hb0 Hmb Hmtb Hnd Hlast.
  unfold type_new, effective_bases. cbv zeta.
  rewrite bool_decide_eq_true_2.
  2:{ apply NoDup_cons. split; [not_in_list | apply NoDup_singleton]. }
  cbn [negb mapM]. rewrite Hm, Hb. simpl. rewrite Hmm, Hbm.
  rewrite mro_merge_plain_mixin; try done.
  simpl. lia.
Qed.

(** *** Attribute lookup on a freshly created class *)

Lemma mro_lookup_frame (h h' : list ClassObj) (mro : list cid) attr :
  (∀ k o, h !! k = Some o → h' !! k = Some o) →
  Forall (λ k, k < length h) mro →
  mro_lookup h' mro attr = mro_lookup h mro attr.
Proof.
  intros Hframe Hall. induction Hall as [|k mro Hk _ IH]; [reflexivity|].
  simpl. destruct (lookup_lt_is_Some_2 h k Hk) as [o Ho].
  rewrite (Hframe _ _ Ho), Ho, IH. reflexivity.
Qed.

(** An attribute found in the first base's own dictionary wins over every
    later class of the linearisation when the new class defines nothing. *)
Lemma class_getattr_first_base (h h' : list ClassObj) name (c b1 : cid)
    (bases : list cid) (o1 : ClassObj) attr (v : V) :
  heap_wf h →
  type_new h name (b1 :: bases) ∅ = Ok (h', c) →
  h !! b1 = Some o1 →
  cls_dict o1 !! attr = Some v →
  (∀ o t, h' !! c = Some o → cls_mro o = c :: t → ∃ r, t = b1 :: r) →
  class_getattr h' c attr = Some v.
Proof.
  intros Hwf Hnew Hb1 Hattr Hhead.
  destruct (type_new_frame _ _ _ _ _ _ Hnew) as (Hc & _ & Hold).
  destruct (type_new_lookup _ _ _ _ _ _ Hnew) as (o & Ho & _ & Hd & _ & t & Ht).
  destruct (Hhead o t Ho Ht) as [r ->].
  unfold class_getattr. rewrite Ho. simpl. rewrite Ht. simpl.
  rewrite Ho. simpl. rewrite Hd, lookup_empty.
  rewrite (Hold _ _ Hb1). simpl. rewrite Hattr. reflexivity.
Qed.

End Classes.
Arguments ClassObj V : clear implicits.

End Py.

(** ** [prepare.py]: the retriever registry and [get_retriever] *)

Module Prepare.
Import Py.

(** [s.startswith(p)] *)
Definition startswith (s p : string) : bool := String.prefix p s.

Section GetRetriever.

(** The retriever classes and the training mixins are imported from
    [retrieval.sparse], [retrieval.dense] and [retrieval.hybrid]; their
    attribute values [V], the state of a retriever object [Retriever] and the
    remaining configuration [Cfg] are left open. *)
Context {V Retriever Cfg : Type}.

Record Imports := {
  BM25Retrieval : cid;
  ATIREBM25Retrieval : cid;
  TfidfRetrieval : cid;
  DprBert : cid;
  ColBert : cid;
  Bm25DprBert : cid;
  TfidfDprBert : cid;
  AtireBm25DprBert : cid;
  LogisticBm25DprBert : cid;
  LogisticAtireBm25DprBert : cid;
  BaseTrainMixin : cid;
  Bm25TrainMixin : cid
}.

Record Args := {
  model_retriever_name : string;
  retriever_dense_train_dataset : string;
  args_other : Cfg
}.

(** The interpreter state that [get_retriever] acts on: the class heap and
    the retriever objects created so far, each with its class. *)
Record World := {
  classes : list (ClassObj V);
  objects : list (cid * Retriever)
}.

Definition M (A : Type) : Type := World → Result A * World.

Definition throw {A} (e : PyExc) : M A := λ w, (Raise e, w).

#[local] Instance M_ret : MRet M := λ A a w, (Ok a, w).
#[local] Instance M_bind : MBind M := λ A B k m w,
  match m w with
  | (Ok a, w') => k a w'
  | (Raise e, w') => (Raise e, w')
  end.

Variable im : Imports.

(** Behaviour of a retriever class's constructor and of [get_embedding];
    both may raise. *)
Variable retriever_init : list (ClassObj V) → cid → Args → Result Retriever.
Variable get_embedding : list (ClassObj V) → cid → Retriever → Result Retriever.

Definition RETRIEVER : gmap string cid :=
  py_dict [
    ("BM25", BM25Retrieval im);
    ("ATIREBM25", ATIREBM25Retrieval im);
    ("TFIDF", TfidfRetrieval im);
    ("DPRBERT", DprBert im);
    ("COLBERT", ColBert im);
    ("BM25_DPRBERT", Bm25DprBert im);
    ("TFIDF_DPRBERT", TfidfDprBert im);
    ("ATIREBM25_DPRBERT", AtireBm25DprBert im);
    ("LOG_BM25_DPRBERT", LogisticBm25DprBert im);
    ("LOG_ATIREBM25_DPRBERT", LogisticAtireBm25DprBert im)
  ].

(** [RETRIEVER[name]] *)
Definition RETRIEVER_getitem (name : string) : M cid :=
  match RETRIEVER !! name with
  | Some c => mret c
  | None => throw (KeyError name)
  end.

(** [base.__class__(name, (mixin, base), {})]; the metaclass of every
    registered class is [type]. *)
Definition retriever_mixin_factory (name : string) (base mixin : cid) : M cid :=
  λ w, match type_new (classes w) name [mixin; base] ∅ with
       | Ok (h', c) => (Ok c, {| classes := h'; objects := objects w |})
       | Raise e => (Raise e, w)
       end.

(** [retriever_class(args)]: allocate the object and run the constructor. *)
Definition instantiate (c : cid) (args : Args) : M nat :=
  λ w, match retriever_init (classes w) c args with
       | Ok r => (Ok (length (objects w)),
                  {| classes := classes w; objects := objects w ++ [(c, r)] |})
       | Raise e => (Raise e, w)
       end.

(** [retriever.get_embedding()]: updates the object in place. *)
Definition call_get_embedding (ref : nat) : M () :=
  λ w, match objects w !! ref with
       | None => (Raise (RuntimeError "dangling reference"), w)
       | Some (c, r) =>
           match get_embedding (classes w) c r with
           | Ok r' => (Ok (), {| classes := classes w;
                                 objects := <[ref := (c, r')]> (objects w) |})
           | Raise e => (Raise e, w)
           end
       end.

(** Lines 58-64: the class that will be instantiated. *)
Definition select_retriever_class (args : Args) : M cid :=
  retriever_class ← RETRIEVER_getitem (model_retriever_name args);
  if startswith (retriever_dense_train_dataset args) "bm25" then
    retriever_mixin_factory "bm25_mixin_class" retriever_class (Bm25TrainMixin im)
  else if bool_decide (retriever_dense_train_dataset args = "train_dataset")
          && negb (bool_decide (model_retriever_name args = "COLBERT")) then
    retriever_mixin_factory "base_mixin_class" retriever_class (BaseTrainMixin im)
  else mret retriever_class.

Definition get_retriever (args : Args) : M nat :=
  retriever_class ← select_retriever_class args;
  retriever ← instantiate retriever_class args;
  _ ← call_get_embedding retriever;
  mret retriever.

(** The recognised scheme names. *)
Definition scheme_names : list string :=
  ["BM25"; "ATIREBM25"; "TFIDF"; "DPRBERT"; "COLBERT"; "BM25_DPRBERT";
   "TFIDF_DPRBERT"; "ATIREBM25_DPRBERT"; "LOG_BM25_DPRBERT";
   "LOG_ATIREBM25_DPRBERT"].

(** A class synthesised by [retriever_mixin_factory] in world [w], seen in
    world [w']. *)
Definition synthesised (w w' : World) (c : cid) (name : string)
    (mixin base : cid) : Prop :=
  c = length (classes w) ∧
  objects w' = objects w ∧
  (∀ k o, classes w !! k = Some o → classes w' !! k = Some o) ∧
  ∃ o r,
    classes w' !! c = Some o ∧
    cls_name o = name ∧ cls_bases o = [mixin; base] ∧ cls_dict o = ∅ ∧
    cls_mro o = c :: mixin :: r ∧ base ∈ r ∧
    ∀ om attr v,
      classes w !! mixin = Some om → cls_dict om !! attr = Some v →
      class_getattr (classes w') c attr = Some v.


(** *** The registry *)

Lemma RETRIEVER_unfold :
  RETRIEVER =
  <["LOG_ATIREBM25_DPRBERT" := LogisticAtireBm25DprBert im]>
  (<["LOG_BM25_DPRBERT" := LogisticBm25DprBert im]>
  (<["ATIREBM25_DPRBERT" := AtireBm25DprBert im]>
  (<["TFIDF_DPRBERT" := TfidfDprBert im]>
  (<["BM25_DPRBERT" := Bm25DprBert im]>
  (<["COLBERT" := ColBert im]>
  (<["DPRBERT" := DprBert im]>
  (<["TFIDF" := TfidfRetrieval im]>
  (<["ATIREBM25" := ATIREBM25Retrieval im]>
  (<["BM25" := BM25Retrieval im]> ∅))))))))).
Proof. reflexivity. Qed.

Lemma RETRIEVER_dom : dom RETRIEVER = list_to_set scheme_names.
Proof.
  rewrite RETRIEVER_unfold, !dom_insert_L, dom_empty_L.
  unfold scheme_names. simpl. set_solver.
Qed.

Lemma RETRIEVER_unknown (name : string) :
  name ∉ scheme_names → RETRIEVER !! name = None.
Proof.
  intros Hn. apply not_elem_of_dom. rewrite RETRIEVER_dom. set_solver.
Qed.

Lemma RETRIEVER_known (name : string) :
  name ∈ scheme_names → is_Some (RETRIEVER !! name).
Proof.
  intros Hn. apply elem_of_dom. rewrite RETRIEVER_dom. set_solver.
Qed.

Lemma RETRIEVER_entries :
  RETRIEVER !! "BM25" = Some (BM25Retrieval im) ∧
  RETRIEVER !! "ATIREBM25" = Some (ATIREBM25Retrieval im) ∧
  RETRIEVER !! "TFIDF" = Some (TfidfRetrieval im) ∧
  RETRIEVER !! "DPRBERT" = Some (DprBert im) ∧
  RETRIEVER !! "COLBERT" = Some (ColBert im) ∧
  RETRIEVER !! "BM25_DPRBERT" = Some (Bm25DprBert im) ∧
  RETRIEVER !! "TFIDF_DPRBERT" = Some (TfidfDprBert im) ∧
  RETRIEVER !! "ATIREBM25_DPRBERT" = Some (AtireBm25DprBert im) ∧
  RETRIEVER !! "LOG_BM25_DPRBERT" = Some (LogisticBm25DprBert im) ∧
  RETRIEVER !! "LOG_ATIREBM25_DPRBERT" = Some (LogisticAtireBm25DprBert im).
Proof.
  rewrite RETRIEVER_unfold.
  repeat split; repeat (rewrite lookup_insert_ne by done);
    apply lookup_insert_eq.
Qed.

(** *** The monad *)

Lemma bind_Ok_inv {A B} (m : M A) (k : A → M B) (w w' : World) (b : B) :
  (m ≫= k) w = (Ok b, w') → ∃ a w1, m w = (Ok a, w1) ∧ k a w1 = (Ok b, w').
Proof.
  unfold mbind, M_bind. intros H.
  destruct (m w) as [[a|e] w1]; simpl in H; [eauto | discriminate].
Qed.

Lemma bind_Raise {A B} (m : M A) (k : A → M B) (w w' : World) e :
  m w = (Raise e, w') → (m ≫= k) w = (Raise e, w').
Proof. unfold mbind, M_bind. by intros ->. Qed.

(** *** Class synthesis *)

Lemma retriever_mixin_factory_spec (name : string) (base mixin : cid)
    (w w' : World) (c : cid) :
  heap_wf (classes w) →
  retriever_mixin_factory name base mixin w = (Ok c, w') →
  synthesised w w' c name mixin base.
Proof.
  intros Hwf Hf. unfold retriever_mixin_factory in Hf.
  destruct (type_new (classes w) name [mixin; base] ∅) as [[h' c']|e] eqn:Hnew;
    [|discriminate].
  injection Hf as <- <-.
  destruct (type_new_frame _ _ _ _ _ _ Hnew) as (Hc & _ & Hold).
  pose proof Hnew as Hnew'.
  apply type_new_inv in Hnew' as (mros & m & Hnd & Hmros & Hm & _ & Hh');
    [|discriminate].
  assert (Hne : mixin ≠ base).
  { apply NoDup_cons in Hnd as [Hni _]. set_solver. }
  cbn [mapM] in Hmros.
  destruct (classes w !! mixin) as [om|] eqn:Hom; [|discriminate].
  destruct (classes w !! base) as [ob|] eqn:Hob; [|discriminate].
  simpl in Hmros. injection Hmros as <-.
  destruct (Hwf _ _ Hom) as [t1 Ht1]. destruct (Hwf _ _ Hob) as [t2 Ht2].
  rewrite Ht1, Ht2 in Hm. simpl app in Hm.
  destruct (mro_merge_two_bases _ _ _ _ _ _ Hne Hm) as (r & -> & Hbase).
  split; [exact Hc|]. split; [reflexivity|]. split; [exact Hold|].
  simpl classes.
  assert (Hlook : h' !! c' = Some (mkClass name [mixin; base] ∅ (c' :: mixin :: r))).
  { rewrite Hh', Hc. rewrite lookup_app_r by lia.
    rewrite Nat.sub_diag. reflexivity. }
  eexists _, r. split; [exact Hlook|]. simpl.
  repeat split; try done.
  intros om' attr v Hom' Hattr.
  eapply class_getattr_first_base; [exact Hwf | exact Hnew | eauto..].
  intros o t Ho Ht. rewrite Hlook in Ho. injection Ho as <-.
  simpl in Ht. injection Ht as <-. eauto.
Qed.

Lemma select_retriever_class_unknown (args : Args) (w : World) :
  model_retriever_name args ∉ scheme_names →
  select_retriever_class args w = (Raise (KeyError (model_retriever_name args)), w).
Proof.
  intros Hn. unfold select_retriever_class. apply bind_Raise.
  unfold RETRIEVER_getitem. by rewrite (RETRIEVER_unknown _ Hn).
Qed.

Lemma select_retriever_class_known (args : Args) (w : World) (cls : cid) :
  RETRIEVER !! model_retriever_name args = Some cls →
  select_retriever_class args w =
  (if startswith (retriever_dense_train_dataset args) "bm25" then
     retriever_mixin_factory "bm25_mixin_class" cls (Bm25TrainMixin im)
   else if bool_decide (retriever_dense_train_dataset args = "train_dataset")
           && negb (bool_decide (model_retriever_name args = "COLBERT")) then
     retriever_mixin_factory "base_mixin_class" cls (BaseTrainMixin im)
   else mret cls) w.
Proof.
  intros Hcls. unfold select_retriever_class, RETRIEVER_getitem.
  rewrite Hcls. reflexivity.
Qed.

(** C5: which class [get_retriever] instantiates. With a training dataset
    whose name starts with "bm25" it is a new class with bases
    [(Bm25TrainMixin, base)], whatever the retriever name; otherwise with
    "train_dataset" and a name other than "COLBERT" it is a new class with
    bases [(BaseTrainMixin, base)]; otherwise the registered class itself.
    In a new class the mixin comes right after the class in the MRO and
    before the base, so an attribute of the mixin's dictionary is the one
    found, and all existing class objects are unchanged. *)
Theorem select_retriever_class_spec (args : Args) (w w' : World) (cls c : cid) :
  heap_wf (classes w) →
  RETRIEVER !! model_retriever_name args = Some cls →
  select_retriever_class args w = (Ok c, w') →
  if startswith (retriever_dense_train_dataset args) "bm25" then
    synthesised w w' c "bm25_mixin_class" (Bm25TrainMixin im) cls
  else if bool_decide (retriever_dense_train_dataset args = "train_dataset")
          && negb (bool_decide (model_retriever_name args = "COLBERT")) then
    synthesised w w' c "base_mixin_class" (BaseTrainMixin im) cls
  else c = cls ∧ w' = w.
Proof.
  intros Hwf Hcls Hsel. rewrite (select_retriever_class_known _ _ _ Hcls) in Hsel.
  destruct (startswith _ _).
  - by apply retriever_mixin_factory_spec.
  - destruct (_ && _).
    + by apply retriever_mixin_factory_spec.
    + injection Hsel as <- <-. done.
Qed.

(** With mixins that derive from [object] alone and a registered class with
    a well-formed linearisation, class synthesis does not fail. *)
Lemma retriever_mixin_factory_returns (name : string) (base mixin : cid)
    (w : World) (om ob : ClassObj V) (tb : list cid) :
  classes w !! mixin = Some om → cls_mro om = [mixin; object_cid] →
  classes w !! base = Some ob → cls_mro ob = base :: tb →
  mixin ≠ object_cid → base ≠ object_cid → mixin ≠ base → mixin ∉ tb →
  NoDup (base :: tb) → last (base :: tb) = Some object_cid →
  ∃ w', retriever_mixin_factory name base mixin w = (Ok (length (classes w)), w').
Proof.
  intros. unfold retriever_mixin_factory.
  erewrite type_new_plain_mixin by eassumption. eauto.
Qed.

(** *** Construction *)

Lemma select_retriever_class_objects (args : Args) (w w' : World) r :
  select_retriever_class args w = (r, w') → objects w' = objects w.
Proof.
  unfold select_retriever_class, RETRIEVER_getitem, mbind, M_bind.
  destruct (RETRIEVER !! _) as [cls|]; simpl.
  - assert (Hf : ∀ n m, objects (retriever_mixin_factory n cls m w).2 = objects w).
    { intros n m. unfold retriever_mixin_factory.
      by destruct (type_new _ _ _ _) as [[??]|?]. }
    destruct (startswith _ _); [|destruct (_ && _)].
    + intros H. specialize (Hf "bm25_mixin_class" (Bm25TrainMixin im)).
      by rewrite H in Hf.
    + intros H. specialize (Hf "base_mixin_class" (BaseTrainMixin im)).
      by rewrite H in Hf.
    + by intros [= _ <-].
  - by intros [= _ <-].
Qed.

(** What [get_retriever] does once the class is selected: it runs the
    constructor of that class, then [get_embedding] on the new object. *)
Definition construct_and_embed (args : Args) (w w1 : World) (c : cid)
    : Result nat * World :=
  match retriever_init (classes w1) c args with
  | Raise e => (Raise e, w1)
  | Ok st =>
      match get_embedding (classes w1) c st with
      | Raise e =>
          (Raise e, {| classes := classes w1; objects := objects w ++ [(c, st)] |})
      | Ok st' =>
          (Ok (length (objects w)),
           {| classes := classes w1; objects := objects w ++ [(c, st')] |})
      end
  end.

Lemma get_retriever_selected (args : Args) (w w1 : World) (c : cid) :
  select_retriever_class args w = (Ok c, w1) →
  get_retriever args w = construct_and_embed args w w1 c.
Proof.
  intros Hsel. pose proof (select_retriever_class_objects _ _ _ _ Hsel) as Hobj.
  unfold get_retriever, construct_and_embed, mbind, M_bind. rewrite Hsel.
  unfold instantiate.
  destruct (retriever_init (classes w1) c args) as [st|e]; [|reflexivity].
  unfold call_get_embedding. cbn [objects classes].
  rewrite lookup_app_r by lia. rewrite Nat.sub_diag. cbn [lookup list_lookup].
  rewrite Hobj.
  destruct (get_embedding (classes w1) c st) as [st'|e]; [|reflexivity].
  cbn. rewrite insert_app_r_alt by lia. rewrite Nat.sub_diag. reflexivity.
Qed.

(** C4: the recognised scheme names are exactly the ten keys of
    [RETRIEVER], each bound to its class; with any other name
    [get_retriever] raises [KeyError] with the world untouched (no class
    created, no retriever constructed).  With a registered name the lookup
    gives the registered class, from which lines 61-64 select the class to
    instantiate; [get_retriever] then runs the constructor of that class
    and [get_embedding], and returns the new object when both return: the
    object is a new one whose class is the registered class or a class
    synthesised with the registered class as its base.  An error of the
    class synthesis, of the constructor or of [get_embedding] is the error
    of [get_retriever]. *)
Theorem get_retriever_scheme_names :
  dom RETRIEVER = list_to_set scheme_names ∧
  (RETRIEVER !! "BM25" = Some (BM25Retrieval im) ∧
   RETRIEVER !! "ATIREBM25" = Some (ATIREBM25Retrieval im) ∧
   RETRIEVER !! "TFIDF" = Some (TfidfRetrieval im) ∧
   RETRIEVER !! "DPRBERT" = Some (DprBert im) ∧
   RETRIEVER !! "COLBERT" = Some (ColBert im) ∧
   RETRIEVER !! "BM25_DPRBERT" = Some (Bm25DprBert im) ∧
   RETRIEVER !! "TFIDF_DPRBERT" = Some (TfidfDprBert im) ∧
   RETRIEVER !! "ATIREBM25_DPRBERT" = Some (AtireBm25DprBert im) ∧
   RETRIEVER !! "LOG_BM25_DPRBERT" = Some (LogisticBm25DprBert im) ∧
   RETRIEVER !! "LOG_ATIREBM25_DPRBERT" = Some (LogisticAtireBm25DprBert im)) ∧
  (∀ args w,
     model_retriever_name args ∉ scheme_names →
     get_retriever args w = (Raise (KeyError (model_retriever_name args)), w)) ∧
  (∀ args w,
     model_retriever_name args ∈ scheme_names →
     ∃ cls, RETRIEVER !! model_retriever_name args = Some cls ∧
     ∀ ref w', get_retriever args w = (Ok ref, w') →
       ref = length (objects w) ∧
       ∃ c st, objects w' !! ref = Some (c, st) ∧
         (c = cls ∨
          ∃ o mixin, classes w' !! c = Some o ∧ cls_bases o = [mixin; cls])) ∧
  (∀ args w,
     model_retriever_name args ∈ scheme_names →
     ∃ cls, RETRIEVER !! model_retriever_name args = Some cls ∧
     select_retriever_class args w =
       (if startswith (retriever_dense_train_dataset args) "bm25" then
          retriever_mixin_factory "bm25_mixin_class" cls (Bm25TrainMixin im)
        else if bool_decide (retriever_dense_train_dataset args = "train_dataset")
                && negb (bool_decide (model_retriever_name args = "COLBERT")) then
          retriever_mixin_factory "base_mixin_class" cls (BaseTrainMixin im)
        else mret cls) w ∧
     (∀ c w1, select_retriever_class args w = (Ok c, w1) →
        get_retriever args w = construct_and_embed args w w1 c) ∧
     (∀ e w1, select_retriever_class args w = (Raise e, w1) →
        get_retriever args w = (Raise e, w1))).
Proof.
  split; [exact RETRIEVER_dom|]. split; [exact RETRIEVER_entries|]. split; [|split].
  - intros args w Hn. unfold get_retriever. apply bind_Raise.
    by apply select_retriever_class_unknown.
  - intros args w Hn. destruct (RETRIEVER_known _ Hn) as [cls Hcls].
    exists cls. split; [exact Hcls|]. intros ref w' Hget.
    unfold get_retriever in Hget.
    apply bind_Ok_inv in Hget as (c & w1 & Hsel & Hget).
    apply bind_Ok_inv in Hget as (ref' & w2 & Hinst & Hget).
    apply bind_Ok_inv in Hget as ([] & w3 & Hemb & Hret).
    injection Hret as <- <-.
    pose proof (select_retriever_class_objects _ _ _ _ Hsel) as Hobj.
    unfold instantiate in Hinst.
    destruct (retriever_init (classes w1) c args) as [st|]; [|discriminate].
    injection Hinst as <- <-.
    unfold call_get_embedding in Hemb. simpl in Hemb.
    rewrite lookup_app_r in Hemb by lia. rewrite Nat.sub_diag in Hemb.
    simpl in Hemb.
    destruct (get_embedding (classes w1) c st) as [st'|]; [|discriminate].
    injection Hemb as <-. simpl.
    split; [by rewrite Hobj|].
    exists c, st'. split.
    { apply list_lookup_insert_eq. rewrite length_app. simpl. lia. }
    rewrite (select_retriever_class_known _ _ _ Hcls) in Hsel.
    assert (Hfac : ∀ n m w0, retriever_mixin_factory n cls m w = (Ok c, w0) →
              ∃ o mixin, classes w0 !! c = Some o ∧ cls_bases o = [mixin; cls]).
    { intros n m w0. unfold retriever_mixin_factory.
      destruct (type_new _ _ _ _) as [[h' c']|] eqn:Hnew; [|discriminate].
      intros [= <- <-]. simpl.
      destruct (type_new_lookup _ _ _ _ _ _ Hnew) as (o & Ho & _ & _ & Hb & _).
      exists o, m. split; [exact Ho|]. by apply Hb. }
    destruct (startswith _ _); [|destruct (_ && _)].
    + right. eauto.
    + right. eauto.
    + left. by injection Hsel as <- <-.
  - intros args w Hn. destruct (RETRIEVER_known _ Hn) as [cls Hcls].
    exists cls. split; [exact Hcls|].
    split; [by apply select_retriever_class_known|]. split.
    + intros c w1 Hsel. by apply get_retriever_selected.
    + intros e w1 Hsel. unfold get_retriever. by apply bind_Raise.
Qed.

End GetRetriever.

(** *** A concrete class hierarchy on which the registry is exercised *)

Section Demo.

Definition demo_decls : list (string * list cid * list (string * string)) :=
  [ ("BaseTrainMixin", [], [("_load_dataset", "BaseTrainMixin._load_dataset")]);
    ("Bm25TrainMixin", [], [("_load_dataset", "Bm25TrainMixin._load_dataset")]);
    ("Retrieval", [], [("get_embedding", "Retrieval.get_embedding")]);
    ("SparseRetrieval", [3], []);
    ("DenseRetrieval", [3], [("_load_dataset", "DenseRetrieval._load_dataset")]);
    ("HybridRetrieval", [3], []);
    ("BM25Retrieval", [4], []);
    ("ATIREBM25Retrieval", [4], []);
    ("TfidfRetrieval", [4], []);
    ("DprBert", [5], []);
    ("ColBert", [5], []);
    ("Bm25DprBert", [6], []);
    ("TfidfDprBert", [6], []);
    ("AtireBm25DprBert", [6], []);
    ("LogisticBm25DprBert", [6], []);
    ("LogisticAtireBm25DprBert", [6], []) ].

Definition demo_heap : list (ClassObj string) :=
  match declare_all [object_class] demo_decls with
  | Ok h => h
  | Raise _ => []
  end.

Definition demo_imports : Imports :=
  {| BaseTrainMixin := 1; Bm25TrainMixin := 2;
     BM25Retrieval := 7; ATIREBM25Retrieval := 8; TfidfRetrieval := 9;
     DprBert := 10; ColBert := 11;
     Bm25DprBert := 12; TfidfDprBert := 13; AtireBm25DprBert := 14;
     LogisticBm25DprBert := 15; LogisticAtireBm25DprBert := 16 |}.

Definition demo_world : @World string string :=
  {| classes := demo_heap; objects := [] |}.

Definition demo_init (h : list (ClassObj string)) (c : cid) (args : @Args ())
    : Result string :=
  Ok (default "" (cls_name <$> h !! c)).

Definition demo_get_embedding (h : list (ClassObj string)) (c : cid) (r : string)
    : Result string :=
  Ok (r +:+ " with embedding").

Definition demo_args (name dataset : string) : @Args () :=
  {| model_retriever_name := name;
     retriever_dense_train_dataset := dataset;
     args_other := () |}.

End Demo.

Lemma demo_heap_length : length demo_heap = 17.
Proof. reflexivity. Qed.

Lemma demo_heap_wf : heap_wf demo_heap.
Proof.
  intros c o Hc.
  assert (Hlt : c < 17).
  { rewrite <- demo_heap_length. by eapply lookup_lt_Some. }
  do 17 (destruct c as [|c];
         [vm_compute in Hc; injection Hc as <-; eexists; reflexivity|]).
  lia.
Qed.

Example demo_mro_DprBert :
  cls_mro <$> demo_heap !! 10 = Some [10; 5; 3; 0].
Proof. reflexivity. Qed.

(** The docstring of [get_retriever] advertises "DPR", which is not a key;
    with the key "COLBERT" and the dataset "train_dataset" the registered
    class is instantiated, and with the key "DPRBERT" a class synthesised
    from the registered class is. *)
Lemma get_retriever_scheme_names_witness :
  ("DPR" ∉ scheme_names) ∧
  get_retriever demo_imports demo_init demo_get_embedding
    (demo_args "DPR" "train_dataset") demo_world
  = (Raise (KeyError "DPR"), demo_world) ∧
  get_retriever demo_imports demo_init demo_get_embedding
    (demo_args "COLBERT" "train_dataset") demo_world
  = (Ok 0, {| classes := demo_heap; objects := [(11, "ColBert with embedding")] |}) ∧
  (get_retriever demo_imports demo_init demo_get_embedding
     (demo_args "DPRBERT" "train_dataset") demo_world).1 = Ok 0 ∧
  objects (get_retriever demo_imports demo_init demo_get_embedding
             (demo_args "DPRBERT" "train_dataset") demo_world).2
  = [(17, "base_mixin_class with embedding")] ∧
  (cls_bases <$> classes (get_retriever demo_imports demo_init demo_get_embedding
                            (demo_args "DPRBERT" "train_dataset") demo_world).2
                 !! 17) = Some [1; 10].
Proof.
  assert (Hn : "DPR" ∉ scheme_names).
  { unfold scheme_names. not_in_list. }
  assert (Hcol : "COLBERT" ∈ scheme_names).
  { unfold scheme_names. in_list. }
  assert (Hdpr : "DPRBERT" ∈ scheme_names).
  { unfold scheme_names. in_list. }
  pose proof (get_retriever_scheme_names demo_imports demo_init demo_get_embedding)
    as (_ & _ & Hunknown & _ & Hknown).
  split; [exact Hn|].
  split; [exact (Hunknown (demo_args "DPR" "train_dataset") demo_world Hn)|].
  destruct (Hknown (demo_args "COLBERT" "train_dataset") demo_world Hcol)
    as (cls1 & _ & _ & Hrun1 & _).
  destruct (Hknown (demo_args "DPRBERT" "train_dataset") demo_world Hdpr)
    as (cls2 & _ & _ & Hrun2 & _).
  split.
  { rewrite (Hrun1 11 demo_world eq_refl). reflexivity. }
  rewrite (Hrun2 17
             (select_retriever_class demo_imports
                (demo_args "DPRBERT" "train_dataset") demo_world).2
             ltac:(vm_compute; reflexivity)).
  vm_compute. done.
Defined.

Definition demo_bm25_world : @World string string :=
  (select_retriever_class demo_imports (demo_args "COLBERT" "bm25_hard_negative")
     demo_world).2.

Lemma demo_select_bm25 :
  select_retriever_class demo_imports (demo_args "COLBERT" "bm25_hard_negative")
    demo_world = (Ok 17, demo_bm25_world).
Proof. vm_compute. reflexivity. Qed.

Lemma demo_lookup_COLBERT :
  RETRIEVER demo_imports !! "COLBERT" = Some 11.
Proof. apply (RETRIEVER_entries demo_imports). Qed.

Lemma select_retriever_class_spec_witness :
  synthesised demo_world demo_bm25_world 17 "bm25_mixin_class" 2 11.
Proof.
  exact (select_retriever_class_spec demo_imports
           (demo_args "COLBERT" "bm25_hard_negative")
           demo_world demo_bm25_world 11 17
           demo_heap_wf demo_lookup_COLBERT demo_select_bm25).
Defined.

(** The mixin's method shadows the one inherited through the base. *)
Example demo_override :
  class_getattr (classes demo_bm25_world) 17 "_load_dataset"
    = Some "Bm25TrainMixin._load_dataset" ∧
  class_getattr demo_heap 11 "_load_dataset"
    = Some "DenseRetrieval._load_dataset" ∧
  cls_mro <$> classes demo_bm25_world !! 17 = Some [17; 2; 11; 5; 3; 0].
Proof. vm_compute. done. Qed.

Example demo_get_retriever_train_dataset :
  (get_retriever demo_imports demo_init demo_get_embedding
     (demo_args "DPRBERT" "train_dataset") demo_world).1 = Ok 0 ∧
  objects (get_retriever demo_imports demo_init demo_get_embedding
     (demo_args "DPRBERT" "train_dataset") demo_world).2
  = [(17, "base_mixin_class with embedding")].
Proof. vm_compute. done. Qed.

(** "COLBERT" with "train_dataset" keeps the registered class. *)
Example demo_get_retriever_colbert :
  objects (get_retriever demo_imports demo_init demo_get_embedding
     (demo_args "COLBERT" "train_dataset") demo_world).2
  = [(11, "ColBert with embedding")].
Proof. vm_compute. done. Qed.

(** *** Repeated calls and failing class synthesis *)

Section GetRetrieverCalls.
Context {V Retriever Cfg : Type}.
Variable im : Imports.
Variable retriever_init : list (ClassObj V) → cid → @Args Cfg → Result Retriever.
Variable get_embedding : list (ClassObj V) → cid → Retriever → Result Retriever.

(** The name and the mixin of the class that lines 61-64 synthesise, if
    they synthesise one. *)
Definition selected_mixin (args : @Args Cfg) : option (string * cid) :=
  if startswith (retriever_dense_train_dataset args) "bm25" then
    Some ("bm25_mixin_class", Bm25TrainMixin im)
  else if bool_decide (retriever_dense_train_dataset args = "train_dataset")
          && negb (bool_decide (model_retriever_name args = "COLBERT")) then
    Some ("base_mixin_class", BaseTrainMixin im)
  else None.

Definition mro_conflict : PyExc :=
  TypeError "Cannot create a consistent method resolution order (MRO)".

Lemma select_retriever_class_selected (args : Args) (w : @World V Retriever)
    (cls : cid) :
  RETRIEVER im !! model_retriever_name args = Some cls →
  select_retriever_class im args w =
  match selected_mixin args with
  | Some (name, mixin) => retriever_mixin_factory name cls mixin w
  | None => (Ok cls, w)
  end.
Proof.
  intros Hcls. rewrite (select_retriever_class_known im args w cls Hcls).
  unfold selected_mixin.
  destruct (startswith _ _); [reflexivity|].
  destruct (_ && _); reflexivity.
Qed.

Lemma retriever_mixin_factory_Ok (name : string) (base mixin : cid)
    (w w' : @World V Retriever) (c : cid) :
  retriever_mixin_factory name base mixin w = (Ok c, w') →
  c = length (classes w) ∧ objects w' = objects w ∧
  ∃ m, classes w' = classes w ++ [mkClass name [mixin; base] ∅ (c :: m)].
Proof.
  unfold retriever_mixin_factory. intros Hf.
  destruct (type_new (classes w) name [mixin; base] ∅) as [[h' c']|] eqn:Hnew;
    [|discriminate].
  injection Hf as <- <-.
  apply type_new_inv in Hnew as (mros & m & _ & _ & _ & Hc & Hh');
    [|discriminate].
  split; [exact Hc|]. split; [reflexivity|]. exists m. exact Hh'.
Qed.

(** What a successful call of [get_retriever] has done. *)
Lemma get_retriever_Ok_inv (args : Args) (w w' : @World V Retriever) (ref : nat) :
  get_retriever im retriever_init get_embedding args w = (Ok ref, w') →
  ∃ c w1 st st',
    select_retriever_class im args w = (Ok c, w1) ∧
    retriever_init (classes w1) c args = Ok st ∧
    get_embedding (classes w1) c st = Ok st' ∧
    ref = length (objects w) ∧
    classes w' = classes w1 ∧
    objects w' = objects w ++ [(c, st')].
Proof.
  intros Hget. unfold get_retriever in Hget.
  apply bind_Ok_inv in Hget as (c & w1 & Hsel & Hget).
  apply bind_Ok_inv in Hget as (ref' & w2 & Hinst & Hget).
  apply bind_Ok_inv in Hget as ([] & w3 & Hemb & Hret).
  injection Hret as <- <-.
  pose proof (select_retriever_class_objects _ _ _ _ _ Hsel) as Hobj.
  unfold instantiate in Hinst.
  destruct (retriever_init (classes w1) c args) as [st|] eqn:Hinit; [|discriminate].
  injection Hinst as <- <-.
  unfold call_get_embedding in Hemb. cbn [objects classes] in Hemb.
  rewrite lookup_app_r in Hemb by lia. rewrite Nat.sub_diag in Hemb.
  cbn in Hemb.
  destruct (get_embedding (classes w1) c st) as [st'|] eqn:Hge; [|discriminate].
  injection Hemb as <-. cbn [objects classes].
  exists c, w1, st, st'. rewrite Hobj.
  repeat (split; [done|]).
  rewrite insert_app_r_alt by lia. rewrite Nat.sub_diag. reflexivity.
Qed.

(** X11: Every call of [get_retriever] that applies a mixin creates a class of
    its own: two retrievers obtained one after the other with the same
    arguments are instances of two different classes, which carry the same
    name and the same bases.  Without a mixin both are instances of the
    registered class and no class is created. *)
Theorem get_retriever_twice (args : Args) (w w1 w2 : @World V Retriever)
    (r1 r2 : nat) :
  get_retriever im retriever_init get_embedding args w = (Ok r1, w1) →
  get_retriever im retriever_init get_embedding args w1 = (Ok r2, w2) →
  r1 ≠ r2 ∧
  ∃ c1 c2 s1 s2,
    objects w2 !! r1 = Some (c1, s1) ∧ objects w2 !! r2 = Some (c2, s2) ∧
    match selected_mixin args with
    | Some (name, mixin) =>
        c1 ≠ c2 ∧ length (classes w2) = length (classes w) + 2 ∧
        ∃ o1 o2 base,
          RETRIEVER im !! model_retriever_name args = Some base ∧
          classes w2 !! c1 = Some o1 ∧ classes w2 !! c2 = Some o2 ∧
          cls_name o1 = name ∧ cls_name o2 = name ∧
          cls_bases o1 = [mixin; base] ∧ cls_bases o2 = [mixin; base]
    | None =>
        c1 = c2 ∧ classes w2 = classes w ∧
        RETRIEVER im !! model_retriever_name args = Some c1
    end.
Proof.
  intros H1 H2.
  apply get_retriever_Ok_inv in H1
    as (c1 & wa & s1 & s1' & Hsel1 & _ & _ & Hr1 & Hcl1 & Hob1).
  apply get_retriever_Ok_inv in H2
    as (c2 & wb & s2 & s2' & Hsel2 & _ & _ & Hr2 & Hcl2 & Hob2).
  assert (Hlen : length (objects w1) = S (length (objects w))).
  { rewrite Hob1, length_app. cbn. lia. }
  split; [lia|].
  exists c1, c2, s1', s2'.
  assert (Hl1 : objects w2 !! r1 = Some (c1, s1')).
  { rewrite Hob2, Hob1, Hr1. rewrite lookup_app_l.
    - rewrite lookup_app_r by lia. by rewrite Nat.sub_diag.
    - rewrite length_app. cbn. lia. }
  assert (Hl2 : objects w2 !! r2 = Some (c2, s2')).
  { rewrite Hob2, Hr2. rewrite lookup_app_r by lia. by rewrite Nat.sub_diag. }
  split; [exact Hl1|]. split; [exact Hl2|].
  assert (Hreg : ∃ base, RETRIEVER im !! model_retriever_name args = Some base).
  { unfold select_retriever_class, RETRIEVER_getitem, mbind in Hsel1.
    unfold M_bind in Hsel1.
    destruct (RETRIEVER im !! model_retriever_name args) as [base|];
      [by exists base | discriminate]. }
  destruct Hreg as [base Hbase].
  rewrite (select_retriever_class_selected _ _ _ Hbase) in Hsel1.
  rewrite (select_retriever_class_selected _ _ _ Hbase) in Hsel2.
  destruct (selected_mixin args) as [[name mixin]|].
  - apply retriever_mixin_factory_Ok in Hsel1 as (Hc1 & _ & m1 & Hh1).
    apply retriever_mixin_factory_Ok in Hsel2 as (Hc2 & _ & m2 & Hh2).
    rewrite Hcl1, Hh1 in Hc2, Hh2. rewrite length_app in Hc2. cbn in Hc2.
    rewrite Hcl2, Hh2.
    split; [lia|]. split; [rewrite !length_app; cbn; lia|].
    eexists _, _, base. split; [exact Hbase|].
    split.
    { rewrite lookup_app_l by (rewrite length_app; cbn; lia).
      rewrite lookup_app_r by lia. rewrite Hc1, Nat.sub_diag. reflexivity. }
    split.
    { rewrite lookup_app_r by (rewrite length_app; cbn; lia).
      rewrite length_app, Hc2. cbn.
      replace (length (classes w) + 1 - (length (classes w) + 1)) with 0 by lia.
      reflexivity. }
    done.
  - injection Hsel1 as <- <-. injection Hsel2 as <- <-.
    split; [reflexivity|]. split; [by rewrite Hcl2, Hcl1|]. exact Hbase.
Qed.

(** [retriever_mixin_factory] fails when the base is the mixin itself or
    already derives from it: [type] rejects the bases [(mixin, base)], and
    no class is created. *)
Lemma retriever_mixin_factory_conflict (name : string) (base mixin : cid)
    (w : @World V Retriever) (ob om : ClassObj V) (tb tm : list cid) :
  classes w !! base = Some ob → cls_mro ob = base :: tb →
  classes w !! mixin = Some om → cls_mro om = mixin :: tm →
  (base = mixin →
   retriever_mixin_factory name base mixin w
   = (Raise (TypeError "duplicate base class"), w)) ∧
  (base ≠ mixin → mixin ∈ tb →
   retriever_mixin_factory name base mixin w = (Raise mro_conflict, w)).
Proof.
  intros Hob Hmb Hom Hmm. unfold retriever_mixin_factory, type_new.
  cbn [effective_bases]. split.
  - intros ->. rewrite bool_decide_eq_false_2; [reflexivity|].
    intros Hnd. apply NoDup_cons in Hnd as [Hni _]. apply Hni. by left.
  - intros Hne Hin. rewrite bool_decide_eq_true_2.
    2:{ apply NoDup_cons. split; [|apply NoDup_singleton].
        intros Hx. apply list_elem_of_singleton in Hx. congruence. }
    cbn [negb mapM]. rewrite Hom, Hob. cbn. rewrite Hmb, Hmm. cbn.
    assert (Hg1 : bool_decide (mixin ∈ tb) = true)
      by (by apply bool_decide_eq_true).
    assert (Hg2 : bool_decide (base ∈ [base]) = true).
    { apply bool_decide_eq_true. by left. }
    rewrite Hg1, Hg2. cbn. rewrite !andb_false_r. reflexivity.
Qed.

(** X12: When the class registered under the requested name already derives from
    the mixin that lines 61-64 select, [get_retriever] raises the
    [TypeError] of an inconsistent method resolution order; no class is
    created and no retriever is constructed. *)
Theorem get_retriever_mro_conflict (args : Args) (w : @World V Retriever)
    (name : string) (base mixin : cid) (ob om : ClassObj V) (tb tm : list cid) :
  RETRIEVER im !! model_retriever_name args = Some base →
  selected_mixin args = Some (name, mixin) →
  classes w !! base = Some ob → cls_mro ob = base :: tb →
  classes w !! mixin = Some om → cls_mro om = mixin :: tm →
  base ≠ mixin → mixin ∈ tb →
  get_retriever im retriever_init get_embedding args w = (Raise mro_conflict, w).
Proof.
  intros Hbase Hsel Hob Hmb Hom Hmm Hne Hin.
  unfold get_retriever. apply bind_Raise.
  rewrite (select_retriever_class_selected _ _ _ Hbase), Hsel.
  by eapply retriever_mixin_factory_conflict.
Qed.

End GetRetrieverCalls.

(** A hierarchy in which [DprBert] already derives from [BaseTrainMixin]. *)
Definition mixed_decls : list (string * list cid * list (string * string)) :=
  <[9 := ("DprBert", [1; 5], [])]> demo_decls.

Definition mixed_world : @World string string :=
  {| classes := match declare_all [object_class] mixed_decls with
                | Ok h => h
                | Raise _ => []
                end;
     objects := [] |}.

Lemma get_retriever_mro_conflict_witness :
  get_retriever demo_imports demo_init demo_get_embedding
    (demo_args "DPRBERT" "train_dataset") mixed_world
  = (Raise mro_conflict, mixed_world).
Proof.
  refine (get_retriever_mro_conflict demo_imports demo_init demo_get_embedding
            (demo_args "DPRBERT" "train_dataset") mixed_world
            "base_mixin_class" 10 1
            (mkClass "DprBert" [1; 5] ∅ [10; 1; 5; 3; 0])
            (mkClass "BaseTrainMixin" [0]
               (py_dict [("_load_dataset", "BaseTrainMixin._load_dataset")])
               [1; 0])
            [1; 5; 3; 0] [0] _ _ _ _ _ _ _ _).
  - apply (RETRIEVER_entries demo_imports).
  - reflexivity.
  - vm_compute. reflexivity.
  - reflexivity.
  - vm_compute. reflexivity.
  - reflexivity.
  - lia.
  - in_list.
Defined.

Definition demo_once : cid * @World string string :=
  match get_retriever demo_imports demo_init demo_get_embedding
          (demo_args "DPRBERT" "train_dataset") demo_world with
  | (Ok r, w) => (r, w)
  | (Raise _, w) => (0, w)
  end.

Definition demo_again : cid * @World string string :=
  match get_retriever demo_imports demo_init demo_get_embedding
          (demo_args "DPRBERT" "train_dataset") demo_once.2 with
  | (Ok r, w) => (r, w)
  | (Raise _, w) => (0, w)
  end.

Lemma get_retriever_twice_witness :
  demo_once.1 ≠ demo_again.1 ∧
  ∃ c1 c2 s1 s2,
    objects demo_again.2 !! demo_once.1 = Some (c1, s1) ∧
    objects demo_again.2 !! demo_again.1 = Some (c2, s2) ∧
    c1 ≠ c2.
Proof.
  destruct (get_retriever_twice demo_imports demo_init demo_get_embedding
              (demo_args "DPRBERT" "train_dataset")
              demo_world demo_once.2 demo_again.2 demo_once.1 demo_again.1)
    as (Hne & c1 & c2 & s1 & s2 & H1 & H2 & Hm).
  - vm_compute. reflexivity.
  - vm_compute. reflexivity.
  - split; [exact Hne|]. exists c1, c2, s1, s2.
    split; [exact H1|]. split; [exact H2|].
    change (selected_mixin demo_imports (demo_args "DPRBERT" "train_dataset"))
      with (Some ("base_mixin_class", 1)) in Hm.
    apply Hm.
Defined.

Example demo_twice_classes :
  objects demo_again.2
  = [(17, "base_mixin_class with embedding");
     (18, "base_mixin_class with embedding")].
Proof. vm_compute. reflexivity. Qed.

End Prepare.

(** ** Tensors

    Scalars are kept abstract: every statement below holds for any
    interpretation of the arithmetic, in particular for binary floating
    point.  A 2-D tensor is the list of its rows. *)

Class FloatOps (F : Type) := {
  fzero : F;
  fadd : F → F → F;
  fsub : F → F → F;
  fmul : F → F → F;
  fdiv : F → F → F;
  fneg : F → F;
  fexp : F → F;
  flog : F → F;
  of_nat : nat → F
}.

(** Integers as scalars, to run the model on small inputs.  Sums and
    products are exact; [fexp] and [flog] are replaced by their first-order
    approximations [1 + x] and [x - 1]. *)
#[export] Instance Z_ops : FloatOps Z := {|
  fzero := 0%Z;
  fadd := Z.add;
  fsub := Z.sub;
  fmul := Z.mul;
  fdiv := Z.div;
  fneg := Z.opp;
  fexp := λ x, (1 + x)%Z;
  flog := λ x, (x - 1)%Z;
  of_nat := Z.of_nat
|}.

Module Torch.

Section Tensor.
Context {F : Type} `{FloatOps F}.

Definition nrows (m : list (list F)) : nat := length m.

Definition ncols (m : list (list F)) : nat :=
  match m with
  | [] => 0
  | r :: _ => length r
  end.

Definition fsum (l : list F) : F := foldr fadd fzero l.

Definition dot (x y : list F) : F := fsum (zip_with fmul x y).

Definition column (j : nat) (m : list (list F)) : list F :=
  (λ r, nth j r fzero) <$> m.

(** [torch.transpose(m, 0, 1)] *)
Definition transpose (m : list (list F)) : list (list F) :=
  (λ j, column j m) <$> seq 0 (ncols m).

(** [torch.matmul(a, b)] on 2-D tensors; the inner dimensions must agree. *)
Definition matmul (a b : list (list F)) : Result (list (list F)) :=
  if forallb (λ row, length row =? nrows b) a then
    Ok ((λ row, (λ j, dot row (column j b)) <$> seq 0 (ncols b)) <$> a)
  else Raise (RuntimeError "mat1 and mat2 shapes cannot be multiplied").

(** Line 134: [torch.matmul(q_outputs, torch.transpose(p_outputs, 0, 1))] *)
Definition sim_scores (q_outputs p_outputs : list (list F)) : Result (list (list F)) :=
  matmul q_outputs (transpose p_outputs).

(** [F.log_softmax(m, dim=1)] *)
Definition log_softmax (m : list (list F)) : list (list F) :=
  (λ row, let lse := flog (fsum (fexp <$> row)) in (λ x, fsub x lse) <$> row) <$> m.

(** [torch.arange(0, n)] *)
Definition arange (n : nat) : list nat := seq 0 n.

(** [F.nll_loss(input, target)] with the default mean reduction. *)
Definition nll_loss (input : list (list F)) (target : list nat) : Result F :=
  if negb (nrows input =? length target) then
    Raise (ValueError "Expected input batch_size to match target batch_size")
  else
    match mapM (λ rt : list F * nat, rt.1 !! rt.2) (zip input target) with
    | None => Raise (IndexError "Target is out of bounds")
    | Some picked => Ok (fdiv (fneg (fsum picked)) (of_nat (nrows input)))
    end.

(** *** Shapes *)

Definition has_shape (n d : nat) (m : list (list F)) : Prop :=
  length m = n ∧ Forall (λ r, length r = d) m.

Lemma column_length (j : nat) (m : list (list F)) : length (column j m) = length m.
Proof. apply length_fmap. Qed.

Lemma transpose_length (m : list (list F)) : length (transpose m) = ncols m.
Proof. unfold transpose. by rewrite length_fmap, length_seq. Qed.

Lemma ncols_shape (n d : nat) (m : list (list F)) :
  has_shape n d m → 0 < n → ncols m = d.
Proof.
  intros [Hn Hd] Hpos. destruct m as [|r m]; [simpl in Hn; lia|].
  by apply Forall_cons in Hd as [Hr _].
Qed.

Lemma transpose_shape (n d : nat) (m : list (list F)) :
  has_shape n d m → 0 < n → has_shape d n (transpose m).
Proof.
  intros Hs Hpos. pose proof (ncols_shape _ _ _ Hs Hpos) as Hc.
  destruct Hs as [Hn Hd]. split.
  - by rewrite transpose_length.
  - unfold transpose. apply Forall_fmap, Forall_forall. intros j _. simpl.
    by rewrite column_length.
Qed.

Lemma nth_seq_id (d : nat) (r : list F) :
  length r = d → (λ k, nth k r fzero) <$> seq 0 d = r.
Proof.
  intros <-. apply list_eq. intros i. rewrite list_lookup_fmap.
  destruct (decide (i < length r)) as [Hi|Hi].
  - rewrite lookup_seq_lt by done. simpl.
    destruct (lookup_lt_is_Some_2 r i Hi) as [x Hx]. rewrite Hx. f_equal.
    apply nth_lookup_Some with (d := fzero) in Hx. exact Hx.
  - rewrite lookup_seq_ge by lia. simpl. symmetry. apply lookup_ge_None. lia.
Qed.

(** Column [j] of the transpose is row [j]. *)
Lemma column_transpose (n d j : nat) (m : list (list F)) (r : list F) :
  has_shape n d m → m !! j = Some r → column j (transpose m) = r.
Proof.
  intros Hs Hj.
  assert (Hpos : 0 < n).
  { destruct Hs as [<- _]. apply lookup_lt_Some in Hj. lia. }
  pose proof (ncols_shape _ _ _ Hs Hpos) as Hc.
  destruct Hs as [Hn Hd].
  assert (Hr : length r = d).
  { rewrite Forall_forall in Hd. apply Hd. by eapply list_elem_of_lookup_2. }
  unfold column at 1, transpose. rewrite <- list_fmap_compose, Hc.
  etrans; [|exact (nth_seq_id d r Hr)].
  apply list_fmap_ext. intros i k Hk. simpl.
  unfold column. apply nth_lookup_Some with (d := fzero).
  rewrite list_lookup_fmap, Hj. simpl.
  reflexivity.
Qed.


Lemma sim_scores_rows (nq np d : nat) (q p : list (list F)) :
  has_shape nq d q → has_shape np d p → 0 < d → (np = 0 → nq = 0) →
  sim_scores q p = Ok ((λ qi, dot qi <$> p) <$> q).
Proof.
  intros Hq Hp Hd Hn. unfold sim_scores, matmul.
  destruct (decide (np = 0)) as [Hz|Hnz].
  - destruct Hp as [Hlp _], Hq as [Hlq _].
    rewrite (Hn Hz) in Hlq. rewrite Hz in Hlp.
    apply nil_length_inv in Hlp. apply nil_length_inv in Hlq.
    rewrite Hlp, Hlq. reflexivity.
  - assert (Hpos : 0 < np) by lia.
    pose proof (transpose_shape _ _ _ Hp Hpos) as Ht.
    pose proof (ncols_shape _ _ _ Ht Hd) as Hct.
    assert (Hchk : forallb (λ row, length row =? nrows (transpose p)) q = true).
    { apply forallb_forall. intros row Hrow. apply list_elem_of_In in Hrow.
      destruct Hq as [_ Hq]. rewrite Forall_forall in Hq.
      destruct Ht as [Hlt _]. unfold nrows. rewrite Hlt, (Hq _ Hrow).
      apply Nat.eqb_refl. }
    rewrite Hchk, Hct. f_equal. apply list_fmap_ext. intros _ qi _.
    apply list_eq. intros j. rewrite !list_lookup_fmap.
    destruct (p !! j) as [r|] eqn:Hj; simpl.
    + rewrite lookup_seq_lt.
      2:{ destruct Hp as [<- _]. by eapply lookup_lt_Some. }
      simpl. by rewrite (column_transpose _ _ _ _ _ Hp Hj).
    + rewrite lookup_seq_ge; [done|].
      destruct Hp as [<- _]. by apply lookup_ge_None.
Qed.


End Tensor.

(** Parallel vectors of norms 2 and 3 score 6, not 1. *)
Example sim_scores_unnormalised :
  sim_scores [[2; 0]%Z] [[3; 0]%Z] = Ok [[6%Z]].
Proof. reflexivity. Qed.


End Torch.

(** ** [retrieval/dense/dpr.py] *)

Module Dpr.
Import Py Torch.

(** *** Classes of the module and of the libraries it derives from

    The attributes that the code looks up are interpreted below; the other
    methods of [torch.nn.Module] and [transformers.PreTrainedModel] are
    listed by name only. *)

Inductive Method : Type :=
| Module___init__
| PreTrainedModel___init__
| PreTrainedModel_init_weights
| BertEncoder___init__
| BertEncoder_forward
| AutoEncoder___init__
| AutoEncoder_forward
| KoelectraEncoder___init__
| KoelectraEncoder_forward
| LibMethod (qualname : string).

Definition lib (owner : string) (names : list string) : list (string * Method) :=
  (λ n, (n, LibMethod (owner +:+ "." +:+ n))) <$> names.

Definition nn_Module_dict : list (string * Method) :=
  lib "Module"
    ["forward"; "__call__"; "__setattr__"; "__getattr__"; "__delattr__";
     "register_buffer"; "register_parameter"; "add_module"; "apply";
     "cuda"; "cpu"; "to"; "type"; "float"; "double"; "half";
     "state_dict"; "load_state_dict"; "parameters"; "named_parameters";
     "buffers"; "named_buffers"; "children"; "named_children";
     "modules"; "named_modules"; "train"; "eval"; "requires_grad_";
     "zero_grad"; "extra_repr"; "register_forward_hook";
     "register_forward_pre_hook"; "register_backward_hook"]
  ++ [("__init__", Module___init__)].

Definition PreTrainedModel_dict : list (string * Method) :=
  lib "PreTrainedModel"
    ["from_pretrained"; "save_pretrained"; "get_input_embeddings";
     "set_input_embeddings"; "get_output_embeddings"; "tie_weights";
     "resize_token_embeddings"; "prune_heads"; "base_model"]
  ++ [("__init__", PreTrainedModel___init__);
      ("init_weights", PreTrainedModel_init_weights)].

Definition Module_cid : cid := 1.
Definition PreTrainedModel_cid : cid := 2.
Definition BertPreTrainedModel_cid : cid := 3.
Definition BertEncoder_cid : cid := 4.
Definition AutoEncoder_cid : cid := 5.
Definition KoelectraEncoder_cid : cid := 6.

Definition dpr_decls : list (string * list cid * list (string * Method)) :=
  [ ("Module", [], nn_Module_dict);
    ("PreTrainedModel", [Module_cid], PreTrainedModel_dict);
    ("BertPreTrainedModel", [PreTrainedModel_cid],
       lib "BertPreTrainedModel" ["_init_weights"]);
    ("BertEncoder", [BertPreTrainedModel_cid],
       [("__init__", BertEncoder___init__); ("forward", BertEncoder_forward)]);
    ("AutoEncoder", [Module_cid],
       [("__init__", AutoEncoder___init__); ("forward", AutoEncoder_forward)]);
    ("KoelectraEncoder", [Module_cid],
       [("__init__", KoelectraEncoder___init__);
        ("forward", KoelectraEncoder_forward)]) ].

Definition dpr_classes : list (ClassObj Method) :=
  match declare_all [object_class] dpr_decls with
  | Ok h => h
  | Raise _ => []
  end.

Example dpr_classes_mro :
  cls_mro <$> dpr_classes !! BertEncoder_cid = Some [4; 3; 2; 1; 0] ∧
  cls_mro <$> dpr_classes !! AutoEncoder_cid = Some [5; 1; 0] ∧
  cls_mro <$> dpr_classes !! KoelectraEncoder_cid = Some [6; 1; 0].
Proof. vm_compute. done. Qed.

(** [super(current, self).attr]: the lookup continues after [current] in the
    MRO of the object's class. *)
Fixpoint mro_after (current : cid) (mro : list cid) : list cid :=
  match mro with
  | [] => []
  | c :: rest => if c =? current then rest else mro_after current rest
  end.

Definition super_getattr (self_class current : cid) (attr : string) : option Method :=
  o ← dpr_classes !! self_class;
  mro_lookup dpr_classes (mro_after current (cls_mro o)) attr.

(** *** Data *)

Record Features := {
  input_ids : list Z;
  attention_mask : list Z;
  token_type_ids : list Z
}.

Record Example := {
  ex_question : string;
  ex_context : string
}.

Record Config := { hidden_size : nat }.

Record TrainingArguments := {
  learning_rate : Q;
  adam_epsilon : Q;
  weight_decay : Q;
  warmup_steps : nat;
  per_device_train_batch_size : nat;
  per_device_eval_batch_size : nat;
  num_train_epochs : nat;
  gradient_accumulation_steps : nat
}.

Inductive Padding := PadMaxLength | PadLongest.

Inductive DprClass :=
| DprRetrieval
| DprKobertRetrieval
| DprKorquadBertRetrieval
| DprKoelectraRetrieval.

(** The state of a retriever object that [dpr.py] reads. *)
Record Retriever := {
  self_class : DprClass;
  train_data_dir : string;
  dense_train_dataset : string;
  contexts : list string
}.

Section Model.
Context {F : Type} `{FloatOps F}.

(** [Params] are the weights of a pretrained transformer, [OptState] the
    internal state of the optimiser and of the learning-rate schedule. *)
Context {Params OptState : Type}.

Record Backbone := {
  bb_config : Config;
  bb_params : Params
}.

Record Linear := {
  in_features : nat;
  out_features : nat;
  weight : nat → nat → F;
  bias : nat → F
}.

Inductive SubModule :=
| SubBackbone (b : Backbone)
| SubLinear (l : Linear).

(** An [nn.Module] object.  [mod_modules] is the [_modules] dictionary; it
    does not exist until [nn.Module.__init__] has run. *)
Record Module := {
  mod_class : cid;
  mod_config : option Config;
  mod_modules : option (gmap string SubModule)
}.

(** An in-place update of the parameter tensors of a module: values change,
    shapes do not. *)
Record Update := {
  upd_params : string → Params → Params;
  upd_weight : string → (nat → nat → F) → nat → nat → F;
  upd_bias : string → (nat → F) → nat → F
}.

(** The collaborators of the module: the model hub, the file system, the
    tokenizer, the numerics of the transformer, the random number generator
    and the optimiser. *)
Record Env := {
  cuda_available : bool;
  load_config : string → Result Config;
  load_weights : string → Config → Result Params;
  init_params : Config → Params;
  init_weight : nat → nat → nat → nat → F;
  init_bias : nat → nat → nat → F;
  reinit : Update;
  encode : string → nat → list Z;
  pad_token_id : Z;
  pooler_output : Backbone → Features → nat → F;
  cls_hidden_state : Backbone → Features → nat → F;
  load_from_disk : string → Result (gmap string (list Example));
  rand : nat → nat → nat;
  adamw_init : TrainingArguments → nat → Module → Module → OptState;
  adamw_step : OptState → list (Features * Features) → Module → Module →
               Update * Update * OptState
}.

Variable env : Env.

(** *** Modules: attributes *)

Inductive Attr :=
| AMethod (m : Method)
| ASubModule (s : SubModule).

Definition class_name_of (c : cid) : string :=
  default "?" (cls_name <$> dpr_classes !! c).

(** Attribute lookup: the class and its bases first, then
    [nn.Module.__getattr__], which searches [_modules]. *)
Definition getattr (self : Module) (name : string) : Result Attr :=
  match class_getattr dpr_classes (mod_class self) name with
  | Some m => Ok (AMethod m)
  | None =>
      match mod_modules self ≫= (λ ms, ms !! name) with
      | Some s => Ok (ASubModule s)
      | None =>
          Raise (AttributeError
                   ("'" +:+ class_name_of (mod_class self)
                    +:+ "' object has no attribute '" +:+ name +:+ "'"))
      end
  end.

(** [nn.Module.__setattr__] for a value that is a module. *)
Definition setattr_module (self : Module) (name : string) (v : SubModule)
    : Result Module :=
  match mod_modules self with
  | None => Raise (AttributeError "cannot assign module before Module.__init__() call")
  | Some ms =>
      Ok {| mod_class := mod_class self;
            mod_config := mod_config self;
            mod_modules := Some (<[name := v]> ms) |}
  end.

Definition update_submodule (u : Update) (name : string) (s : SubModule) : SubModule :=
  match s with
  | SubBackbone b =>
      SubBackbone {| bb_config := bb_config b;
                     bb_params := upd_params u name (bb_params b) |}
  | SubLinear l =>
      SubLinear {| in_features := in_features l;
                   out_features := out_features l;
                   weight := upd_weight u name (weight l);
                   bias := upd_bias u name (bias l) |}
  end.

Definition apply_update (u : Update) (self : Module) : Module :=
  {| mod_class := mod_class self;
     mod_config := mod_config self;
     mod_modules :=
       (λ ms : gmap string SubModule,
          map_imap (λ name s, Some (update_submodule u name s)) ms)
         <$> mod_modules self |}.

(** [nn.Linear(i, o)] *)
Definition nn_Linear (i o : nat) : Linear :=
  {| in_features := i; out_features := o;
     weight := init_weight env i o; bias := init_bias env i o |}.

(** [BertModel(config)].  Of the configuration only the hidden size is kept;
    the consistency checks that the library makes on the other fields are
    not modelled. *)
Definition BertModel (config : Config) : Backbone :=
  {| bb_config := config; bb_params := init_params env config |}.

(** [AutoModel.from_pretrained(model_name, config=config)] *)
Definition AutoModel_from_pretrained (model_name : string) (config : Config)
    : Result Backbone :=
  let* params := load_weights env model_name config in
  Ok {| bb_config := config; bb_params := params |}.

(** [x.cuda()] *)
Definition cuda {A} (x : A) : Result A :=
  if cuda_available env then Ok x
  else Raise (RuntimeError "CUDA is not available").

(** *** Constructors *)

Record InitArgs := {
  ia_model_name : option string;
  ia_config : option Config
}.

Definition missing_argument : PyExc :=
  TypeError "__init__() missing required positional argument".

(** [self.name()] for a method without arguments. *)
Definition call_method0 (self : Module) (name : string) : Result Module :=
  let* a := getattr self name in
  match a with
  | AMethod PreTrainedModel_init_weights => Ok (apply_update (reinit env) self)
  | AMethod _ => Raise (TypeError "method is not modelled")
  | ASubModule _ => Raise (TypeError "forward() missing required positional argument")
  end.

Definition Module_init (self : Module) : Module :=
  {| mod_class := mod_class self;
     mod_config := mod_config self;
     mod_modules := Some ∅ |}.

Definition call_super_init (self : Module) (current : cid)
    (k : Method → Result Module) : Result Module :=
  match super_getattr (mod_class self) current "__init__" with
  | Some m => k m
  | None => Ok self
  end.

Definition init_level0 (self : Module) (m : Method) : Result Module :=
  match m with
  | Module___init__ => Ok (Module_init self)
  | _ => Raise (TypeError "constructor is not modelled")
  end.

Definition PreTrainedModel_init (self : Module) (config : Config) : Result Module :=
  let* self := call_super_init self PreTrainedModel_cid (init_level0 self) in
  Ok {| mod_class := mod_class self;
        mod_config := Some config;
        mod_modules := mod_modules self |}.

Definition init_level1 (args : InitArgs) (self : Module) (m : Method) : Result Module :=
  match m with
  | PreTrainedModel___init__ =>
      match ia_config args with
      | Some config => PreTrainedModel_init self config
      | None => Raise missing_argument
      end
  | _ => init_level0 self m
  end.

Definition no_args : InitArgs := {| ia_model_name := None; ia_config := None |}.

(** Lines 36-41 *)
Definition BertEncoder_init (self : Module) (config : Config) : Result Module :=
  let* self := call_super_init self BertEncoder_cid
                 (init_level1 {| ia_model_name := None; ia_config := Some config |} self) in
  let* self := setattr_module self "bert" (SubBackbone (BertModel config)) in
  let* self := setattr_module self "bert_proj"
                 (SubLinear (nn_Linear (hidden_size config) 512)) in
  call_method0 self "init_weights".

(** Lines 51-55 *)
Definition AutoEncoder_init (self : Module) (model_name : string) (config : Config)
    : Result Module :=
  let* self := call_super_init self AutoEncoder_cid (init_level1 no_args self) in
  let* backbone := AutoModel_from_pretrained model_name config in
  let* self := setattr_module self "backbone" (SubBackbone backbone) in
  let* self := setattr_module self "backbone_proj"
                 (SubLinear (nn_Linear (hidden_size config) 512)) in
  call_method0 self "init_weights".

(** Lines 65-68 *)
Definition KoelectraEncoder_init (self : Module) (model_name : string) (config : Config)
    : Result Module :=
  let* backbone := AutoModel_from_pretrained model_name config in
  let* self := setattr_module self "backbone" (SubBackbone backbone) in
  let* self := setattr_module self "backbone_proj"
                 (SubLinear (nn_Linear (hidden_size config) 512)) in
  call_method0 self "init_weights".

(** [cls(...)]: allocate the object, then run the [__init__] found on the
    class. *)
Definition construct (c : cid) (args : InitArgs) : Result Module :=
  let self := {| mod_class := c; mod_config := None; mod_modules := None |} in
  match class_getattr dpr_classes c "__init__" with
  | None => Ok self
  | Some BertEncoder___init__ =>
      match ia_config args with
      | Some config => BertEncoder_init self config
      | None => Raise missing_argument
      end
  | Some AutoEncoder___init__ =>
      match ia_model_name args, ia_config args with
      | Some name, Some config => AutoEncoder_init self name config
      | _, _ => Raise missing_argument
      end
  | Some KoelectraEncoder___init__ =>
      match ia_model_name args, ia_config args with
      | Some name, Some config => KoelectraEncoder_init self name config
      | _, _ => Raise missing_argument
      end
  | Some m => init_level1 args self m
  end.

Definition BertEncoder (config : Config) : Result Module :=
  construct BertEncoder_cid {| ia_model_name := None; ia_config := Some config |}.

Definition AutoEncoder (model_name : string) (config : Config) : Result Module :=
  construct AutoEncoder_cid
    {| ia_model_name := Some model_name; ia_config := Some config |}.

Definition KoelectraEncoder (model_name : string) (config : Config) : Result Module :=
  construct KoelectraEncoder_cid
    {| ia_model_name := Some model_name; ia_config := Some config |}.

(** [BertEncoder.from_pretrained(name, config=config)]: build the model,
    then load the checkpoint into the transformer; the projection is not
    part of the checkpoint and keeps its initial values. *)
Definition load_state_dict (params : Params) (s : SubModule) : SubModule :=
  match s with
  | SubBackbone b => SubBackbone {| bb_config := bb_config b; bb_params := params |}
  | SubLinear l => SubLinear l
  end.

Definition BertEncoder_from_pretrained (model_name : string) (config : Config)
    : Result Module :=
  let* model := BertEncoder config in
  let* params := load_weights env model_name config in
  Ok {| mod_class := mod_class model;
        mod_config := mod_config model;
        mod_modules :=
          (λ ms : gmap string SubModule, alter (load_state_dict params) "bert" ms)
            <$> mod_modules model |}.


(** *** Forward passes *)

(** [nn.Linear.forward]: [x Wᵀ + b] row by row. *)
Definition linear_forward (l : Linear) (x : list (list F)) : Result (list (list F)) :=
  if forallb (λ row, length row =? in_features l) x then
    Ok ((λ row,
          (λ j, fadd (dot row (weight l j <$> seq 0 (in_features l))) (bias l j))
            <$> seq 0 (out_features l)) <$> x)
  else Raise (RuntimeError "mat1 and mat2 shapes cannot be multiplied").

Definition getattr_backbone (self : Module) (name : string) : Result Backbone :=
  let* a := getattr self name in
  match a with
  | ASubModule (SubBackbone b) => Ok b
  | _ => Raise (TypeError "object is not callable as a transformer")
  end.

Definition getattr_linear (self : Module) (name : string) : Result Linear :=
  let* a := getattr self name in
  match a with
  | ASubModule (SubLinear l) => Ok l
  | _ => Raise (TypeError "object is not callable as a linear layer")
  end.

(** [outputs[1]]: the pooled output, one row of [hidden_size] entries per
    input sequence. *)
Definition pooled (b : Backbone) (inputs : list Features) : list (list F) :=
  (λ x, pooler_output env b x <$> seq 0 (hidden_size (bb_config b))) <$> inputs.

(** [outputs[0][:, 0]]: the hidden state of the first token. *)
Definition first_token (b : Backbone) (inputs : list Features) : list (list F) :=
  (λ x, cls_hidden_state env b x <$> seq 0 (hidden_size (bb_config b))) <$> inputs.

(** Lines 43-47 *)
Definition BertEncoder_forward_impl (self : Module) (inputs : list Features)
    : Result (list (list F)) :=
  let* bert := getattr_backbone self "bert" in
  let pooled_output := pooled bert inputs in
  let* bert_proj := getattr_linear self "bert_proj" in
  linear_forward bert_proj pooled_output.

(** Lines 57-61 *)
Definition AutoEncoder_forward_impl (self : Module) (inputs : list Features)
    : Result (list (list F)) :=
  let* backbone := getattr_backbone self "backbone" in
  let pooled_output := pooled backbone inputs in
  let* backbone_proj := getattr_linear self "backbone_proj" in
  linear_forward backbone_proj pooled_output.

(** Lines 70-74 *)
Definition KoelectraEncoder_forward_impl (self : Module) (inputs : list Features)
    : Result (list (list F)) :=
  let* backbone := getattr_backbone self "backbone" in
  let pooled_output := first_token backbone inputs in
  let* backbone_proj := getattr_linear self "backbone_proj" in
  linear_forward backbone_proj pooled_output.

(** Calling a model on its keyword inputs: [nn.Module.__call__] runs the
    [forward] of the class. *)
Definition call_module (self : Module) (inputs : list Features)
    : Result (list (list F)) :=
  match class_getattr dpr_classes (mod_class self) "forward" with
  | Some BertEncoder_forward => BertEncoder_forward_impl self inputs
  | Some AutoEncoder_forward => AutoEncoder_forward_impl self inputs
  | Some KoelectraEncoder_forward => KoelectraEncoder_forward_impl self inputs
  | _ => Raise (RuntimeError "forward is not implemented")
  end.

(** *** The retrievers *)

(** [self.backbone], set by the constructors (lines 80, 230, 248, 266). *)
Definition backbone_name (c : DprClass) : string :=
  match c with
  | DprRetrieval => "bert-base-multilingual-cased"
  | DprKobertRetrieval => "monologg/kobert"
  | DprKorquadBertRetrieval => "sangrimlee/bert-base-multilingual-cased-korquad"
  | DprKoelectraRetrieval => "monologg/koelectra-base-v3-finetuned-korquad"
  end.

(** [_load_model], as overridden by each class. *)
Definition _load_model (self : Retriever) : Result (Module * Module) :=
  let name := backbone_name (self_class self) in
  let* config := load_config env name in
  match self_class self with
  | DprRetrieval =>
      let* p_encoder := BertEncoder_from_pretrained name config in
      let* p_encoder := cuda p_encoder in
      let* q_encoder := BertEncoder_from_pretrained name config in
      let* q_encoder := cuda q_encoder in
      Ok (p_encoder, q_encoder)
  | DprKobertRetrieval | DprKorquadBertRetrieval =>
      let* p_encoder := AutoEncoder name config in
      let* p_encoder := cuda p_encoder in
      let* q_encoder := AutoEncoder name config in
      let* q_encoder := cuda q_encoder in
      Ok (p_encoder, q_encoder)
  | DprKoelectraRetrieval =>
      let* p_encoder := KoelectraEncoder name config in
      let* p_encoder := cuda p_encoder in
      let* q_encoder := KoelectraEncoder name config in
      let* q_encoder := cuda q_encoder in
      Ok (p_encoder, q_encoder)
  end.

(** [_get_encoder], as overridden by each class. *)
Definition _get_encoder (self : Retriever) : Result Module :=
  let name := backbone_name (self_class self) in
  let* config := load_config env name in
  match self_class self with
  | DprRetrieval =>
      let* q_encoder := BertEncoder config in cuda q_encoder
  | DprKobertRetrieval | DprKorquadBertRetrieval =>
      let* q_encoder := AutoEncoder name config in cuda q_encoder
  | DprKoelectraRetrieval =>
      let* q_encoder := KoelectraEncoder name config in cuda q_encoder
  end.

(** A [BertEncoder] whose projection has the shape given at construction. *)
Definition is_bert_encoder (m : Module) : Prop :=
  mod_class m = BertEncoder_cid ∧
  ∃ ms b l,
    mod_modules m = Some ms ∧
    ms !! "bert" = Some (SubBackbone b) ∧
    ms !! "bert_proj" = Some (SubLinear l) ∧
    in_features l = hidden_size (bb_config b) ∧
    out_features l = 512.


(** *** Tokenizer

    [self.tokenizer(texts, padding=..., truncation=True, max_length=...)]:
    each text is encoded and truncated to [max_length] tokens by the
    tokenizer, then padded to the width that the padding mode asks for. *)

Definition pad_features (width : nat) (ids : list Z) : Features :=
  {| input_ids := ids ++ replicate (width - length ids) (pad_token_id env);
     attention_mask := replicate (length ids) 1%Z
                       ++ replicate (width - length ids) 0%Z;
     token_type_ids := replicate (length ids `max` width) 0%Z |}.

Definition tokenizer_call (texts : list string) (padding : Padding)
    (max_length : nat) : list Features :=
  let ids := (λ t, encode env t max_length) <$> texts in
  let width := match padding with
               | PadMaxLength => max_length
               | PadLongest => max_list (length <$> ids)
               end in
  pad_features width <$> ids.

(** *** [RandomSampler] and [DataLoader] *)

Fixpoint insert_at {A} (k : nat) (x : A) (l : list A) : list A :=
  match k, l with
  | 0, _ => x :: l
  | S _, [] => [x]
  | S k', y :: l' => y :: insert_at k' x l'
  end.

(** A random permutation of [0 .. n-1], driven by a stream of draws. *)
Fixpoint randperm (draw : nat → nat) (n : nat) : list nat :=
  match n with
  | 0 => []
  | S k => insert_at (draw k `mod` S k) k (randperm draw k)
  end.

(** [BatchSampler.__iter__] with [drop_last=False]: indices are collected
    until [batch_size] of them are there; what is left at the end is
    yielded as a last, shorter batch. *)
Fixpoint batch_sampler_aux {A} (batch_size : nat) (batch : list A) (sampler : list A)
    : list (list A) :=
  match sampler with
  | [] => match batch with [] => [] | _ => [batch] end
  | idx :: rest =>
      let batch := batch ++ [idx] in
      if length batch =? batch_size then batch :: batch_sampler_aux batch_size [] rest
      else batch_sampler_aux batch_size batch rest
  end.

Definition batch_sampler {A} (batch_size : nat) (sampler : list A) : list (list A) :=
  batch_sampler_aux batch_size [] sampler.

(** [len(train_dataloader)] *)
Definition dataloader_len (n batch_size : nat) : nat :=
  (n + batch_size - 1) `div` batch_size.

(** Fetch and collate the rows of one batch of indices. *)
Definition fetch (dataset : list (Features * Features)) (idxs : list nat)
    : Result (list (Features * Features)) :=
  match mapM (λ i, dataset !! i) idxs with
  | Some rows => Ok rows
  | None => Raise (IndexError "index out of range")
  end.

(** *** [DprRetrieval.train] (lines 94-161) *)

Record TrainState := {
  p_model : Module;
  q_model : Module;
  optimizer : OptState;
  global_step : nat;
  train_loss : F
}.

(** The body of the inner loop, lines 125-153. *)
Definition train_step (training_args : TrainingArguments) (st : TrainState)
    (batch : list (Features * Features)) : Result TrainState :=
  let p_inputs := fst <$> batch in
  let q_inputs := snd <$> batch in
  let* p_outputs := call_module (p_model st) p_inputs in
  let* q_outputs := call_module (q_model st) q_inputs in
  let* sim_scores := sim_scores q_outputs p_outputs in
  let targets := arange (per_device_train_batch_size training_args) in
  let sim_scores := log_softmax sim_scores in
  let* loss := nll_loss sim_scores targets in
  let '(up, uq, opt) :=
    adamw_step env (optimizer st) batch (p_model st) (q_model st) in
  Ok {| p_model := apply_update up (p_model st);
        q_model := apply_update uq (q_model st);
        optimizer := opt;
        global_step := S (global_step st);
        train_loss := fadd (train_loss st) loss |}.

(** The inner loop over the batches of one epoch. *)
Fixpoint train_batches (training_args : TrainingArguments)
    (dataset : list (Features * Features)) (st : TrainState)
    (batches : list (list nat)) : Result TrainState :=
  match batches with
  | [] => Ok st
  | idxs :: rest =>
      let* batch := fetch dataset idxs in
      let* st := train_step training_args st batch in
      train_batches training_args dataset st rest
  end.

(** One epoch, lines 120-159; the reported mean loss divides by the
    number of batches.  The sampler's own rejection of an empty dataset is
    not modelled: on an empty dataset the error is the one of this
    division. *)
Definition train_epoch (training_args : TrainingArguments)
    (dataset : list (Features * Features)) (st : TrainState) (epoch : nat)
    : Result TrainState :=
  let st := {| p_model := p_model st; q_model := q_model st;
               optimizer := optimizer st; global_step := global_step st;
               train_loss := fzero |} in
  let sampler := randperm (rand env epoch) (length dataset) in
  let batches := batch_sampler (per_device_train_batch_size training_args) sampler in
  let* st := train_batches training_args dataset st batches in
  if dataloader_len (length dataset) (per_device_train_batch_size training_args) =? 0
  then Raise ZeroDivisionError
  else Ok st.

Fixpoint train_epochs (training_args : TrainingArguments)
    (dataset : list (Features * Features)) (st : TrainState) (epochs : list nat)
    : Result TrainState :=
  match epochs with
  | [] => Ok st
  | epoch :: rest =>
      let* st := train_epoch training_args dataset st epoch in
      train_epochs training_args dataset st rest
  end.

(** The whole of [train], returning the state at exit. *)
Definition train_run (training_args : TrainingArguments)
    (dataset : list (Features * Features)) (p_model q_model : Module)
    : Result TrainState :=
  let batch_size := per_device_train_batch_size training_args in
  if batch_size =? 0 then
    Raise (ValueError "batch_size should be a positive integer value")
  else if gradient_accumulation_steps training_args =? 0 then
    Raise ZeroDivisionError
  else
    let t_total :=
      dataloader_len (length dataset) batch_size
        `div` gradient_accumulation_steps training_args
        * num_train_epochs training_args in
    let st := {| p_model := p_model; q_model := q_model;
                 optimizer := adamw_init env training_args t_total p_model q_model;
                 global_step := 0;
                 train_loss := fzero |} in
    train_epochs training_args dataset st (seq 0 (num_train_epochs training_args)).

(** Line 161: [return p_model, q_model] *)
Definition trained_models (st : TrainState) : Module * Module :=
  (p_model st, q_model st).

Definition train (training_args : TrainingArguments)
    (dataset : list (Features * Features)) (p_model q_model : Module)
    : Result (Module * Module) :=
  let* st := train_run training_args dataset p_model q_model in
  Ok (trained_models st).


(** *** numpy arrays: a shape and the flat data *)

Record NdArray := {
  shape : list nat;
  data : list F
}.

(** [tensor.to("cpu").detach().numpy()] *)
Definition to_numpy (t : list (list F)) : NdArray :=
  {| shape := [nrows t; ncols t]; data := concat t |}.

(** [np.array(arrays)] for a list of arrays: they are stacked along a new
    first axis and must agree in shape. *)
Definition np_array (arrays : list NdArray) : Result NdArray :=
  match arrays with
  | [] => Ok {| shape := [0]; data := [] |}
  | a :: rest =>
      if forallb (λ b, bool_decide (shape b = shape a)) rest then
        Ok {| shape := length arrays :: shape a; data := concat (data <$> arrays) |}
      else Raise (ValueError "setting an array element with a sequence")
  end.

(** [a.squeeze()]: every axis of length one is removed. *)
Definition squeeze (a : NdArray) : NdArray :=
  {| shape := List.filter (λ n, negb (n =? 1)) (shape a); data := data a |}.

(** [len(a)] *)
Definition np_len (a : NdArray) : Result nat :=
  match shape a with
  | [] => Raise (TypeError "len() of unsized object")
  | n :: _ => Ok n
  end.

(** *** [DprRetrieval._exec_embedding] (lines 163-224) *)

(** [os.path.join(a, b)] *)
Definition path_join (a b : string) : string :=
  if String.prefix "/" b then b
  else if bool_decide (a = "") then b
  else if String.prefix "/" (String.string_of_list_ascii
                               (rev (String.list_ascii_of_string a)))
  then a +:+ b
  else a +:+ "/" +:+ b.

(** [datasets[split]] *)
Definition getitem_split (datasets : gmap string (list Example)) (split : string)
    : Result (list Example) :=
  match datasets !! split with
  | Some rows => Ok rows
  | None => Raise (KeyError split)
  end.

(** [rows[i]] *)
Definition getitem_row (rows : list Example) (i : nat) : Result Example :=
  match rows !! i with
  | Some row => Ok row
  | None => Raise (IndexError "index out of range")
  end.

(** Lines 204-212; the remaining fields take the defaults of
    [TrainingArguments]. *)
Definition exec_training_args : TrainingArguments :=
  {| learning_rate := 1 # 10000;
     adam_epsilon := 1 # 100000000;
     weight_decay := 1 # 100;
     warmup_steps := 0;
     per_device_train_batch_size := 16;
     per_device_eval_batch_size := 4;
     num_train_epochs := 10;
     gradient_accumulation_steps := 1 |}.

(** The loop of lines 218-221. *)
Fixpoint embed_passages (p_encoder : Module) (passages : list string)
    : Result (list NdArray) :=
  match passages with
  | [] => Ok []
  | passage :: rest =>
      let* inputs := cuda (tokenizer_call [passage] PadMaxLength 512) in
      let* p_emb := call_module p_encoder inputs in
      let* p_embedding := embed_passages p_encoder rest in
      Ok (to_numpy p_emb :: p_embedding)
  end.

(** What [_exec_embedding] has computed when it returns: the two values it
    returns, and the state in which the call of [train] ended. *)
Record ExecResult := {
  p_embedding : NdArray;
  q_encoder : Module;
  loaded : Module * Module;
  train_dataset : list (Features * Features);
  trained : TrainState
}.

Definition _exec_embedding_run (self : Retriever) : Result ExecResult :=
  let* encoders := _load_model self in
  let* datasets := load_from_disk env
                     (path_join (train_data_dir self) (dense_train_dataset self)) in
  let* train_split := getitem_split datasets "train" in
  let* row1 := getitem_row train_split 1 in
  let tokenizer_input := tokenizer_call [ex_context row1] PadMaxLength 512 in
  let* validation_split := getitem_split datasets "validation" in
  let train_dataset := train_split ++ validation_split in
  let* kor_datasets := load_from_disk env (path_join (train_data_dir self) "kor_dataset") in
  let* kor_train := getitem_split kor_datasets "train" in
  let train_dataset := train_dataset ++ kor_train in
  let q_seqs := tokenizer_call (ex_question <$> train_dataset) PadLongest 512 in
  let p_seqs := tokenizer_call (ex_context <$> train_dataset) PadMaxLength 512 in
  let train_dataset := zip p_seqs q_seqs in
  let* st := train_run exec_training_args train_dataset encoders.1 encoders.2 in
  let* p_embedding := embed_passages (p_model st) (contexts self) in
  let* p_embedding := np_array p_embedding in
  Ok {| p_embedding := squeeze p_embedding;
        q_encoder := q_model st;
        loaded := encoders;
        train_dataset := train_dataset;
        trained := st |}.

Definition _exec_embedding (self : Retriever) : Result (NdArray * Module) :=
  let* r := _exec_embedding_run self in
  Ok (p_embedding r, q_encoder r).


(** *** What the classes define *)

Lemma getattr_class_BertEncoder :
  class_getattr dpr_classes BertEncoder_cid "__init__" = Some BertEncoder___init__ ∧
  class_getattr dpr_classes BertEncoder_cid "forward" = Some BertEncoder_forward ∧
  class_getattr dpr_classes BertEncoder_cid "init_weights"
    = Some PreTrainedModel_init_weights ∧
  class_getattr dpr_classes BertEncoder_cid "bert" = None ∧
  class_getattr dpr_classes BertEncoder_cid "bert_proj" = None ∧
  super_getattr BertEncoder_cid BertEncoder_cid "__init__"
    = Some PreTrainedModel___init__ ∧
  super_getattr BertEncoder_cid PreTrainedModel_cid "__init__"
    = Some Module___init__.
Proof. vm_compute. done. Qed.

Lemma getattr_class_AutoEncoder :
  class_getattr dpr_classes AutoEncoder_cid "__init__" = Some AutoEncoder___init__ ∧
  class_getattr dpr_classes AutoEncoder_cid "init_weights" = None ∧
  super_getattr AutoEncoder_cid AutoEncoder_cid "__init__" = Some Module___init__ ∧
  class_name_of AutoEncoder_cid = "AutoEncoder".
Proof. vm_compute. done. Qed.

Lemma getattr_class_KoelectraEncoder :
  class_getattr dpr_classes KoelectraEncoder_cid "__init__"
    = Some KoelectraEncoder___init__ ∧
  class_getattr dpr_classes KoelectraEncoder_cid "init_weights" = None.
Proof. vm_compute. done. Qed.

(** [nn.Module] has no [init_weights]; [PreTrainedModel] has one. *)
Example init_weights_owner :
  ("init_weights" ∉ (fst <$> nn_Module_dict)) ∧
  ("init_weights" ∈ (fst <$> PreTrainedModel_dict)).
Proof. split; vm_compute; [not_in_list | in_list]. Qed.

Local Arguments class_getattr : simpl never.
Local Arguments super_getattr : simpl never.
Local Arguments class_name_of : simpl never.

(** *** The constructors *)

Definition no_init_weights : PyExc :=
  AttributeError "'AutoEncoder' object has no attribute 'init_weights'".

Definition module_before_init : PyExc :=
  AttributeError "cannot assign module before Module.__init__() call".

Lemma AutoEncoder_outcome (model_name : string) (config : Config) :
  AutoEncoder model_name config =
  match load_weights env model_name config with
  | Ok _ => Raise no_init_weights
  | Raise e => Raise e
  end.
Proof.
  destruct getattr_class_AutoEncoder as (Hinit & Hiw & Hsuper & Hname).
  unfold AutoEncoder, construct. rewrite Hinit. cbn [ia_model_name ia_config].
  unfold AutoEncoder_init, call_super_init. cbn [mod_class]. rewrite Hsuper.
  cbn [init_level1 init_level0 rbind].
  unfold AutoModel_from_pretrained.
  destruct (load_weights env model_name config) as [params|e]; [|reflexivity].
  cbn [rbind]. unfold setattr_module, Module_init. cbn [mod_modules rbind mod_class mod_config].
  unfold call_method0, getattr. cbn [mod_class mod_modules]. rewrite Hiw.
  cbn [mbind option_bind].
  rewrite !lookup_insert_ne by done. rewrite lookup_empty.
  rewrite Hname. reflexivity.
Qed.

Lemma KoelectraEncoder_outcome (model_name : string) (config : Config) :
  KoelectraEncoder model_name config =
  match load_weights env model_name config with
  | Ok _ => Raise module_before_init
  | Raise e => Raise e
  end.
Proof.
  destruct getattr_class_KoelectraEncoder as (Hinit & _).
  unfold KoelectraEncoder, construct. rewrite Hinit. cbn [ia_model_name ia_config].
  unfold KoelectraEncoder_init, AutoModel_from_pretrained.
  destruct (load_weights env model_name config) as [params|e]; reflexivity.
Qed.

Lemma AutoEncoder_raises (model_name : string) (config : Config) :
  raises (AutoEncoder model_name config).
Proof.
  rewrite AutoEncoder_outcome. unfold raises.
  destruct (load_weights env model_name config); eauto.
Qed.

Lemma KoelectraEncoder_raises (model_name : string) (config : Config) :
  raises (KoelectraEncoder model_name config).
Proof.
  rewrite KoelectraEncoder_outcome. unfold raises.
  destruct (load_weights env model_name config); eauto.
Qed.

Lemma rbind_raises {A B} (m : Result A) (k : A → Result B) :
  raises m → raises (rbind m k).
Proof. intros [e ->]. by exists e. Qed.

Lemma rbind_raises_k {A B} (m : Result A) (k : A → Result B) :
  (∀ a, raises (k a)) → raises (rbind m k).
Proof. intros Hk. destruct m as [a|e]; simpl; [apply Hk | by exists e]. Qed.

(** The outcome of the two constructors and what follows for the three
    subclasses. *)
Definition subclass_never_loads (self : Retriever) : Prop :=
  match self_class self with
  | DprRetrieval => True
  | _ => raises (_load_model self) ∧ raises (_get_encoder self)
  end.

Lemma subclasses_never_load (self : Retriever) : subclass_never_loads self.
Proof.
  unfold subclass_never_loads, _load_model, _get_encoder.
  destruct (self_class self); [exact I|..]; cbv zeta;
    (split; apply rbind_raises_k; intros config';
     apply rbind_raises;
     [apply AutoEncoder_raises || apply KoelectraEncoder_raises ..]).
Qed.

(** C8 (amended): constructing an [AutoEncoder] or a [KoelectraEncoder]
    never returns.  When the checkpoint loads, [AutoEncoder] raises the
    [AttributeError] of the missing [init_weights] and [KoelectraEncoder]
    the one of an assignment before [Module.__init__]; when the checkpoint
    does not load, that error is the one raised.  Hence [_load_model] and
    [_get_encoder] of the three subclasses never return. *)
Theorem encoder_constructors_never_return (model_name : string) (config : Config)
    (self : Retriever) :
  AutoEncoder model_name config =
    match load_weights env model_name config with
    | Ok _ => Raise no_init_weights
    | Raise e => Raise e
    end ∧
  KoelectraEncoder model_name config =
    match load_weights env model_name config with
    | Ok _ => Raise module_before_init
    | Raise e => Raise e
    end ∧
  subclass_never_loads self.
Proof.
  split; [apply AutoEncoder_outcome|]. split; [apply KoelectraEncoder_outcome|].
  apply subclasses_never_load.
Qed.

(** *** [BertEncoder] objects *)

Lemma update_submodule_lookup (u : Update) (ms : gmap string SubModule)
    (name : string) :
  map_imap (λ n s, Some (update_submodule u n s)) ms !! name
  = update_submodule u name <$> ms !! name.
Proof. rewrite map_lookup_imap. by destruct (ms !! name). Qed.

Lemma apply_update_bert (u : Update) (m : Module) :
  is_bert_encoder m → is_bert_encoder (apply_update u m).
Proof.
  intros (Hc & ms & b & l & Hms & Hb & Hl & Hin & Hout).
  split; [exact Hc|].
  eexists _, _, _. unfold apply_update. cbn [mod_modules]. rewrite Hms.
  split; [reflexivity|].
  rewrite !update_submodule_lookup, Hb, Hl. cbn.
  repeat split; done.
Qed.

Lemma BertEncoder_returns (config : Config) :
  ∃ m, BertEncoder config = Ok m ∧ is_bert_encoder m ∧ mod_config m = Some config.
Proof.
  destruct getattr_class_BertEncoder as (Hinit & _ & Hiw & _ & _ & Hs1 & Hs2).
  unfold BertEncoder, construct. rewrite Hinit. cbn [ia_config].
  unfold BertEncoder_init, call_super_init. cbn [mod_class]. rewrite Hs1.
  cbn [init_level1 ia_config]. unfold PreTrainedModel_init, call_super_init.
  cbn [mod_class]. rewrite Hs2. cbn [init_level0 rbind].
  unfold setattr_module, Module_init. cbn [mod_modules rbind mod_class mod_config].
  unfold call_method0, getattr. cbn [mod_class]. rewrite Hiw. cbn [rbind].
  eexists. split; [reflexivity|]. split; [|reflexivity].
  apply apply_update_bert. split; [reflexivity|].
  eexists _, _, _. cbn [mod_modules]. split; [reflexivity|].
  rewrite lookup_insert_ne by done. rewrite !lookup_insert_eq.
  repeat split; reflexivity.
Qed.

Lemma BertEncoder_from_pretrained_bert (model_name : string) (config : Config)
    (m : Module) :
  BertEncoder_from_pretrained model_name config = Ok m → is_bert_encoder m.
Proof.
  unfold BertEncoder_from_pretrained. intros Hm.
  destruct (BertEncoder_returns config)
    as (m0 & Hm0 & (Hc & ms & b & l & Hms & Hb & Hl & Hin & Hout) & _).
  rewrite Hm0 in Hm. cbn [rbind] in Hm.
  destruct (load_weights env model_name config) as [params|]; [|discriminate].
  injection Hm as <-. split; [exact Hc|].
  eexists _, _, _. cbn [mod_modules]. rewrite Hms. split; [reflexivity|].
  rewrite lookup_alter_eq, Hb, lookup_alter_ne, Hl by done. cbn.
  repeat split; done.
Qed.

(** Only [DprRetrieval] loads its encoders, and they are [BertEncoder]s. *)
Lemma _load_model_bert (self : Retriever) (p q : Module) :
  _load_model self = Ok (p, q) →
  self_class self = DprRetrieval ∧ is_bert_encoder p ∧ is_bert_encoder q.
Proof.
  intros Hload.
  pose proof (subclasses_never_load self) as Hsub.
  unfold subclass_never_loads in Hsub.
  destruct (self_class self) eqn:Hcls;
    [| destruct Hsub as [[e He] _]; rewrite He in Hload; discriminate ..].
  split; [reflexivity|].
  unfold _load_model in Hload. rewrite Hcls in Hload. cbv zeta in Hload.
  apply rbind_Ok_inv in Hload as (config & _ & Hload).
  apply rbind_Ok_inv in Hload as (p0 & Hp0 & Hload).
  apply rbind_Ok_inv in Hload as (p1 & Hp1 & Hload).
  apply rbind_Ok_inv in Hload as (q0 & Hq0 & Hload).
  apply rbind_Ok_inv in Hload as (q1 & Hq1 & Hload).
  injection Hload as <- <-.
  unfold cuda in Hp1, Hq1. destruct (cuda_available env); [|discriminate].
  injection Hp1 as <-. injection Hq1 as <-.
  split; eapply BertEncoder_from_pretrained_bert; eassumption.
Qed.

(** *** The forward pass of a [BertEncoder] *)

Definition bert_rows (b : Backbone) (l : Linear) (inputs : list Features)
    : list (list F) :=
  (λ row,
     (λ j, fadd (dot row (weight l j <$> seq 0 (in_features l))) (bias l j))
       <$> seq 0 (out_features l)) <$> pooled b inputs.

Lemma call_module_bert (m : Module) (inputs : list Features) :
  is_bert_encoder m →
  ∃ out, call_module m inputs = Ok out ∧ has_shape (length inputs) 512 out.
Proof.
  intros (Hc & ms & b & l & Hms & Hb & Hl & Hin & Hout).
  destruct getattr_class_BertEncoder as (_ & Hfwd & _ & Hnb & Hnp & _ & _).
  exists (bert_rows b l inputs). split.
  - unfold call_module. rewrite Hc, Hfwd.
    unfold BertEncoder_forward_impl, getattr_backbone, getattr_linear, getattr.
    rewrite Hc, Hnb, Hnp, Hms. cbn [mbind option_bind]. rewrite Hb, Hl.
    cbn [rbind]. unfold linear_forward.
    assert (Hchk : forallb (λ row, length row =? in_features l) (pooled b inputs)
                   = true).
    { apply forallb_forall. intros row Hrow. apply list_elem_of_In in Hrow.
      unfold pooled in Hrow. apply list_elem_of_fmap in Hrow as (x & -> & _).
      rewrite length_fmap, length_seq, Hin. apply Nat.eqb_refl. }
    rewrite Hchk. reflexivity.
  - unfold bert_rows, pooled. split.
    + by rewrite !length_fmap.
    + apply Forall_fmap, Forall_forall. intros row _. cbn.
      by rewrite length_fmap, length_seq.
Qed.


(** *** The sampler and the batches *)

Lemma insert_at_length {A} (k : nat) (x : A) (l : list A) :
  length (insert_at k x l) = S (length l).
Proof.
  revert k. induction l as [|y l IH]; intros [|k]; simpl; auto.
Qed.

Lemma insert_at_Permutation {A} (k : nat) (x : A) (l : list A) :
  insert_at k x l ≡ₚ x :: l.
Proof.
  revert k. induction l as [|y l IH]; intros [|k]; simpl; try reflexivity.
  rewrite IH. apply Permutation_swap.
Qed.

Lemma randperm_Permutation (draw : nat → nat) (n : nat) :
  randperm draw n ≡ₚ seq 0 n.
Proof.
  induction n as [|n IH]; [reflexivity|].
  simpl randperm. rewrite insert_at_Permutation, IH.
  rewrite seq_S. simpl. apply Permutation_cons_append.
Qed.

Lemma randperm_length (draw : nat → nat) (n : nat) :
  length (randperm draw n) = n.
Proof. by rewrite randperm_Permutation, length_seq. Qed.

Lemma randperm_lt (draw : nat → nat) (n : nat) :
  Forall (λ i, i < n) (randperm draw n).
Proof.
  rewrite randperm_Permutation. apply Forall_forall. intros i Hi.
  apply elem_of_seq in Hi. lia.
Qed.

(** The batches, by their sizes: [n / batch_size] full batches, then one
    batch with the remaining [n mod batch_size] indices when there are any. *)
Definition batch_sizes (n batch_size : nat) : list nat :=
  replicate (n `div` batch_size) batch_size
  ++ (if n `mod` batch_size =? 0 then [] else [n `mod` batch_size]).

Lemma batch_sampler_aux_sizes {A} (batch_size : nat) (sampler batch : list A) :
  0 < batch_size → length batch < batch_size →
  length <$> batch_sampler_aux batch_size batch sampler
  = batch_sizes (length batch + length sampler) batch_size.
Proof.
  intros Hpos. revert batch.
  induction sampler as [|idx rest IH]; intros batch Hlt; unfold batch_sizes.
  - simpl. rewrite Nat.add_0_r, Nat.div_small, Nat.mod_small by done.
    destruct batch as [|x batch]; [reflexivity|]. reflexivity.
  - cbn [batch_sampler_aux]. rewrite length_app. cbn [length].
    destruct (Nat.eqb_spec (length batch + 1) batch_size) as [Heq|Hne].
    + cbn [fmap list_fmap]. rewrite (IH []) by (simpl; lia).
      rewrite length_app. cbn [length]. unfold batch_sizes. cbn [length].
      replace (length batch + S (length rest))
        with (1 * batch_size + length rest) by lia.
      rewrite Nat.div_add_l by lia.
      replace (1 * batch_size + length rest)
        with (length rest + 1 * batch_size) by lia.
      rewrite Nat.Div0.mod_add, Heq. reflexivity.
    + rewrite IH by (rewrite length_app; simpl; lia).
      rewrite length_app. cbn [length]. unfold batch_sizes.
      replace (length batch + 1 + length rest)
        with (length batch + S (length rest)) by lia.
      reflexivity.
Qed.

Lemma batch_sampler_aux_concat {A} (batch_size : nat) (sampler batch : list A) :
  concat (batch_sampler_aux batch_size batch sampler) = batch ++ sampler.
Proof.
  revert batch. induction sampler as [|idx rest IH]; intros batch.
  - simpl. destruct batch; simpl; by rewrite ?app_nil_r.
  - cbn [batch_sampler_aux]. destruct (_ =? _).
    + cbn [concat]. rewrite IH. by rewrite <- app_assoc.
    + rewrite IH. by rewrite <- app_assoc.
Qed.

Lemma batch_sampler_sizes {A} (batch_size : nat) (sampler : list A) :
  0 < batch_size →
  length <$> batch_sampler batch_size sampler
  = batch_sizes (length sampler) batch_size.
Proof.
  intros Hpos. unfold batch_sampler.
  by rewrite batch_sampler_aux_sizes.
Qed.

Lemma batch_sampler_Forall {A} (P : A → Prop) (batch_size : nat) (sampler : list A) :
  Forall P sampler → Forall (Forall P) (batch_sampler batch_size sampler).
Proof.
  intros HP. apply Forall_concat.
  unfold batch_sampler. by rewrite batch_sampler_aux_concat.
Qed.

(** When the batch size divides the number of indices, every batch is full. *)
Lemma batch_sampler_full {A} (batch_size : nat) (sampler : list A) :
  0 < batch_size → length sampler `mod` batch_size = 0 →
  Forall (λ b, length b = batch_size) (batch_sampler batch_size sampler) ∧
  length (batch_sampler batch_size sampler) = length sampler `div` batch_size.
Proof.
  intros Hpos Hmod.
  pose proof (batch_sampler_sizes batch_size sampler Hpos) as Hs.
  unfold batch_sizes in Hs. rewrite Hmod in Hs. simpl in Hs.
  rewrite app_nil_r in Hs. split.
  - assert (Hall : Forall (λ n, n = batch_size)
                     (length <$> batch_sampler batch_size sampler)).
    { rewrite Hs. by apply Forall_replicate. }
    rewrite Forall_fmap in Hall. exact Hall.
  - rewrite <- (length_fmap length), Hs. apply length_replicate.
Qed.

(** Otherwise the last batch is shorter. *)
Lemma batch_sampler_partial {A} (batch_size : nat) (sampler : list A) :
  0 < batch_size → length sampler `mod` batch_size ≠ 0 →
  ∃ full last,
    batch_sampler batch_size sampler = full ++ [last] ∧
    Forall (λ b, length b = batch_size) full ∧
    length last = length sampler `mod` batch_size ∧
    length last ≠ batch_size.
Proof.
  intros Hpos Hmod.
  pose proof (batch_sampler_sizes batch_size sampler Hpos) as Hs.
  unfold batch_sizes in Hs.
  destruct (Nat.eqb_spec (length sampler `mod` batch_size) 0) as [|_]; [done|].
  apply fmap_app_inv in Hs as (full & tl & Hfull & Htl & ->).
  destruct tl as [|last [|??]]; try discriminate.
  injection Htl as Hlast.
  exists full, last. split; [reflexivity|]. split.
  - assert (Hall : Forall (λ n, n = batch_size) (length <$> full)).
    { rewrite <- Hfull. by apply Forall_replicate. }
    rewrite Forall_fmap in Hall. exact Hall.
  - split; [done|]. rewrite <- Hlast.
    pose proof (Nat.mod_upper_bound (length sampler) batch_size). lia.
Qed.

Lemma fetch_returns (dataset : list (Features * Features)) (idxs : list nat) :
  Forall (λ i, i < length dataset) idxs →
  ∃ rows, fetch dataset idxs = Ok rows ∧ length rows = length idxs.
Proof.
  intros Hlt. unfold fetch.
  destruct (mapM (λ i, dataset !! i) idxs) as [rows|] eqn:Hrows.
  - exists rows. split; [reflexivity|]. symmetry. by eapply length_mapM.
  - apply mapM_None in Hrows. apply Exists_exists in Hrows as (i & Hi & Hnone).
    rewrite Forall_forall in Hlt. specialize (Hlt _ Hi).
    apply lookup_ge_None in Hnone. lia.
Qed.

Lemma dataloader_len_0 (n batch_size : nat) :
  0 < batch_size → (dataloader_len n batch_size = 0 ↔ n = 0).
Proof.
  intros Hpos. unfold dataloader_len. split.
  - intros H0. apply Nat.div_small_iff in H0; lia.
  - intros ->. apply Nat.div_small. lia.
Qed.


(** *** A training step *)

Definition batch_size_mismatch : PyExc :=
  ValueError "Expected input batch_size to match target batch_size".

Definition bert_state (st : TrainState) : Prop :=
  is_bert_encoder (p_model st) ∧ is_bert_encoder (q_model st).

Lemma log_softmax_shape (n d : nat) (m : list (list F)) :
  has_shape n d m → has_shape n d (log_softmax m).
Proof.
  intros [Hn Hd]. unfold log_softmax. split.
  - by rewrite length_fmap.
  - apply Forall_fmap. eapply Forall_impl; [exact Hd|].
    intros row Hrow. cbn. by rewrite length_fmap.
Qed.

(** With targets [0 .. batch_size-1] the loss of an [n × n] score matrix is
    defined exactly when [n = batch_size]. *)
Lemma nll_loss_arange (n batch_size : nat) (input : list (list F)) :
  has_shape n n input →
  if decide (n = batch_size) then returns (nll_loss input (arange batch_size))
  else nll_loss input (arange batch_size) = Raise batch_size_mismatch.
Proof.
  intros [Hn Hd]. unfold nll_loss, nrows, arange. rewrite Hn, length_seq.
  destruct (decide (n = batch_size)) as [->|Hne].
  - rewrite Nat.eqb_refl. cbn [negb].
    destruct (mapM _ _) as [picked|] eqn:Hp; [by eexists|].
    apply mapM_None in Hp. apply Exists_exists in Hp as ([row t] & Hin & Hnone).
    apply list_elem_of_lookup in Hin as [i Hi].
    apply lookup_zip_with_Some in Hi as (row' & t' & [= <- <-] & Hrow & Ht).
    cbn in Hnone. apply lookup_ge_None in Hnone.
    rewrite Forall_forall in Hd. apply list_elem_of_lookup_2 in Hrow.
    rewrite (Hd _ Hrow) in Hnone.
    apply list_elem_of_lookup_2, elem_of_seq in Ht. lia.
  - apply Nat.eqb_neq in Hne. rewrite Hne. reflexivity.
Qed.

Lemma sim_scores_shape (n : nat) (q p : list (list F)) :
  has_shape n 512 q → has_shape n 512 p →
  ∃ sim, sim_scores q p = Ok sim ∧ has_shape n n sim.
Proof.
  intros Hq Hp. eexists. split.
  - eapply sim_scores_rows; [exact Hq | exact Hp | lia | done].
  - destruct Hq as [Hn _], Hp as [Hn' _]. split.
    + by rewrite length_fmap.
    + apply Forall_fmap, Forall_forall. intros qi _. cbn.
      by rewrite length_fmap.
Qed.

Lemma train_step_outcome (training_args : TrainingArguments) (st : TrainState)
    (batch : list (Features * Features)) :
  bert_state st →
  if decide (length batch = per_device_train_batch_size training_args) then
    ∃ st', train_step training_args st batch = Ok st' ∧
           bert_state st' ∧ global_step st' = S (global_step st)
  else train_step training_args st batch = Raise batch_size_mismatch.
Proof.
  intros [Hp Hq]. unfold train_step.
  destruct (call_module_bert _ (fst <$> batch) Hp) as (po & -> & Hpo).
  destruct (call_module_bert _ (snd <$> batch) Hq) as (qo & -> & Hqo).
  rewrite length_fmap in Hpo, Hqo. cbn [rbind].
  destruct (sim_scores_shape _ _ _ Hqo Hpo) as (sim & -> & Hsim).
  cbn [rbind].
  pose proof (nll_loss_arange _ (per_device_train_batch_size training_args) _
                (log_softmax_shape _ _ _ Hsim)) as Hloss.
  destruct (decide (length batch = _)) as [Heq|Hne].
  - destruct Hloss as [loss ->]. cbn [rbind].
    destruct (adamw_step env _ _ _ _) as [[up uq] opt].
    eexists. split; [reflexivity|]. split; [|reflexivity].
    split; by apply apply_update_bert.
  - rewrite Hloss. reflexivity.
Qed.

(** *** The loops *)

Lemma train_batches_full (training_args : TrainingArguments)
    (dataset : list (Features * Features)) (batches : list (list nat)) :
  ∀ st,
  bert_state st →
  Forall (λ b, length b = per_device_train_batch_size training_args) batches →
  Forall (Forall (λ i, i < length dataset)) batches →
  ∃ st', train_batches training_args dataset st batches = Ok st' ∧
         bert_state st' ∧
         global_step st' = global_step st + length batches.
Proof.
  induction batches as [|idxs rest IH]; intros st Hst Hfull Hlt.
  - exists st. simpl. split; [done|]. split; [done|]. lia.
  - apply Forall_cons in Hfull as [Hlen Hfull].
    apply Forall_cons in Hlt as [Hidx Hlt].
    cbn [train_batches].
    destruct (fetch_returns dataset idxs Hidx) as (rows & -> & Hrows).
    cbn [rbind].
    pose proof (train_step_outcome training_args st rows Hst) as Hstep.
    rewrite decide_True in Hstep by congruence.
    destruct Hstep as (st1 & -> & Hst1 & Hgs1). cbn [rbind].
    destruct (IH st1 Hst1 Hfull Hlt) as (st' & -> & Hst' & Hgs').
    exists st'. split; [done|]. split; [done|]. simpl. lia.
Qed.

Lemma train_batches_partial (training_args : TrainingArguments)
    (dataset : list (Features * Features)) (full : list (list nat))
    (last : list nat) :
  ∀ st,
  bert_state st →
  Forall (λ b, length b = per_device_train_batch_size training_args) full →
  length last ≠ per_device_train_batch_size training_args →
  Forall (Forall (λ i, i < length dataset)) (full ++ [last]) →
  train_batches training_args dataset st (full ++ [last])
  = Raise batch_size_mismatch.
Proof.
  induction full as [|idxs rest IH]; intros st Hst Hfull Hlast Hlt.
  - cbn [app] in Hlt. apply Forall_cons in Hlt as [Hlt _].
    cbn [app train_batches].
    destruct (fetch_returns dataset last Hlt) as (rows & -> & Hrows).
    cbn [rbind].
    pose proof (train_step_outcome training_args st rows Hst) as Hstep.
    rewrite decide_False in Hstep by congruence.
    rewrite Hstep. reflexivity.
  - apply Forall_cons in Hfull as [Hlen Hfull].
    rewrite <- app_comm_cons in Hlt. apply Forall_cons in Hlt as [Hidx Hlt].
    rewrite <- app_comm_cons. cbn [train_batches].
    destruct (fetch_returns dataset idxs Hidx) as (rows & -> & Hrows).
    cbn [rbind].
    pose proof (train_step_outcome training_args st rows Hst) as Hstep.
    rewrite decide_True in Hstep by congruence.
    destruct Hstep as (st1 & -> & Hst1 & Hgs1). cbn [rbind].
    by apply IH.
Qed.

Inductive Outcome :=
| Completes
| PartialBatch
| EmptyDataset.

(** What an epoch over [n] examples does. *)
Definition epoch_outcome (n batch_size : nat) : Outcome :=
  if n `mod` batch_size =? 0 then
    if n =? 0 then EmptyDataset else Completes
  else PartialBatch.

Lemma train_epoch_outcome (training_args : TrainingArguments)
    (dataset : list (Features * Features)) (st : TrainState) (epoch : nat) :
  let batch_size := per_device_train_batch_size training_args in
  0 < batch_size → bert_state st →
  match epoch_outcome (length dataset) batch_size with
  | Completes =>
      ∃ st', train_epoch training_args dataset st epoch = Ok st' ∧
             bert_state st' ∧
             global_step st' = global_step st + length dataset `div` batch_size
  | PartialBatch =>
      train_epoch training_args dataset st epoch = Raise batch_size_mismatch
  | EmptyDataset =>
      train_epoch training_args dataset st epoch = Raise ZeroDivisionError
  end.
Proof.
  intros batch_size Hpos Hst. unfold train_epoch, epoch_outcome. fold batch_size.
  set (st0 := {| p_model := p_model st; q_model := q_model st;
                 optimizer := optimizer st; global_step := global_step st;
                 train_loss := fzero |}).
  assert (Hst0 : bert_state st0) by exact Hst.
  set (sampler := randperm (rand env epoch) (length dataset)).
  assert (Hlen : length sampler = length dataset) by apply randperm_length.
  assert (Hlt : Forall (Forall (λ i, i < length dataset))
                  (batch_sampler batch_size sampler)).
  { apply batch_sampler_Forall, randperm_lt. }
  destruct (Nat.eqb_spec (length dataset `mod` batch_size) 0) as [Hmod|Hmod].
  - rewrite <- Hlen in Hmod.
    destruct (batch_sampler_full batch_size sampler Hpos Hmod) as [Hfull Hnum].
    destruct (train_batches_full training_args dataset _ st0 Hst0 Hfull Hlt)
      as (st' & -> & Hst' & Hgs').
    cbn [rbind].
    destruct (Nat.eqb_spec (length dataset) 0) as [Hz|Hnz].
    + apply (dataloader_len_0 _ batch_size Hpos) in Hz. rewrite Hz. reflexivity.
    + assert (Hdl : dataloader_len (length dataset) batch_size ≠ 0).
      { by rewrite dataloader_len_0. }
      apply Nat.eqb_neq in Hdl. rewrite Hdl.
      exists st'. split; [done|]. split; [done|].
      rewrite Hgs', Hnum, Hlen. reflexivity.
  - rewrite <- Hlen in Hmod.
    destruct (batch_sampler_partial batch_size sampler Hpos Hmod)
      as (full & last & Heq & Hfull & _ & Hlast).
    rewrite Heq in Hlt |- *.
    rewrite (train_batches_partial training_args dataset full last st0
               Hst0 Hfull Hlast Hlt).
    reflexivity.
Qed.

Lemma train_epochs_outcome (training_args : TrainingArguments)
    (dataset : list (Features * Features)) (epochs : list nat) :
  let batch_size := per_device_train_batch_size training_args in
  0 < batch_size → epochs ≠ [] →
  ∀ st, bert_state st →
  match epoch_outcome (length dataset) batch_size with
  | Completes =>
      ∃ st', train_epochs training_args dataset st epochs = Ok st' ∧
             bert_state st' ∧
             global_step st'
             = global_step st + length epochs * (length dataset `div` batch_size)
  | PartialBatch =>
      train_epochs training_args dataset st epochs = Raise batch_size_mismatch
  | EmptyDataset =>
      train_epochs training_args dataset st epochs = Raise ZeroDivisionError
  end.
Proof.
  intros batch_size Hpos.
  induction epochs as [|epoch rest IH]; intros Hne st Hst; [done|].
  cbn [train_epochs].
  pose proof (train_epoch_outcome training_args dataset st epoch Hpos Hst) as He.
  fold batch_size in He.
  destruct (epoch_outcome (length dataset) batch_size).
  - destruct He as (st1 & -> & Hst1 & Hgs1). cbn [rbind].
    destruct rest as [|epoch' rest].
    + exists st1. split; [done|]. split; [done|]. simpl. lia.
    + destruct (IH ltac:(done) st1 Hst1) as (st' & -> & Hst' & Hgs').
      exists st'. split; [done|]. split; [done|].
      rewrite Hgs', Hgs1. cbn [length]. lia.
  - rewrite He. reflexivity.
  - rewrite He. reflexivity.
Qed.

(** The outcome of [train] on [BertEncoder]s, with a positive batch size,
    gradient accumulation and number of epochs. *)
Lemma train_run_outcome (training_args : TrainingArguments)
    (dataset : list (Features * Features)) (p q : Module) :
  let batch_size := per_device_train_batch_size training_args in
  0 < batch_size → 0 < gradient_accumulation_steps training_args →
  0 < num_train_epochs training_args →
  is_bert_encoder p → is_bert_encoder q →
  match epoch_outcome (length dataset) batch_size with
  | Completes =>
      ∃ st, train_run training_args dataset p q = Ok st ∧
            bert_state st ∧
            global_step st
            = num_train_epochs training_args * (length dataset `div` batch_size)
  | PartialBatch => train_run training_args dataset p q = Raise batch_size_mismatch
  | EmptyDataset => train_run training_args dataset p q = Raise ZeroDivisionError
  end.
Proof.
  intros batch_size Hpos Hgas Hep Hp Hq. unfold train_run. fold batch_size.
  destruct (Nat.eqb_spec batch_size 0) as [|_]; [lia|].
  destruct (Nat.eqb_spec (gradient_accumulation_steps training_args) 0) as [|_];
    [lia|].
  cbv zeta.
  assert (Hne : seq 0 (num_train_epochs training_args) ≠ []).
  { destruct (num_train_epochs training_args); [lia | discriminate]. }
  match goal with
  | |- context [train_epochs _ _ ?st0 _] =>
      pose proof (train_epochs_outcome training_args dataset _ Hpos Hne st0
                    (conj Hp Hq)) as Hrun
  end.
  fold batch_size in Hrun.
  destruct (epoch_outcome (length dataset) batch_size); [|done..].
  destruct Hrun as (st & Hrun & Hst & Hgs).
  exists st. split; [done|]. split; [done|].
  rewrite Hgs. cbn [global_step]. rewrite length_seq. lia.
Qed.

Lemma epoch_outcome_Completes (n batch_size : nat) :
  epoch_outcome n batch_size = Completes ↔ 0 < n ∧ n `mod` batch_size = 0.
Proof.
  unfold epoch_outcome.
  destruct (Nat.eqb_spec (n `mod` batch_size) 0) as [Hm|Hm];
    [destruct (Nat.eqb_spec n 0) as [Hz|Hz]|]; split;
    try done; try lia; intros [? ?]; lia.
Qed.

Lemma epoch_outcome_PartialBatch (n batch_size : nat) :
  epoch_outcome n batch_size = PartialBatch ↔ n `mod` batch_size ≠ 0.
Proof.
  unfold epoch_outcome.
  destruct (Nat.eqb_spec (n `mod` batch_size) 0) as [Hm|Hm];
    [destruct (Nat.eqb_spec n 0) as [Hz|Hz]|]; split; try done.
Qed.

Lemma train_run_Ok_inv (training_args : TrainingArguments)
    (dataset : list (Features * Features)) (p q : Module) (st : TrainState) :
  let batch_size := per_device_train_batch_size training_args in
  0 < batch_size → 0 < gradient_accumulation_steps training_args →
  0 < num_train_epochs training_args →
  is_bert_encoder p → is_bert_encoder q →
  train_run training_args dataset p q = Ok st →
  bert_state st ∧
  0 < length dataset ∧ length dataset `mod` batch_size = 0 ∧
  global_step st
  = num_train_epochs training_args * (length dataset `div` batch_size).
Proof.
  intros batch_size Hpos Hgas Hep Hp Hq Hrun.
  pose proof (train_run_outcome training_args dataset p q Hpos Hgas Hep Hp Hq)
    as Hout.
  fold batch_size in Hout.
  destruct (epoch_outcome (length dataset) batch_size) eqn:Heo;
    [|rewrite Hout in Hrun; discriminate..].
  destruct Hout as (st' & Hrun' & Hst' & Hgs').
  rewrite Hrun' in Hrun. injection Hrun as <-.
  apply epoch_outcome_Completes in Heo as [Hn Hm]. done.
Qed.

(** C9: the targets of a step are [arange(0, per_device_train_batch_size)]
    whatever the batch, so a step on [BertEncoder]s returns exactly when the
    batch holds [per_device_train_batch_size] examples; [train] returns
    exactly when the dataset is non-empty and its length is a multiple of
    the batch size, and raises the batch-size error of the loss on the
    final partial batch otherwise. *)
Theorem train_requires_full_batches (training_args : TrainingArguments)
    (dataset : list (Features * Features)) (p q : Module) :
  let batch_size := per_device_train_batch_size training_args in
  0 < batch_size → 0 < gradient_accumulation_steps training_args →
  0 < num_train_epochs training_args →
  is_bert_encoder p → is_bert_encoder q →
  (∀ st batch, bert_state st →
     (returns (train_step training_args st batch) ↔ length batch = batch_size) ∧
     (length batch ≠ batch_size →
      train_step training_args st batch = Raise batch_size_mismatch)) ∧
  (returns (train training_args dataset p q)
   ↔ 0 < length dataset ∧ length dataset `mod` batch_size = 0) ∧
  (length dataset `mod` batch_size ≠ 0 →
   train training_args dataset p q = Raise batch_size_mismatch).
Proof.
  intros batch_size Hpos Hgas Hep Hp Hq. split; [|split].
  - intros st batch Hst.
    pose proof (train_step_outcome training_args st batch Hst) as Hstep.
    fold batch_size in Hstep.
    destruct (decide (length batch = batch_size)) as [Heq|Hne].
    + destruct Hstep as (st' & Hs & _). split; [|done].
      split; [done|]. intros _. by exists st'.
    + split; [|done]. split; [|done].
      intros [st' Hs]. rewrite Hstep in Hs. discriminate.
  - pose proof (train_run_outcome training_args dataset p q Hpos Hgas Hep Hp Hq)
      as Hout.
    fold batch_size in Hout. unfold train.
    rewrite <- epoch_outcome_Completes.
    destruct (epoch_outcome (length dataset) batch_size).
    + destruct Hout as (st & -> & _). split; [done|]. intros _. by eexists.
    + rewrite Hout. split; [intros [? ?]|]; discriminate.
    + rewrite Hout. split; [intros [? ?]|]; discriminate.
  - intros Hmod. apply epoch_outcome_PartialBatch in Hmod.
    pose proof (train_run_outcome training_args dataset p q Hpos Hgas Hep Hp Hq)
      as Hout.
    fold batch_size in Hout. rewrite Hmod in Hout.
    unfold train. by rewrite Hout.
Qed.

(** *** The embedding matrix *)

Lemma embed_passages_shapes (p_encoder : Module) (passages : list string) :
  is_bert_encoder p_encoder →
  ∀ arrays, embed_passages p_encoder passages = Ok arrays →
  length arrays = length passages ∧
  Forall (λ a, shape a = [1; 512]) arrays.
Proof.
  intros Hp. induction passages as [|passage rest IH]; intros arrays Hemb.
  - injection Hemb as <-. split; [done | constructor].
  - cbn [embed_passages] in Hemb.
    apply rbind_Ok_inv in Hemb as (inputs & Hin & Hemb).
    apply rbind_Ok_inv in Hemb as (p_emb & Hcall & Hemb).
    apply rbind_Ok_inv in Hemb as (tl & Htl & Hemb).
    injection Hemb as <-.
    destruct (IH _ Htl) as [Hlen Hshapes].
    split; [simpl; lia|]. constructor; [|done].
    unfold cuda in Hin. destruct (cuda_available env); [|discriminate].
    injection Hin as <-.
    destruct (call_module_bert p_encoder
                (tokenizer_call [passage] PadMaxLength 512) Hp)
      as (out & Hout & Hshape).
    rewrite Hout in Hcall. injection Hcall as <-.
    unfold tokenizer_call in Hshape. rewrite !length_fmap in Hshape.
    cbn [length] in Hshape.
    unfold to_numpy. cbn [shape]. unfold nrows.
    rewrite (ncols_shape _ _ _ Hshape) by lia.
    destruct Hshape as [-> _]. reflexivity.
Qed.

Lemma np_array_shape (arrays : list NdArray) (s : list nat) (a : NdArray) :
  Forall (λ b, shape b = s) arrays →
  np_array arrays = Ok a →
  shape a = match arrays with [] => [0] | _ => length arrays :: s end.
Proof.
  intros Hs Ha. destruct arrays as [|a0 rest]; [by injection Ha as <-|].
  unfold np_array in Ha. destruct (forallb _ rest); [|discriminate].
  injection Ha as <-. cbn [shape].
  by apply Forall_cons in Hs as [-> _].
Qed.

(** The shape of the array that [_exec_embedding] returns for a corpus of
    [n] documents. *)
Definition embedding_shape (n : nat) : list nat :=
  match n with
  | 0 => [0]
  | 1 => [512]
  | _ => [n; 512]
  end.

Lemma exec_training_args_positive :
  0 < per_device_train_batch_size exec_training_args ∧
  0 < gradient_accumulation_steps exec_training_args ∧
  0 < num_train_epochs exec_training_args.
Proof. cbn. lia. Qed.

(** Everything that has happened when [_exec_embedding] returns. *)
Lemma _exec_embedding_run_inv (self : Retriever) (r : ExecResult) :
  _exec_embedding_run self = Ok r →
  self_class self = DprRetrieval ∧
  _load_model self = Ok (loaded r) ∧
  train_run exec_training_args (train_dataset r) (loaded r).1 (loaded r).2
    = Ok (trained r) ∧
  bert_state (trained r) ∧
  0 < length (train_dataset r) ∧
  length (train_dataset r) `mod` 16 = 0 ∧
  global_step (trained r) = 10 * (length (train_dataset r) `div` 16) ∧
  q_encoder r = q_model (trained r) ∧
  ∃ arrays stacked,
    embed_passages (p_model (trained r)) (contexts self) = Ok arrays ∧
    np_array arrays = Ok stacked ∧
    p_embedding r = squeeze stacked ∧
    shape (p_embedding r) = embedding_shape (length (contexts self)).
Proof.
  intros Hrun. unfold _exec_embedding_run in Hrun.
  apply rbind_Ok_inv in Hrun as ([p q] & Hload & Hrun).
  apply rbind_Ok_inv in Hrun as (datasets & _ & Hrun).
  apply rbind_Ok_inv in Hrun as (train_split & _ & Hrun).
  apply rbind_Ok_inv in Hrun as (row1 & _ & Hrun).
  apply rbind_Ok_inv in Hrun as (validation_split & _ & Hrun).
  apply rbind_Ok_inv in Hrun as (kor_datasets & _ & Hrun).
  apply rbind_Ok_inv in Hrun as (kor_train & _ & Hrun).
  apply rbind_Ok_inv in Hrun as (st & Htrain & Hrun).
  apply rbind_Ok_inv in Hrun as (arrays & Hemb & Hrun).
  apply rbind_Ok_inv in Hrun as (stacked & Hstack & Hrun).
  injection Hrun as <-. cbn [loaded trained train_dataset q_encoder p_embedding fst snd].
  destruct (_load_model_bert _ _ _ Hload) as (Hcls & Hp & Hq).
  destruct exec_training_args_positive as (HB & Hgas & Hep).
  destruct (train_run_Ok_inv _ _ _ _ _ HB Hgas Hep Hp Hq Htrain)
    as (Hst & Hn & Hmod & Hgs).
  repeat (split; [done|]).
  exists arrays, stacked. repeat (split; [done|]).
  destruct (embed_passages_shapes _ _ (proj1 Hst) _ Hemb) as [Hlen Hshapes].
  cbn [shape squeeze]. rewrite (np_array_shape _ _ _ Hshapes Hstack), <- Hlen.
  destruct arrays as [|a0 [|a1 rest]]; reflexivity.
Qed.

Lemma exec_embedding_shape (self : Retriever) (m : NdArray) (q : Module) :
  _exec_embedding self = Ok (m, q) →
  shape m = embedding_shape (length (contexts self)).
Proof.
  unfold _exec_embedding. intros Hexec.
  apply rbind_Ok_inv in Hexec as (r & Hrun & [= <- <-]).
  apply _exec_embedding_run_inv in Hrun
    as (_ & _ & _ & _ & _ & _ & _ & _ & arrays & stacked & _ & _ & _ & Hshape).
  exact Hshape.
Qed.

(** With two documents or more the matrix has one row of 512 entries per
    document. *)
Lemma exec_embedding_rows (self : Retriever) (m : NdArray) (q : Module) :
  _exec_embedding self = Ok (m, q) →
  2 ≤ length (contexts self) →
  shape m = [length (contexts self); 512] ∧
  np_len m = Ok (length (contexts self)).
Proof.
  intros Hexec Hn. pose proof (exec_embedding_shape _ _ _ Hexec) as Hs.
  unfold np_len. rewrite Hs.
  destruct (length (contexts self)) as [|[|n]]; [lia..|]. done.
Qed.

(** C3 (amended): [_exec_embedding] trains.  When it returns, [train] has
    run on the loaded encoders with batches of 16 for 10 epochs over a
    non-empty training set whose size is a multiple of 16, which makes
    [10 * (size / 16)] optimiser steps, at least ten; the query encoder
    returned is the trained one and the passages are embedded with the
    trained passage encoder. *)
Theorem exec_embedding_trains (self : Retriever) (r : ExecResult) :
  _exec_embedding_run self = Ok r →
  _load_model self = Ok (loaded r) ∧
  train_run exec_training_args (train_dataset r) (loaded r).1 (loaded r).2
    = Ok (trained r) ∧
  0 < length (train_dataset r) ∧
  length (train_dataset r) `mod` 16 = 0 ∧
  global_step (trained r) = 10 * (length (train_dataset r) `div` 16) ∧
  10 ≤ global_step (trained r) ∧
  q_encoder r = q_model (trained r) ∧
  ∃ arrays stacked,
    embed_passages (p_model (trained r)) (contexts self) = Ok arrays ∧
    np_array arrays = Ok stacked ∧
    p_embedding r = squeeze stacked.
Proof.
  intros Hrun.
  apply _exec_embedding_run_inv in Hrun
    as (_ & Hload & Htrain & _ & Hn & Hmod & Hgs & Hq
        & arrays & stacked & Hemb & Hstack & Hp & _).
  repeat (split; [done|]). split.
  - rewrite Hgs.
    assert (H16 : 16 ≤ length (train_dataset r)).
    { apply Nat.Div0.mod_divides in Hmod as [k Hk]. lia. }
    pose proof (Nat.Div0.div_le_mono 16 (length (train_dataset r)) 16 H16) as Hd.
    rewrite Nat.div_same in Hd by lia. lia.
  - split; [done|]. eauto.
Qed.

End Model.

(** *** A small environment on which the module can be run

    Integer scalars, a transformer with two hidden units, a hub that knows
    the four checkpoints, and an optimiser that adds one to every weight of
    the transformer at each step. *)

Section Toy.

Definition toy_hub : list string :=
  [ "bert-base-multilingual-cased"; "monologg/kobert";
    "sangrimlee/bert-base-multilingual-cased-korquad";
    "monologg/koelectra-base-v3-finetuned-korquad" ].

Definition not_on_hub (name : string) : PyExc :=
  OSError ("Can't load '" +:+ name +:+ "'").

Definition toy_update : @Update Z Z :=
  {| upd_params := λ _ p, (p + 1)%Z;
     upd_weight := λ _ w, w;
     upd_bias := λ _ b, b |}.

Definition no_update : @Update Z Z :=
  {| upd_params := λ _ p, p; upd_weight := λ _ w, w; upd_bias := λ _ b, b |}.

Definition toy_encode (text : string) (max_length : nat) : list Z :=
  take max_length
    ((λ a, Z.of_nat (Ascii.nat_of_ascii a)) <$> String.list_ascii_of_string text).

Definition toy_env (online : bool)
    (disk : string → Result (gmap string (list Example)))
    : @Env Z Z nat :=
  {| cuda_available := true;
     load_config := λ name,
       if online && bool_decide (name ∈ toy_hub) then Ok {| hidden_size := 2 |}
       else Raise (not_on_hub name);
     load_weights := λ name _,
       if online && bool_decide (name ∈ toy_hub) then Ok 1%Z
       else Raise (not_on_hub name);
     init_params := λ _, 0%Z;
     init_weight := λ _ _ j k, if j =? k then 1%Z else 0%Z;
     init_bias := λ _ _ _, 0%Z;
     reinit := no_update;
     encode := toy_encode;
     pad_token_id := 0%Z;
     pooler_output := λ b x k,
       ((bb_params b + Z.of_nat k + default 0 (head (input_ids x))) `mod` 3)%Z;
     cls_hidden_state := λ b x k,
       ((bb_params b + Z.of_nat k + default 0 (head (input_ids x))) `mod` 3)%Z;
     load_from_disk := disk;
     rand := λ epoch i, epoch + i;
     adamw_init := λ _ _ _ _, 0;
     adamw_step := λ st _ _ _, (toy_update, toy_update, S st) |}.

Definition toy_rows (n : nat) : list Example :=
  (λ i, {| ex_question := "q"; ex_context := "c" |}) <$> seq 0 n.

(** A disk with [n_train] training rows, [n_valid] validation rows and
    [n_kor] rows in the additional corpus. *)
Definition toy_disk (n_train n_valid n_kor : nat) (path : string)
    : Result (gmap string (list Example)) :=
  if bool_decide (path = "/data/train_dataset") then
    Ok (py_dict [("train", toy_rows n_train); ("validation", toy_rows n_valid)])
  else if bool_decide (path = "/data/kor_dataset") then
    Ok (py_dict [("train", toy_rows n_kor)])
  else Raise (OSError "Directory is neither a dataset directory nor a dataset dict directory").

Definition toy_retriever (c : DprClass) (corpus : list string) : Retriever :=
  {| self_class := c;
     train_data_dir := "/data";
     dense_train_dataset := "train_dataset";
     contexts := corpus |}.

End Toy.

(** *** Runs on the small environment *)

Definition toy_online : @Env Z Z nat := toy_env true (toy_disk 8 4 4).
Definition toy_offline : @Env Z Z nat := toy_env false (toy_disk 8 4 4).

Definition toy_config : Config := {| hidden_size := 2 |}.

Definition toy_bert : @Module Z Z :=
  match BertEncoder toy_online toy_config with
  | Ok m => m
  | Raise _ => {| mod_class := object_cid; mod_config := None; mod_modules := None |}
  end.

Lemma toy_bert_ok : is_bert_encoder toy_bert.
Proof.
  unfold toy_bert.
  destruct (BertEncoder_returns toy_online toy_config) as (m & -> & Hm & _).
  exact Hm.
Qed.

(** The sibling class, which derives from [PreTrainedModel], is constructed
    without error. *)
Example BertEncoder_constructs :
  returns (BertEncoder toy_online toy_config).
Proof.
  destruct (BertEncoder_returns toy_online toy_config) as (m & Hm & _).
  by exists m.
Qed.

Example AutoEncoder_online :
  AutoEncoder toy_online "monologg/kobert" toy_config = Raise no_init_weights ∧
  KoelectraEncoder toy_online "monologg/koelectra-base-v3-finetuned-korquad"
    toy_config = Raise module_before_init.
Proof. split; reflexivity. Qed.

(** When the checkpoint cannot be loaded the constructor raises the
    loader's error, which is not an [AttributeError]. *)
Lemma AutoEncoder_AttributeError_counterexample :
  AutoEncoder toy_offline "monologg/kobert" toy_config
    = Raise (not_on_hub "monologg/kobert") ∧
  ¬ ∃ msg, AutoEncoder toy_offline "monologg/kobert" toy_config
           = Raise (AttributeError msg).
Proof.
  split; [reflexivity|]. intros [msg Hmsg]. vm_compute in Hmsg. discriminate.
Qed.

Lemma encoder_constructors_never_return_witness :
  AutoEncoder toy_online "monologg/kobert" toy_config = Raise no_init_weights ∧
  KoelectraEncoder toy_online "monologg/kobert" toy_config
    = Raise module_before_init ∧
  raises (_load_model toy_online (toy_retriever DprKobertRetrieval ["a"])) ∧
  raises (_get_encoder toy_online (toy_retriever DprKobertRetrieval ["a"])).
Proof.
  exact (encoder_constructors_never_return toy_online "monologg/kobert"
           toy_config (toy_retriever DprKobertRetrieval ["a"])).
Defined.

Definition toy_dataset (n : nat) : list (Features * Features) :=
  let rows := toy_rows n in
  zip (tokenizer_call toy_online (ex_context <$> rows) PadMaxLength 512)
      (tokenizer_call toy_online (ex_question <$> rows) PadLongest 512).

Lemma train_requires_full_batches_witness :
  (0 < per_device_train_batch_size exec_training_args) ∧
  (0 < gradient_accumulation_steps exec_training_args) ∧
  (0 < num_train_epochs exec_training_args) ∧
  is_bert_encoder toy_bert ∧
  (returns (train toy_online exec_training_args (toy_dataset 20) toy_bert toy_bert)
   ↔ 0 < length (toy_dataset 20) ∧ length (toy_dataset 20) `mod` 16 = 0) ∧
  (length (toy_dataset 20) `mod` 16 ≠ 0 →
   train toy_online exec_training_args (toy_dataset 20) toy_bert toy_bert
   = Raise batch_size_mismatch).
Proof.
  destruct exec_training_args_positive as (HB & Hgas & Hep).
  repeat (split; [assumption || exact toy_bert_ok |]).
  exact (proj2 (train_requires_full_batches toy_online exec_training_args
                  (toy_dataset 20) toy_bert toy_bert
                  HB Hgas Hep toy_bert_ok toy_bert_ok)).
Defined.

(** Twenty examples: the second batch of the first epoch has four. *)
Example train_partial_batch :
  train toy_online exec_training_args (toy_dataset 20) toy_bert toy_bert
  = Raise batch_size_mismatch.
Proof. vm_compute. reflexivity. Qed.

Example train_full_batches :
  global_step <$>
    (match train_run toy_online exec_training_args (toy_dataset 32) toy_bert toy_bert
     with Ok st => Some st | Raise _ => None end)
  = Some 20.
Proof. vm_compute. reflexivity. Qed.

(** The weights of the passage transformer of a module. *)
Definition bert_params (m : @Module Z Z) : option Z :=
  ms ← mod_modules m;
  s ← ms !! "bert";
  match s with
  | SubBackbone b => Some (bb_params b)
  | SubLinear _ => None
  end.

Definition toy_self (corpus : list string) : Retriever :=
  toy_retriever DprRetrieval corpus.

(** Sixteen training examples on disk: ten optimiser steps, and the
    transformer that embeds the corpus is not the one that was loaded. *)
Lemma exec_embedding_no_training_counterexample :
  match _exec_embedding_run toy_online (toy_self ["a"; "b"]) with
  | Ok r =>
      global_step (trained r) = 10 ∧
      bert_params (loaded r).1 = Some 1%Z ∧
      bert_params (p_model (trained r)) = Some 11%Z
  | Raise _ => False
  end.
Proof. vm_compute. done. Qed.

Lemma toy_exec_returns :
  ∃ r, _exec_embedding_run toy_online (toy_self ["a"; "b"]) = Ok r.
Proof.
  assert (Hc : match _exec_embedding_run toy_online (toy_self ["a"; "b"]) with
               | Ok _ => True
               | Raise _ => False
               end) by (vm_compute; exact I).
  destruct (_exec_embedding_run toy_online (toy_self ["a"; "b"])) as [r|e].
  - by exists r.
  - destruct Hc.
Qed.

Lemma exec_embedding_trains_witness :
  ∃ r, _exec_embedding_run toy_online (toy_self ["a"; "b"]) = Ok r ∧
       global_step (trained r) = 10 * (length (train_dataset r) `div` 16) ∧
       10 ≤ global_step (trained r).
Proof.
  destruct toy_exec_returns as [r Hr]. exists r. split; [exact Hr|].
  pose proof (exec_embedding_trains toy_online (toy_self ["a"; "b"]) r Hr)
    as (_ & _ & _ & _ & Hgs & Hten & _).
  exact (conj Hgs Hten).
Defined.

(** C1: on a corpus of one document the array that [_exec_embedding]
    returns is one-dimensional, of length 512: [np.array] gives shape
    [(1, 1, 512)] and [squeeze()] removes both unit axes. *)
Theorem exec_embedding_single_document :
  match _exec_embedding toy_online (toy_self ["a"]) with
  | Ok (m, _) => shape m = [512] ∧ np_len m = Ok 512
  | Raise _ => False
  end.
Proof. vm_compute. done. Qed.

Example exec_embedding_three_documents :
  match _exec_embedding toy_online (toy_self ["a"; "b"; "c"]) with
  | Ok (m, _) => shape m = [3; 512] ∧ np_len m = Ok 3
  | Raise _ => False
  end.
Proof. vm_compute. done. Qed.

(** *** Further properties of the encoders, of [train] and of
    [_exec_embedding] *)

Section Coverage.
Context {F : Type} `{FloatOps F} {Params OptState : Type}.
Variable env : @Env F Params OptState.

(** The environment with another checkpoint loader. *)
Definition with_load_weights (lw : string → Config → Result Params)
    : @Env F Params OptState :=
  {| cuda_available := cuda_available env;
     load_config := load_config env;
     load_weights := lw;
     init_params := init_params env;
     init_weight := init_weight env;
     init_bias := init_bias env;
     reinit := reinit env;
     encode := encode env;
     pad_token_id := pad_token_id env;
     pooler_output := pooler_output env;
     cls_hidden_state := cls_hidden_state env;
     load_from_disk := load_from_disk env;
     rand := rand env;
     adamw_init := adamw_init env;
     adamw_step := adamw_step env |}.

(** Line 104: the number of steps announced to the learning-rate schedule. *)
Definition t_total (training_args : TrainingArguments) (n : nat) : nat :=
  dataloader_len n (per_device_train_batch_size training_args)
    `div` gradient_accumulation_steps training_args
    * num_train_epochs training_args.

(** The state in which the loops of [train] start, lines 102-117. *)
Definition initial_state (training_args : TrainingArguments) (n : nat)
    (p q : Module) : TrainState :=
  {| p_model := p; q_model := q;
     optimizer := adamw_init env training_args (t_total training_args n) p q;
     global_step := 0;
     train_loss := fzero |}.

(** The exception that the three subclasses end with when their checkpoint
    can be read. *)
Definition subclass_error (c : DprClass) : PyExc :=
  match c with
  | DprKoelectraRetrieval => module_before_init
  | _ => no_init_weights
  end.

(** **** [BertEncoder] *)

(** X1: An encoder that [BertEncoder(config)] or
    [BertEncoder.from_pretrained(name, config=config)] returns maps a batch
    of [n] inputs to an [n × 512] tensor, whatever the hidden size of the
    configuration: its projection takes as many inputs as the pooled output
    of its transformer has entries, and its rows are the projections of the
    pooled outputs. *)
Theorem BertEncoder_embeds (config : Config) (inputs : list Features) (m : Module) :
  BertEncoder env config = Ok m ∨
  (∃ model_name, BertEncoder_from_pretrained env model_name config = Ok m) →
  ∃ ms b l,
    mod_modules m = Some ms ∧
    ms !! "bert" = Some (SubBackbone b) ∧
    ms !! "bert_proj" = Some (SubLinear l) ∧
    in_features l = hidden_size (bb_config b) ∧ out_features l = 512 ∧
    call_module env m inputs = Ok (bert_rows env b l inputs) ∧
    has_shape (length inputs) 512 (bert_rows env b l inputs).
Proof.
  intros Hm.
  assert (Hb : is_bert_encoder m).
  { destruct Hm as [Hm | [model_name Hm]].
    - destruct (BertEncoder_returns env config) as (m' & Hm' & Hb & _).
      rewrite Hm in Hm'. by injection Hm' as ->.
    - by eapply BertEncoder_from_pretrained_bert. }
  destruct Hb as (Hc & ms & b & l & Hms & Hbert & Hproj & Hin & Hout).
  destruct getattr_class_BertEncoder as (_ & Hfwd & _ & Hnb & Hnp & _ & _).
  exists ms, b, l. repeat (split; [assumption|]). split.
  - unfold call_module. rewrite Hc, Hfwd.
    unfold BertEncoder_forward_impl, getattr_backbone, getattr_linear, getattr.
    rewrite Hc, Hnb, Hnp, Hms. cbn [mbind option_bind]. rewrite Hbert, Hproj.
    cbn [rbind]. unfold linear_forward.
    assert (Hchk : forallb (λ row, length row =? in_features l) (pooled env b inputs)
                   = true).
    { apply forallb_forall. intros row Hrow. apply list_elem_of_In in Hrow.
      unfold pooled in Hrow. apply list_elem_of_fmap in Hrow as (x & -> & _).
      rewrite length_fmap, length_seq, Hin. apply Nat.eqb_refl. }
    rewrite Hchk. reflexivity.
  - unfold bert_rows, pooled. split.
    + by rewrite !length_fmap.
    + apply Forall_fmap, Forall_forall. intros row _. cbn.
      by rewrite length_fmap, length_seq.
Qed.

(** **** [_get_encoder] and [_load_model] *)

Lemma _get_encoder_DprRetrieval (self : Retriever) :
  self_class self = DprRetrieval →
  _get_encoder env self =
  let* config := load_config env "bert-base-multilingual-cased" in
  let* q_encoder := BertEncoder env config in
  cuda env q_encoder.
Proof. intros Hc. unfold _get_encoder. rewrite Hc. reflexivity. Qed.

(** X2: [DprRetrieval._get_encoder] builds its encoder from the configuration
    alone: the checkpoint loader plays no part in the result.  It returns
    exactly when the configuration loads and CUDA is available, and what it
    returns is a [BertEncoder] with the configuration it loaded. *)
Theorem get_encoder_untrained (self : Retriever) :
  self_class self = DprRetrieval →
  (∀ lw, _get_encoder (with_load_weights lw) self = _get_encoder env self) ∧
  (returns (_get_encoder env self) ↔
   returns (load_config env "bert-base-multilingual-cased") ∧
   cuda_available env = true) ∧
  (∀ m, _get_encoder env self = Ok m →
     is_bert_encoder m ∧
     ∃ config, load_config env "bert-base-multilingual-cased" = Ok config ∧
               BertEncoder env config = Ok m ∧ mod_config m = Some config).
Proof.
  intros Hc. split; [|split].
  - intros lw. unfold _get_encoder. rewrite Hc. reflexivity.
  - rewrite (_get_encoder_DprRetrieval _ Hc). unfold cuda. split.
    + intros [m Hm].
      apply rbind_Ok_inv in Hm as (config & Hcfg & Hm).
      apply rbind_Ok_inv in Hm as (m0 & _ & Hm).
      split; [by exists config|].
      by destruct (cuda_available env).
    + intros [[config Hcfg] Hcuda]. rewrite Hcfg. cbn [rbind].
      destruct (BertEncoder_returns env config) as (m & -> & _).
      cbn [rbind]. rewrite Hcuda. by exists m.
  - intros m Hm. rewrite (_get_encoder_DprRetrieval _ Hc) in Hm.
    apply rbind_Ok_inv in Hm as (config & Hcfg & Hm).
    apply rbind_Ok_inv in Hm as (m0 & Hm0 & Hm).
    unfold cuda in Hm. destruct (cuda_available env); [|discriminate].
    injection Hm as <-.
    destruct (BertEncoder_returns env config) as (m1 & Hm1 & Hb & Hconf).
    rewrite Hm1 in Hm0. injection Hm0 as <-.
    split; [exact Hb|]. by exists config.
Qed.

Lemma _load_model_DprRetrieval (self : Retriever) :
  self_class self = DprRetrieval →
  _load_model env self =
  let* config := load_config env "bert-base-multilingual-cased" in
  let* p_encoder := BertEncoder_from_pretrained env "bert-base-multilingual-cased" config in
  let* p_encoder := cuda env p_encoder in
  let* q_encoder := BertEncoder_from_pretrained env "bert-base-multilingual-cased" config in
  let* q_encoder := cuda env q_encoder in
  Ok (p_encoder, q_encoder).
Proof. intros Hc. unfold _load_model. rewrite Hc. reflexivity. Qed.

(** When [DprRetrieval._load_model] returns. *)
Lemma _load_model_returns_iff (self : Retriever) :
  returns (_load_model env self) ↔
  self_class self = DprRetrieval ∧ cuda_available env = true ∧
  ∃ config, load_config env "bert-base-multilingual-cased" = Ok config ∧
            returns (load_weights env "bert-base-multilingual-cased" config).
Proof.
  split.
  - intros [[p q] Hl].
    destruct (_load_model_bert env self p q Hl) as (Hc & _ & _).
    split; [exact Hc|].
    rewrite (_load_model_DprRetrieval _ Hc) in Hl.
    apply rbind_Ok_inv in Hl as (config & Hcfg & Hl).
    apply rbind_Ok_inv in Hl as (p0 & Hp0 & Hl).
    apply rbind_Ok_inv in Hl as (p1 & Hp1 & _).
    split.
    { unfold cuda in Hp1. by destruct (cuda_available env). }
    exists config. split; [exact Hcfg|].
    unfold BertEncoder_from_pretrained in Hp0.
    apply rbind_Ok_inv in Hp0 as (m0 & _ & Hp0).
    destruct (load_weights env _ config) as [params|]; [by exists params|].
    discriminate.
  - intros (Hc & Hcuda & config & Hcfg & [params Hw]).
    rewrite (_load_model_DprRetrieval _ Hc), Hcfg. cbn [rbind].
    unfold BertEncoder_from_pretrained, cuda.
    destruct (BertEncoder_returns env config) as (m & -> & _).
    cbn [rbind]. rewrite Hw, Hcuda. cbn [rbind]. by eexists.
Qed.

(** **** The three subclasses *)

(** X3: [_exec_embedding] of [DprKobertRetrieval], [DprKorquadBertRetrieval]
    and [DprKoelectraRetrieval] never returns; when the configuration and
    the checkpoint of their backbone can be read, it ends with the
    [AttributeError] of the encoder's constructor. *)
Theorem subclass_exec_embedding_never_returns (self : Retriever) :
  self_class self ≠ DprRetrieval →
  raises (_exec_embedding env self) ∧
  ∀ config,
    load_config env (backbone_name (self_class self)) = Ok config →
    returns (load_weights env (backbone_name (self_class self)) config) →
    _exec_embedding env self = Raise (subclass_error (self_class self)).
Proof.
  intros Hc. split.
  - unfold _exec_embedding, _exec_embedding_run.
    apply rbind_raises, rbind_raises.
    pose proof (subclasses_never_load env self) as Hs.
    unfold subclass_never_loads in Hs.
    destruct (self_class self); [done | apply Hs ..].
  - intros config Hcfg [params Hw].
    unfold _exec_embedding, _exec_embedding_run, _load_model.
    cbv zeta. rewrite Hcfg. cbn [rbind].
    destruct (self_class self); [done|..]; cbn [backbone_name] in Hw |- *.
    + rewrite AutoEncoder_outcome, Hw. reflexivity.
    + rewrite AutoEncoder_outcome, Hw. reflexivity.
    + rewrite KoelectraEncoder_outcome, Hw. reflexivity.
Qed.

(** **** [train] *)

Lemma dataloader_len_divides (n batch_size : nat) :
  0 < batch_size → n `mod` batch_size = 0 →
  dataloader_len n batch_size = n `div` batch_size.
Proof.
  intros Hpos Hmod. unfold dataloader_len.
  apply Nat.Div0.mod_divides in Hmod as [k ->].
  rewrite (Nat.mul_comm batch_size k), Nat.div_mul by lia.
  replace (k * batch_size + batch_size - 1)
    with (k * batch_size + (batch_size - 1)) by lia.
  rewrite Nat.div_add_l by lia. rewrite Nat.div_small by lia. lia.
Qed.

Lemma train_run_initial_state (training_args : TrainingArguments)
    (dataset : list (Features * Features)) (p q : Module) :
  0 < per_device_train_batch_size training_args →
  0 < gradient_accumulation_steps training_args →
  train_run env training_args dataset p q =
  train_epochs env training_args dataset
    (initial_state training_args (length dataset) p q)
    (seq 0 (num_train_epochs training_args)).
Proof.
  intros HB Hg. unfold train_run.
  destruct (Nat.eqb_spec (per_device_train_batch_size training_args) 0); [lia|].
  destruct (Nat.eqb_spec (gradient_accumulation_steps training_args) 0); [lia|].
  reflexivity.
Qed.

(** X4: [train] makes one optimiser and scheduler step per batch, whatever
    [gradient_accumulation_steps] says: when it returns, [global_step] is
    the number of epochs times the number of batches, while the schedule
    was created for [t_total] steps.  The two agree exactly when
    [gradient_accumulation_steps] is 1; otherwise the schedule is shorter
    than the run.  The models returned are still [BertEncoder]s. *)
Theorem train_steps_and_schedule (training_args : TrainingArguments)
    (dataset : list (Features * Features)) (p q : Module) (st : TrainState) :
  let batch_size := per_device_train_batch_size training_args in
  let n := length dataset in
  0 < batch_size → 0 < gradient_accumulation_steps training_args →
  0 < num_train_epochs training_args →
  is_bert_encoder p → is_bert_encoder q →
  train_run env training_args dataset p q = Ok st →
  train_run env training_args dataset p q =
    train_epochs env training_args dataset (initial_state training_args n p q)
      (seq 0 (num_train_epochs training_args)) ∧
  global_step st = num_train_epochs training_args * dataloader_len n batch_size ∧
  t_total training_args n ≤ global_step st ∧
  (t_total training_args n = global_step st
   ↔ gradient_accumulation_steps training_args = 1) ∧
  is_bert_encoder (trained_models st).1 ∧ is_bert_encoder (trained_models st).2.
Proof.
  intros batch_size n HB Hg HE Hp Hq Hrun.
  destruct (train_run_Ok_inv env training_args dataset p q st HB Hg HE Hp Hq Hrun)
    as ([Hbp Hbq] & Hn & Hmod & Hgs).
  fold batch_size n in Hmod, Hgs, Hn.
  split; [by apply train_run_initial_state|].
  pose proof (dataloader_len_divides n batch_size HB Hmod) as Hdl.
  assert (HL : 0 < n `div` batch_size).
  { apply Nat.Div0.mod_divides in Hmod as [k Hk]. rewrite Hk.
    rewrite (Nat.mul_comm batch_size k), Nat.div_mul by lia. nia. }
  set (L := n `div` batch_size) in *.
  set (g := gradient_accumulation_steps training_args) in *.
  set (E := num_train_epochs training_args) in *.
  assert (Hle : L `div` g ≤ L) by (apply Nat.Div0.div_le_upper_bound; nia).
  unfold t_total. fold batch_size g E. rewrite Hdl, Hgs.
  split; [reflexivity|]. split; [nia|]. split; [|done].
  split.
  - intros Heq. assert (Hq' : L `div` g = L) by nia.
    destruct (decide (g = 1)) as [|Hne]; [done|].
    assert (Hlt : L `div` g < L) by (apply Nat.div_lt; lia). lia.
  - intros ->. rewrite Nat.div_1_r. lia.
Qed.

(** X5: The batches of an epoch: the sampler draws without replacement, so the
    batches together hold every index of the dataset exactly once; there
    are [len(train_dataloader)] of them, none empty and none larger than
    the batch size. *)
Theorem epoch_batches_partition (draw : nat → nat) (n batch_size : nat) :
  0 < batch_size →
  let batches := batch_sampler batch_size (randperm draw n) in
  concat batches ≡ₚ seq 0 n ∧
  length batches = dataloader_len n batch_size ∧
  Forall (λ b, 0 < length b ≤ batch_size) batches.
Proof.
  intros HB batches. split; [|split].
  - unfold batches, batch_sampler. rewrite batch_sampler_aux_concat.
    apply randperm_Permutation.
  - pose proof (batch_sampler_sizes batch_size (randperm draw n) HB) as Hs.
    rewrite randperm_length in Hs. fold batches in Hs.
    rewrite <- (length_fmap length), Hs. unfold batch_sizes, dataloader_len.
    rewrite length_app, length_replicate.
    pose proof (Nat.div_mod n batch_size ltac:(lia)) as Hdm.
    pose proof (Nat.mod_upper_bound n batch_size ltac:(lia)) as Hub.
    set (k := n `div` batch_size) in *. set (r := n `mod` batch_size) in *.
    rewrite Hdm.
    replace (batch_size * k + r + batch_size - 1)
      with (k * batch_size + (r + batch_size - 1)) by lia.
    rewrite Nat.div_add_l by lia.
    destruct (Nat.eqb_spec r 0) as [->|Hr]; cbn [length].
    + rewrite Nat.div_small by lia. lia.
    + replace (r + batch_size - 1) with (1 * batch_size + (r - 1)) by lia.
      rewrite Nat.div_add_l by lia. rewrite Nat.div_small by lia. lia.
  - pose proof (batch_sampler_sizes batch_size (randperm draw n) HB) as Hs.
    fold batches in Hs.
    assert (Hall : Forall (λ k, 0 < k ≤ batch_size) (length <$> batches)).
    { rewrite Hs. unfold batch_sizes. apply Forall_app. split.
      - apply Forall_replicate. lia.
      - destruct (Nat.eqb_spec (length (randperm draw n) `mod` batch_size) 0)
          as [|Hr]; [constructor|].
        constructor; [|constructor].
        pose proof (Nat.mod_upper_bound (length (randperm draw n)) batch_size).
        lia. }
    rewrite Forall_fmap in Hall. exact Hall.
Qed.

(** **** [_exec_embedding] *)

Lemma tokenizer_call_length (texts : list string) (padding : Padding)
    (max_length : nat) :
  length (tokenizer_call env texts padding max_length) = length texts.
Proof. unfold tokenizer_call. by rewrite !length_fmap. Qed.

(** The rows computed by the loop of lines 218-221. *)
Definition embeds (p_encoder : Module) (passage : string) (row : list F) : Prop :=
  call_module env p_encoder (tokenizer_call env [passage] PadMaxLength 512)
    = Ok [row] ∧
  length row = 512.

Lemma call_module_passage (p_encoder : Module) (passage : string) :
  is_bert_encoder p_encoder → ∃ row, embeds p_encoder passage row.
Proof.
  intros Hp.
  destruct (call_module_bert env p_encoder
              (tokenizer_call env [passage] PadMaxLength 512) Hp)
    as (out & Hout & [Hlen Hrows]).
  rewrite tokenizer_call_length in Hlen. cbn [length] in Hlen.
  destruct out as [|row [|??]]; try discriminate.
  exists row. split; [exact Hout|]. by apply Forall_cons in Hrows as [? _].
Qed.

Lemma embed_passages_rows (p_encoder : Module) (passages : list string) :
  is_bert_encoder p_encoder →
  ∀ arrays, embed_passages env p_encoder passages = Ok arrays →
  ∃ rows, Forall2 (embeds p_encoder) passages rows ∧
          arrays = (λ row, to_numpy [row]) <$> rows.
Proof.
  intros Hp. induction passages as [|passage rest IH]; intros arrays Hemb.
  - injection Hemb as <-. exists []. split; [constructor | reflexivity].
  - cbn [embed_passages] in Hemb.
    apply rbind_Ok_inv in Hemb as (inputs & Hin & Hemb).
    apply rbind_Ok_inv in Hemb as (p_emb & Hcall & Hemb).
    apply rbind_Ok_inv in Hemb as (tl & Htl & Hemb).
    injection Hemb as <-.
    unfold cuda in Hin. destruct (cuda_available env); [|discriminate].
    injection Hin as <-.
    destruct (call_module_passage p_encoder passage Hp) as (row & Hrow & Hlen).
    rewrite Hrow in Hcall. injection Hcall as <-.
    destruct (IH _ Htl) as (rows & Hrows & ->).
    exists (row :: rows). split; [|reflexivity].
    constructor; [by split | exact Hrows].
Qed.

Lemma embed_passages_returns (p_encoder : Module) (passages : list string) :
  is_bert_encoder p_encoder → cuda_available env = true →
  returns (embed_passages env p_encoder passages).
Proof.
  intros Hp Hcuda. induction passages as [|passage rest [tl IH]].
  - by exists [].
  - cbn [embed_passages]. unfold cuda. rewrite Hcuda. cbn [rbind].
    destruct (call_module_passage p_encoder passage Hp) as (row & -> & _).
    cbn [rbind]. rewrite IH. cbn [rbind]. by eexists.
Qed.

Lemma np_array_returns (arrays : list NdArray) (s : list nat) :
  Forall (λ b, shape b = s) arrays → returns (np_array (F := F) arrays).
Proof.
  intros Hs. destruct arrays as [|a rest]; [by eexists|].
  apply Forall_cons in Hs as [Ha Hrest]. unfold np_array.
  assert (Hchk : forallb (λ b, bool_decide (shape b = shape a)) rest = true).
  { apply forallb_forall. intros b Hb. apply list_elem_of_In in Hb.
    rewrite Forall_forall in Hrest. apply bool_decide_eq_true.
    rewrite Ha. by apply Hrest. }
  rewrite Hchk. by eexists.
Qed.

Lemma np_array_data (arrays : list NdArray) (a : NdArray) :
  np_array (F := F) arrays = Ok a → data a = concat (data <$> arrays).
Proof.
  destruct arrays as [|a0 rest]; [by intros [= <-]|].
  unfold np_array. destruct (forallb _ rest); [|discriminate].
  by intros [= <-].
Qed.

(** The size of the training set that [_exec_embedding] builds. *)
Lemma exec_dataset_length (train validation kor_train : list Example) :
  length (zip (tokenizer_call env (ex_context <$> (train ++ validation) ++ kor_train)
                 PadMaxLength 512)
              (tokenizer_call env (ex_question <$> (train ++ validation) ++ kor_train)
                 PadLongest 512))
  = length train + length validation + length kor_train.
Proof.
  rewrite length_zip_with, !tokenizer_call_length, !length_fmap, !length_app. lia.
Qed.

(** X6: [_exec_embedding] returns exactly when: the class is [DprRetrieval];
    CUDA is available; the configuration and the checkpoint of
    "bert-base-multilingual-cased" load; the training dataset on disk has a
    "train" split of at least two rows and a "validation" split; the
    dataset "kor_dataset" has a "train" split; and the three splits
    together hold a multiple of 16 examples. *)
Theorem exec_embedding_returns_iff (self : Retriever) :
  returns (_exec_embedding env self) ↔
  self_class self = DprRetrieval ∧ cuda_available env = true ∧
  (∃ config, load_config env "bert-base-multilingual-cased" = Ok config ∧
             returns (load_weights env "bert-base-multilingual-cased" config)) ∧
  ∃ datasets kor_datasets train validation kor_train,
    load_from_disk env (path_join (train_data_dir self) (dense_train_dataset self))
      = Ok datasets ∧
    datasets !! "train" = Some train ∧
    datasets !! "validation" = Some validation ∧
    load_from_disk env (path_join (train_data_dir self) "kor_dataset")
      = Ok kor_datasets ∧
    kor_datasets !! "train" = Some kor_train ∧
    2 ≤ length train ∧
    (length train + length validation + length kor_train) `mod` 16 = 0.
Proof.
  destruct exec_training_args_positive as (HB & Hgas & Hep).
  split.
  - intros [[m q] Hexec]. unfold _exec_embedding in Hexec.
    apply rbind_Ok_inv in Hexec as (r & Hrun & _).
    unfold _exec_embedding_run in Hrun.
    apply rbind_Ok_inv in Hrun as ([p0 q0] & Hload & Hrun).
    apply rbind_Ok_inv in Hrun as (datasets & Hds & Hrun).
    apply rbind_Ok_inv in Hrun as (train & Htrain & Hrun).
    apply rbind_Ok_inv in Hrun as (row1 & Hrow1 & Hrun).
    apply rbind_Ok_inv in Hrun as (validation & Hval & Hrun).
    apply rbind_Ok_inv in Hrun as (kor_datasets & Hkor & Hrun).
    apply rbind_Ok_inv in Hrun as (kor_train & Hkt & Hrun).
    apply rbind_Ok_inv in Hrun as (st & Hst & _).
    destruct (_load_model_bert env self p0 q0 Hload) as (Hc & Hp & Hq).
    destruct (proj1 (_load_model_returns_iff self) (ex_intro _ _ Hload))
      as (_ & Hcuda & Hcfg).
    do 3 (split; [done|]).
    exists datasets, kor_datasets, train, validation, kor_train.
    unfold getitem_split in Htrain, Hval, Hkt.
    destruct (datasets !! "train") as [tr|]; [|discriminate].
    injection Htrain as ->.
    destruct (datasets !! "validation") as [va|]; [|discriminate].
    injection Hval as ->.
    destruct (kor_datasets !! "train") as [kt|]; [|discriminate].
    injection Hkt as ->.
    do 5 (split; [done|]). split.
    + unfold getitem_row in Hrow1.
      destruct (train !! 1) eqn:H1; [|discriminate].
      apply lookup_lt_Some in H1. lia.
    + cbn [fst snd] in Hst.
      destruct (train_run_Ok_inv env _ _ _ _ _ HB Hgas Hep Hp Hq Hst)
        as (_ & _ & Hmod & _).
      rewrite exec_dataset_length in Hmod. exact Hmod.
  - intros (Hc & Hcuda & Hcfg & datasets & kor_datasets & train & validation
            & kor_train & Hds & Htrain & Hval & Hkor & Hkt & Htwo & Hmod).
    destruct (proj2 (_load_model_returns_iff self) (conj Hc (conj Hcuda Hcfg)))
      as [[p0 q0] Hload].
    destruct (_load_model_bert env self p0 q0 Hload) as (_ & Hp & Hq).
    unfold _exec_embedding, _exec_embedding_run.
    rewrite Hload, Hds. cbn [rbind]. unfold getitem_split.
    rewrite Htrain, Hval. cbn [rbind]. unfold getitem_row.
    destruct (lookup_lt_is_Some_2 train 1 ltac:(lia)) as [row1 ->].
    cbn [rbind]. rewrite Hkor. cbn [rbind]. rewrite Hkt. cbn [rbind fst snd].
    pose proof (train_run_outcome env exec_training_args
                  (zip (tokenizer_call env
                          (ex_context <$> (train ++ validation) ++ kor_train)
                          PadMaxLength 512)
                       (tokenizer_call env
                          (ex_question <$> (train ++ validation) ++ kor_train)
                          PadLongest 512))
                  p0 q0 HB Hgas Hep Hp Hq) as Hout.
    rewrite exec_dataset_length in Hout.
    assert (Heo : epoch_outcome (length train + length validation + length kor_train)
                    (per_device_train_batch_size exec_training_args) = Completes).
    { apply epoch_outcome_Completes. split; [lia | exact Hmod]. }
    rewrite Heo in Hout. destruct Hout as (st & -> & [Hbp Hbq] & _).
    cbn [rbind].
    destruct (embed_passages_returns (p_model st) (contexts self) Hbp Hcuda)
      as [arrays Harr].
    rewrite Harr. cbn [rbind].
    destruct (embed_passages_shapes env _ _ Hbp _ Harr) as [_ Hshapes].
    destruct (np_array_returns arrays _ Hshapes) as [stacked ->].
    cbn [rbind]. by eexists.
Qed.

(** X7: What [_exec_embedding] raises on a training dataset of the wrong form,
    once the encoders are loaded: [KeyError] without a "train" split,
    [IndexError] when that split has fewer than two rows (line 167 reads
    row 1), and [KeyError] without a "validation" split. *)
Theorem exec_embedding_dataset_errors (self : Retriever)
    (encoders : Module * Module) (datasets : gmap string (list Example)) :
  _load_model env self = Ok encoders →
  load_from_disk env (path_join (train_data_dir self) (dense_train_dataset self))
    = Ok datasets →
  (datasets !! "train" = None →
   _exec_embedding env self = Raise (KeyError "train")) ∧
  (∀ train, datasets !! "train" = Some train → length train < 2 →
   _exec_embedding env self = Raise (IndexError "index out of range")) ∧
  (∀ train, datasets !! "train" = Some train → 2 ≤ length train →
   datasets !! "validation" = None →
   _exec_embedding env self = Raise (KeyError "validation")).
Proof.
  intros Hload Hds. unfold _exec_embedding, _exec_embedding_run.
  rewrite Hload, Hds. cbn [rbind]. unfold getitem_split.
  split; [|split].
  - intros ->. reflexivity.
  - intros train -> Hlen. cbn [rbind]. unfold getitem_row.
    rewrite (proj2 (lookup_ge_None train 1)) by lia. reflexivity.
  - intros train -> Hlen Hval. cbn [rbind]. unfold getitem_row.
    destruct (lookup_lt_is_Some_2 train 1 ltac:(lia)) as [row1 ->].
    cbn [rbind]. rewrite Hval. reflexivity.
Qed.

(** X8: The array that [_exec_embedding] returns holds, one after the other and
    in the order of [self.contexts], the 512 numbers that the trained
    passage encoder computes for each passage; its shape is [(n, 512)] for
    [n >= 2] passages, [(512,)] for one and [(0,)] for none. *)
Theorem exec_embedding_rows_in_order (self : Retriever) (r : ExecResult) :
  _exec_embedding_run env self = Ok r →
  shape (p_embedding r) = embedding_shape (length (contexts self)) ∧
  ∃ rows, Forall2 (embeds (p_model (trained r))) (contexts self) rows ∧
          data (p_embedding r) = concat rows.
Proof.
  intros Hrun.
  destruct (_exec_embedding_run_inv env self r Hrun)
    as (_ & _ & _ & [Hbp _] & _ & _ & _ & _ & arrays & stacked & Harr & Hstack
        & Hemb & Hshape).
  split; [exact Hshape|].
  destruct (embed_passages_rows _ _ Hbp _ Harr) as (rows & Hrows & ->).
  exists rows. split; [exact Hrows|].
  rewrite Hemb. cbn [squeeze data]. rewrite (np_array_data _ _ Hstack).
  rewrite <- list_fmap_compose. f_equal.
  clear. induction rows as [|row rows IH]; [reflexivity|].
  cbn [fmap list_fmap]. f_equal; [|exact IH].
  cbn. apply app_nil_r.
Qed.

End Coverage.

(** *** The constructors of the retriever classes
    (lines 78-81, 228-231, 246-249, 264-267)

    [DenseRetrieval.__init__] is imported; what it leaves on the object is
    kept abstract.  Loading a tokenizer reaches out to the hub or the disk,
    so the loads are recorded in the order in which they are made. *)

Inductive TokenizerClass := BertTokenizer | KoBertTokenizer | AutoTokenizer.

Section Constructors.
Context {Base Tok Args : Type}.

Record RetrieverObject := {
  ro_class : DprClass;
  ro_base : option Base;
  ro_backbone : option string;
  ro_tokenizer : option Tok
}.

Variable DenseRetrieval_init : DprClass → Args → Result Base.
Variable from_pretrained : TokenizerClass → string → Result Tok.

(** A computation that records the tokenizers it loads. *)
Definition Loads (A : Type) : Type :=
  list (TokenizerClass * string) → Result A * list (TokenizerClass * string).

Definition loads_ret {A} (a : A) : Loads A := λ log, (Ok a, log).

Definition loads_bind {A B} (m : Loads A) (k : A → Loads B) : Loads B :=
  λ log, match m log with
         | (Ok a, log') => k a log'
         | (Raise e, log') => (Raise e, log')
         end.

Definition lift {A} (r : Result A) : Loads A := λ log, (r, log).

(** [cls.from_pretrained(name)] *)
Definition tokenizer_from_pretrained (cls : TokenizerClass) (name : string)
    : Loads Tok :=
  λ log, (from_pretrained cls name, log ++ [(cls, name)]).

(** [self.backbone] *)
Definition get_backbone (self : RetrieverObject) : Loads string :=
  match ro_backbone self with
  | Some name => loads_ret name
  | None => lift (Raise (AttributeError "object has no attribute 'backbone'"))
  end.

Definition set_backbone (self : RetrieverObject) (name : string) : RetrieverObject :=
  {| ro_class := ro_class self; ro_base := ro_base self;
     ro_backbone := Some name; ro_tokenizer := ro_tokenizer self |}.

Definition set_tokenizer (self : RetrieverObject) (tok : Tok) : RetrieverObject :=
  {| ro_class := ro_class self; ro_base := ro_base self;
     ro_backbone := ro_backbone self; ro_tokenizer := Some tok |}.

(** [self.backbone = name; self.tokenizer = cls.from_pretrained(self.backbone)] *)
Definition set_backbone_and_tokenizer (self : RetrieverObject) (name : string)
    (cls : TokenizerClass) : Loads RetrieverObject :=
  let self := set_backbone self name in
  loads_bind (get_backbone self) (λ backbone,
  loads_bind (tokenizer_from_pretrained cls backbone) (λ tok,
  loads_ret (set_tokenizer self tok))).

(** Lines 78-81 *)
Definition DprRetrieval_init (self : RetrieverObject) (args : Args)
    : Loads RetrieverObject :=
  loads_bind (lift (DenseRetrieval_init (ro_class self) args)) (λ base,
  let self := {| ro_class := ro_class self; ro_base := Some base;
                 ro_backbone := ro_backbone self;
                 ro_tokenizer := ro_tokenizer self |} in
  set_backbone_and_tokenizer self "bert-base-multilingual-cased" BertTokenizer).

(** Lines 228-231 *)
Definition DprKobertRetrieval_init (self : RetrieverObject) (args : Args)
    : Loads RetrieverObject :=
  loads_bind (DprRetrieval_init self args) (λ self,
  set_backbone_and_tokenizer self "monologg/kobert" KoBertTokenizer).

(** Lines 246-249 *)
Definition DprKorquadBertRetrieval_init (self : RetrieverObject) (args : Args)
    : Loads RetrieverObject :=
  loads_bind (DprRetrieval_init self args) (λ self,
  set_backbone_and_tokenizer self
    "sangrimlee/bert-base-multilingual-cased-korquad" AutoTokenizer).

(** Lines 264-267 *)
Definition DprKoelectraRetrieval_init (self : RetrieverObject) (args : Args)
    : Loads RetrieverObject :=
  loads_bind (DprRetrieval_init self args) (λ self,
  set_backbone_and_tokenizer self
    "monologg/koelectra-base-v3-finetuned-korquad" AutoTokenizer).

(** [cls(args)] *)
Definition new_retriever (cls : DprClass) (args : Args) : Loads RetrieverObject :=
  let self := {| ro_class := cls; ro_base := None;
                 ro_backbone := None; ro_tokenizer := None |} in
  match cls with
  | DprRetrieval => DprRetrieval_init self args
  | DprKobertRetrieval => DprKobertRetrieval_init self args
  | DprKorquadBertRetrieval => DprKorquadBertRetrieval_init self args
  | DprKoelectraRetrieval => DprKoelectraRetrieval_init self args
  end.

(** The tokenizer class that each retriever class ends up with. *)
Definition tokenizer_class (cls : DprClass) : TokenizerClass :=
  match cls with
  | DprRetrieval => BertTokenizer
  | DprKobertRetrieval => KoBertTokenizer
  | DprKorquadBertRetrieval | DprKoelectraRetrieval => AutoTokenizer
  end.

(** The tokenizers that the construction of an object loads. *)
Definition tokenizer_loads (cls : DprClass) : list (TokenizerClass * string) :=
  (BertTokenizer, "bert-base-multilingual-cased") ::
  match cls with
  | DprRetrieval => []
  | _ => [(tokenizer_class cls, backbone_name cls)]
  end.

(** X9: A constructed retriever has the backbone name of its class and the
    tokenizer that the tokenizer class of its class loads for that name.
    Every subclass first runs [DprRetrieval.__init__]: it loads the
    tokenizer of "bert-base-multilingual-cased" before its own, and fails
    with the error of that first load when it fails. *)
Theorem new_retriever_spec (cls : DprClass) (args : Args) :
  (∀ self log, new_retriever cls args [] = (Ok self, log) →
     ro_class self = cls ∧
     ro_backbone self = Some (backbone_name cls) ∧
     (∃ tok, from_pretrained (tokenizer_class cls) (backbone_name cls) = Ok tok ∧
             ro_tokenizer self = Some tok) ∧
     (∃ base, DenseRetrieval_init cls args = Ok base ∧ ro_base self = Some base) ∧
     log = tokenizer_loads cls) ∧
  (∀ base e,
     DenseRetrieval_init cls args = Ok base →
     from_pretrained BertTokenizer "bert-base-multilingual-cased" = Raise e →
     new_retriever cls args []
     = (Raise e, [(BertTokenizer, "bert-base-multilingual-cased")])) ∧
  (∀ e, DenseRetrieval_init cls args = Raise e →
        new_retriever cls args [] = (Raise e, [])).
Proof.
  split; [|split].
  - intros self log Hnew.
    destruct cls; cbn in Hnew;
      unfold DprKobertRetrieval_init, DprKorquadBertRetrieval_init,
        DprKoelectraRetrieval_init, DprRetrieval_init,
        set_backbone_and_tokenizer, loads_bind, lift, get_backbone,
        tokenizer_from_pretrained, loads_ret in Hnew; cbn in Hnew;
      destruct (DenseRetrieval_init _ args) as [base|]; try discriminate;
      cbn in Hnew;
      destruct (from_pretrained BertTokenizer "bert-base-multilingual-cased")
        as [tok0|] eqn:Htok0; try discriminate;
      cbn in Hnew.
    + injection Hnew as <- <-. cbn. eauto 10.
    + destruct (from_pretrained KoBertTokenizer _) as [tok|] eqn:Htok;
        [|discriminate].
      injection Hnew as <- <-. cbn. eauto 10.
    + destruct (from_pretrained AutoTokenizer _) as [tok|] eqn:Htok;
        [|discriminate].
      injection Hnew as <- <-. cbn. eauto 10.
    + destruct (from_pretrained AutoTokenizer _) as [tok|] eqn:Htok;
        [|discriminate].
      injection Hnew as <- <-. cbn. eauto 10.
  - intros base e Hbase Htok.
    destruct cls; cbn;
      unfold DprKobertRetrieval_init, DprKorquadBertRetrieval_init,
        DprKoelectraRetrieval_init, DprRetrieval_init,
        set_backbone_and_tokenizer, loads_bind, lift, get_backbone,
        tokenizer_from_pretrained, loads_ret; cbn;
      rewrite Hbase; cbn; rewrite Htok; reflexivity.
  - intros e Hbase.
    destruct cls; cbn;
      unfold DprKobertRetrieval_init, DprKorquadBertRetrieval_init,
        DprKoelectraRetrieval_init, DprRetrieval_init, loads_bind, lift; cbn;
      rewrite Hbase; reflexivity.
Qed.

End Constructors.

(** *** The further properties on the small environment *)

Lemma BertEncoder_embeds_witness :
  ∃ m out,
    BertEncoder toy_online toy_config = Ok m ∧
    call_module toy_online m
      (tokenizer_call toy_online ["a"; "b"; "c"] PadMaxLength 512) = Ok out ∧
    has_shape 3 512 out.
Proof.
  destruct (BertEncoder_returns toy_online toy_config) as (m & Hm & _).
  destruct (BertEncoder_embeds toy_online toy_config
              (tokenizer_call toy_online ["a"; "b"; "c"] PadMaxLength 512) m
              (or_introl Hm))
    as (ms & b & l & _ & _ & _ & _ & _ & Hcall & Hshape).
  exists m, (bert_rows toy_online b l
               (tokenizer_call toy_online ["a"; "b"; "c"] PadMaxLength 512)).
  split; [exact Hm|]. split; [exact Hcall | exact Hshape].
Defined.

Lemma get_encoder_untrained_witness :
  (returns (_get_encoder toy_online (toy_self ["a"])) ↔
   returns (load_config toy_online "bert-base-multilingual-cased") ∧
   cuda_available toy_online = true) ∧
  _get_encoder (with_load_weights toy_online (λ _ _, Raise (OSError "offline")))
    (toy_self ["a"])
  = _get_encoder toy_online (toy_self ["a"]).
Proof.
  pose proof (get_encoder_untrained toy_online (toy_self ["a"]) eq_refl)
    as (Hlw & Hiff & _).
  split; [exact Hiff | apply Hlw].
Defined.

Lemma subclass_exec_embedding_never_returns_witness :
  raises (_exec_embedding toy_online (toy_retriever DprKoelectraRetrieval ["a"])) ∧
  _exec_embedding toy_online (toy_retriever DprKoelectraRetrieval ["a"])
  = Raise module_before_init.
Proof.
  pose proof (subclass_exec_embedding_never_returns toy_online
                (toy_retriever DprKoelectraRetrieval ["a"])
                ltac:(discriminate)) as [Hr He].
  split; [exact Hr|].
  apply (He toy_config); [reflexivity | by exists 1%Z].
Defined.

Lemma toy_train_returns :
  ∃ st, train_run toy_online exec_training_args (toy_dataset 32) toy_bert toy_bert
        = Ok st.
Proof.
  assert (Hc : match train_run toy_online exec_training_args (toy_dataset 32)
                       toy_bert toy_bert with
               | Ok _ => True
               | Raise _ => False
               end) by (vm_compute; exact I).
  destruct (train_run toy_online exec_training_args (toy_dataset 32)
              toy_bert toy_bert) as [st|e]; [by exists st | destruct Hc].
Qed.

Lemma train_steps_and_schedule_witness :
  ∃ st, train_run toy_online exec_training_args (toy_dataset 32) toy_bert toy_bert
        = Ok st ∧
        global_step st = 10 * dataloader_len (length (toy_dataset 32)) 16 ∧
        t_total exec_training_args (length (toy_dataset 32)) = global_step st.
Proof.
  destruct toy_train_returns as [st Hst]. exists st. split; [exact Hst|].
  destruct exec_training_args_positive as (HB & Hgas & Hep).
  pose proof (train_steps_and_schedule toy_online exec_training_args
                (toy_dataset 32) toy_bert toy_bert st
                HB Hgas Hep toy_bert_ok toy_bert_ok Hst)
    as (_ & Hgs & _ & Hiff & _).
  split; [exact Hgs | by apply Hiff].
Defined.

Lemma epoch_batches_partition_witness :
  concat (batch_sampler 2 (randperm (λ i, 2 * i) 5)) ≡ₚ seq 0 5 ∧
  length (batch_sampler 2 (randperm (λ i, 2 * i) 5)) = dataloader_len 5 2 ∧
  Forall (λ b, 0 < length b ≤ 2) (batch_sampler 2 (randperm (λ i, 2 * i) 5)).
Proof. exact (epoch_batches_partition (λ i, 2 * i) 5 2 ltac:(lia)). Defined.

(** A disk whose training split has a single row. *)
Definition toy_short : @Env Z Z nat := toy_env true (toy_disk 1 4 4).

Lemma exec_embedding_dataset_errors_witness :
  _exec_embedding toy_short (toy_self ["a"])
  = Raise (IndexError "index out of range").
Proof.
  destruct (proj2 (_load_model_returns_iff toy_short (toy_self ["a"])))
    as [encoders Hload].
  { split; [reflexivity|]. split; [reflexivity|].
    exists toy_config. split; [reflexivity | by exists 1%Z]. }
  refine (proj1 (proj2 (exec_embedding_dataset_errors toy_short (toy_self ["a"])
                          encoders
                          (py_dict [("train", toy_rows 1);
                                    ("validation", toy_rows 4)])
                          Hload _)) (toy_rows 1) _ _).
  - reflexivity.
  - reflexivity.
  - cbn. lia.
Defined.

Lemma exec_embedding_rows_in_order_witness :
  ∃ r, _exec_embedding_run toy_online (toy_self ["a"; "b"]) = Ok r ∧
       shape (p_embedding r) = [2; 512] ∧
       ∃ rows, Forall2 (embeds toy_online (p_model (trained r))) ["a"; "b"] rows ∧
               data (p_embedding r) = concat rows.
Proof.
  destruct toy_exec_returns as [r Hr]. exists r. split; [exact Hr|].
  exact (exec_embedding_rows_in_order toy_online (toy_self ["a"; "b"]) r Hr).
Defined.

(** On the small environment the conditions of [_exec_embedding] are met
    with 8 + 4 + 4 examples, and not with one example more. *)
Example exec_embedding_toy :
  returns (_exec_embedding toy_online (toy_self ["a"; "b"])) ∧
  ¬ returns (_exec_embedding (toy_env true (toy_disk 9 4 4)) (toy_self ["a"; "b"])).
Proof.
  split.
  - destruct toy_exec_returns as [r Hr]. unfold _exec_embedding. rewrite Hr.
    by eexists.
  - intros [mq Hmq]. vm_compute in Hmq. discriminate.
Qed.

End Dpr.

(** ** Effects of [prepare.py] and [run.py]

    The functions below load models and datasets, assign to attributes of
    [args] and start training runs.  They are modelled as computations over
    a state that outlives an exception, as the Python objects do. *)

Module Eff.

(** Exceptions beyond those of [PyExc]. *)
Inductive Exn : Type :=
| Builtin (e : PyExc)
| AssertionError (msg : string)
| ImportError (name from_module : string)
| ModuleNotFoundError (name : string)
| UnboundLocalError (name : string).

Inductive Res (A : Type) : Type :=
| Val (a : A)
| Exc (e : Exn).
Arguments Val {A} a.
Arguments Exc {A} e.

Definition ST (S A : Type) : Type := S → Res A * S.

#[export] Instance ST_ret {S} : MRet (ST S) := λ A a s, (Val a, s).
#[export] Instance ST_bind {S} : MBind (ST S) := λ A B k m s,
  match m s with
  | (Val a, s') => k a s'
  | (Exc e, s') => (Exc e, s')
  end.

Definition throw {S A} (e : Exn) : ST S A := λ s, (Exc e, s).
Definition lift {S A} (r : Res A) : ST S A := λ s, (r, s).
Definition get {S} : ST S S := λ s, (Val s, s).
Definition modify {S} (f : S → S) : ST S () := λ s, (Val (), f s).

Lemma bind_Val_inv {S A B} (m : ST S A) (k : A → ST S B) (s s' : S) (b : B) :
  (m ≫= k) s = (Val b, s') → ∃ a s1, m s = (Val a, s1) ∧ k a s1 = (Val b, s').
Proof.
  unfold mbind, ST_bind. intros Hb.
  destruct (m s) as [[a|e] s1]; [eauto | discriminate].
Qed.

Lemma bind_Exc {S A B} (m : ST S A) (k : A → ST S B) (s s' : S) (e : Exn) :
  m s = (Exc e, s') → (m ≫= k) s = (Exc e, s').
Proof. unfold mbind, ST_bind. by intros ->. Qed.

Lemma bind_Val {S A B} (m : ST S A) (k : A → ST S B) (s s' : S) (a : A) :
  m s = (Val a, s') → (m ≫= k) s = k a s'.
Proof. unfold mbind, ST_bind. by intros ->. Qed.

(** [needle in hay] for strings *)
Fixpoint contains (needle hay : string) : bool :=
  String.prefix needle hay ||
  match hay with
  | EmptyString => false
  | String _ rest => contains needle rest
  end.

Lemma prefix_app (p s : string) :
  String.prefix p s = true ↔ ∃ b, s = p +:+ b.
Proof.
  revert s. induction p as [|c p IH]; intros s.
  - cbn. split; [intros _; by exists s | by destruct s].
  - destruct s as [|c' s]; cbn.
    + split; [discriminate | intros [b Hb]; discriminate].
    + destruct (Ascii.ascii_dec c c') as [->|Hne].
      * rewrite IH. split; intros [b Hb]; exists b; [by rewrite Hb | by injection Hb].
      * split; [discriminate | intros [b Hb]; injection Hb; congruence].
Qed.

(** [contains] decides the presence of a substring. *)
Lemma contains_spec (needle hay : string) :
  contains needle hay = true ↔ ∃ a b, hay = a +:+ needle +:+ b.
Proof.
  induction hay as [|c hay IH]; cbn [contains].
  - rewrite orb_false_r, prefix_app. split.
    + intros [b Hb]. by exists "", b.
    + intros (a & b & Hab). destruct a; [by exists b|discriminate].
  - rewrite orb_true_iff, prefix_app, IH. split.
    + intros [[b Hb] | (a & b & Hab)].
      * by exists "", b.
      * exists (String c a), b. cbn. by rewrite Hab.
    + intros (a & b & Hab). destruct a as [|c' a].
      * left. by exists b.
      * right. cbn in Hab. injection Hab as -> Hab. by exists a, b.
Qed.

End Eff.

(** ** [prepare.py]: the reader registry and [get_reader] (lines 29-33, 72-115) *)

Module Reader.
Import Py Eff.

Inductive ReaderClass := DprReader | CustomHeadReader.

(** Lines 29-33 *)
Definition READER : gmap string ReaderClass :=
  py_dict [ ("DPR", DprReader);
            ("FC", CustomHeadReader);
            ("CNN", CustomHeadReader);
            ("LSTM", CustomHeadReader);
            ("CCNN", CustomHeadReader) ].

Definition reader_names : list string := ["DPR"; "FC"; "CNN"; "LSTM"; "CCNN"].

(** The value of an attribute that may be missing, [None] or a string. *)
Inductive Attribute :=
| Missing
| PyNone
| PyStr (s : string).

(** The attributes of [args] that [get_reader] reads. *)
Record Args {Cfg : Type} := {
  model_config_name : option string;
  model_model_name_or_path : string;
  model_reader_name : string;
  model_path : Attribute;
  args_other : Cfg
}.
Arguments Args : clear implicits.

(** The calls that reach the model hub or the disk, in the order in which
    they are made. *)
Inductive Call :=
| AutoConfig_from_pretrained (name : string)
| KoBertTokenizer_from_pretrained (name : string)
| AutoTokenizer_from_pretrained (name : string) (use_fast : bool)
| AutoModelForQuestionAnswering_from_pretrained (name : string) (from_tf : bool)
| AutoModel_from_pretrained (name : string) (from_tf : bool)
    (add_pooling_layer : option bool).

Section GetReader.
Context {Cfg Config Tokenizer Model EvalAnswers R : Type}.

(** The imported loaders and reader classes. *)
Record Env := {
  load_config : string → Res Config;
  load_kobert_tokenizer : string → Res Tokenizer;
  load_auto_tokenizer : string → bool → Res Tokenizer;
  load_qa_model : string → bool → Config → Res Model;
  load_auto_model : string → bool → Config → option bool → Res Model;
  reader_init : ReaderClass → Args Cfg → Model → Tokenizer → EvalAnswers → Res R
}.

Variable env : Env.

Definition M (A : Type) : Type := ST (list Call) A.

(** A call of a loader: it is recorded, then its outcome is the loader's. *)
Definition call {A} (c : Call) (r : Res A) : M A :=
  λ log, (r, log ++ [c]).

Definition custom_head_not_implemented : Exn :=
  Builtin (ValueError "BERT/ELECTRA 외 모델에 대한 Custom head model 미구현").

(** [args.model_path or args.model.model_name_or_path] *)
Definition model_path_or_name (args : Args Cfg) : M string :=
  match model_path args with
  | Missing => throw (Builtin (AttributeError "model_path"))
  | PyNone => mret (model_model_name_or_path args)
  | PyStr s => mret (if bool_decide (s = "") then model_model_name_or_path args else s)
  end.

(** [READER[name]] *)
Definition READER_getitem (name : string) : M ReaderClass :=
  match READER !! name with
  | Some c => mret c
  | None => throw (Builtin (KeyError name))
  end.

(** Lines 87-89; [None] and the empty string are false. *)
Definition get_config (args : Args Cfg) : M Config :=
  let name := match model_config_name args with
              | Some s => if bool_decide (s = "")
                          then model_model_name_or_path args else s
              | None => model_model_name_or_path args
              end in
  call (AutoConfig_from_pretrained name) (load_config env name).

(** Lines 91-95 *)
Definition get_tokenizer (args : Args Cfg) : M Tokenizer :=
  let name := model_model_name_or_path args in
  if bool_decide (name ∈ ["monologg/kobert"; "monologg/distilkobert"]) then
    path ← model_path_or_name args;
    call (KoBertTokenizer_from_pretrained path) (load_kobert_tokenizer env path)
  else
    call (AutoTokenizer_from_pretrained name true) (load_auto_tokenizer env name true).

(** Lines 97-111 *)
Definition get_model (args : Args Cfg) (config : Config) : M Model :=
  let name := model_model_name_or_path args in
  let from_tf := contains ".ckpt" name in
  if bool_decide (model_reader_name args = "DPR") then
    call (AutoModelForQuestionAnswering_from_pretrained name from_tf)
         (load_qa_model env name from_tf config)
  else if contains "bert" name then
    call (AutoModel_from_pretrained name from_tf (Some false))
         (load_auto_model env name from_tf config (Some false))
  else if contains "electra" name then
    call (AutoModel_from_pretrained name from_tf None)
         (load_auto_model env name from_tf config None)
  else throw custom_head_not_implemented.

Definition get_reader (args : Args Cfg) (eval_answers : EvalAnswers) : M R :=
  config ← get_config args;
  tokenizer ← get_tokenizer args;
  model ← get_model args config;
  cls ← READER_getitem (model_reader_name args);
  lift (reader_init env cls args model tokenizer eval_answers).

(** *** The registry *)

Lemma READER_unfold :
  READER =
  <["CCNN" := CustomHeadReader]> (<["LSTM" := CustomHeadReader]>
  (<["CNN" := CustomHeadReader]> (<["FC" := CustomHeadReader]>
  (<["DPR" := DprReader]> ∅)))).
Proof. reflexivity. Qed.

Lemma READER_dom : dom READER = list_to_set reader_names.
Proof.
  rewrite READER_unfold, !dom_insert_L, dom_empty_L.
  unfold reader_names. simpl. set_solver.
Qed.

Lemma READER_lookup (name : string) :
  READER !! name =
  if bool_decide (name = "DPR") then Some DprReader
  else if bool_decide (name ∈ reader_names) then Some CustomHeadReader
  else None.
Proof.
  rewrite READER_unfold. unfold reader_names.
  destruct (decide (name = "CCNN")) as [->|H1]; [reflexivity|].
  destruct (decide (name = "LSTM")) as [->|H2]; [reflexivity|].
  destruct (decide (name = "CNN")) as [->|H3]; [reflexivity|].
  destruct (decide (name = "FC")) as [->|H4]; [reflexivity|].
  destruct (decide (name = "DPR")) as [->|H5]; [reflexivity|].
  repeat (rewrite lookup_insert_ne by done). rewrite lookup_empty.
  rewrite bool_decide_eq_false_2 by done.
  rewrite bool_decide_eq_false_2; [reflexivity|].
  intros Hin. repeat (apply elem_of_cons in Hin as [->|Hin]; [done|]).
  by apply elem_of_nil in Hin.
Qed.

(** The name that the configuration is loaded from. *)
Definition config_source (args : Args Cfg) : string :=
  match model_config_name args with
  | Some s => if bool_decide (s = "") then model_model_name_or_path args else s
  | None => model_model_name_or_path args
  end.

Definition is_kobert (args : Args Cfg) : bool :=
  bool_decide (model_model_name_or_path args
               ∈ ["monologg/kobert"; "monologg/distilkobert"]).

(** The backbone names for which a reader can be built. *)
Definition backbone_supported (args : Args Cfg) : bool :=
  bool_decide (model_reader_name args = "DPR")
  || contains "bert" (model_model_name_or_path args)
  || contains "electra" (model_model_name_or_path args).

(** The call that loads the model, for a supported backbone. *)
Definition model_call (args : Args Cfg) : Call :=
  let name := model_model_name_or_path args in
  let from_tf := contains ".ckpt" name in
  if bool_decide (model_reader_name args = "DPR") then
    AutoModelForQuestionAnswering_from_pretrained name from_tf
  else
    AutoModel_from_pretrained name from_tf
      (if contains "bert" name then Some false else None).

Lemma get_config_run (args : Args Cfg) (log : list Call) :
  get_config args log
  = (load_config env (config_source args),
     log ++ [AutoConfig_from_pretrained (config_source args)]).
Proof. reflexivity. Qed.

Lemma get_model_run (args : Args Cfg) (config : Config) (log : list Call) :
  (backbone_supported args = true →
   ∃ r, get_model args config log = (r, log ++ [model_call args])) ∧
  (backbone_supported args = false →
   get_model args config log = (Exc custom_head_not_implemented, log)).
Proof.
  unfold backbone_supported, get_model, model_call. cbv zeta.
  destruct (bool_decide (model_reader_name args = "DPR")); cbn [orb].
  - split; [intros _; by eexists | discriminate].
  - destruct (contains "bert" _); cbn [orb].
    + split; [intros _; by eexists | discriminate].
    + destruct (contains "electra" _).
      * split; [intros _; by eexists | discriminate].
      * split; [discriminate | reflexivity].
Qed.

Lemma get_tokenizer_log (args : Args Cfg) (log log' : list Call)
    (tokenizer : Tokenizer) :
  get_tokenizer args log = (Val tokenizer, log') →
  ∃ c, log' = log ++ [c] ∧
    if is_kobert args then ∃ path, c = KoBertTokenizer_from_pretrained path
    else c = AutoTokenizer_from_pretrained (model_model_name_or_path args) true.
Proof.
  unfold get_tokenizer, is_kobert. cbv zeta.
  destruct (bool_decide _).
  - unfold model_path_or_name, mbind, ST_bind.
    destruct (model_path args) as [| |s]; cbn.
    + discriminate.
    + intros [= _ <-]. eauto.
    + intros [= _ <-]. eauto.
  - intros [= _ <-]. eauto.
Qed.

(** X13: With a reader name that is not registered, [get_reader] never returns,
    and it finds out late: the configuration, the tokenizer and, for a
    BERT or ELECTRA backbone, the model are loaded first, and only then
    [READER[...]] raises [KeyError]; for any other backbone it is the
    [ValueError] of the custom head that is raised, after two loads. *)
Theorem get_reader_unknown_reader (args : Args Cfg) (eval_answers : EvalAnswers)
    (log : list Call) :
  model_reader_name args ∉ reader_names →
  (∀ r log', get_reader args eval_answers log ≠ (Val r, log')) ∧
  (∀ config tokenizer log2,
     load_config env (config_source args) = Val config →
     get_tokenizer args (log ++ [AutoConfig_from_pretrained (config_source args)])
       = (Val tokenizer, log2) →
     if backbone_supported args then
       ∀ model, get_model args config log2 = (Val model, log2 ++ [model_call args]) →
         get_reader args eval_answers log
         = (Exc (Builtin (KeyError (model_reader_name args))),
            log2 ++ [model_call args])
     else
       get_reader args eval_answers log = (Exc custom_head_not_implemented, log2)).
Proof.
  intros Hn.
  assert (Hnone : READER !! model_reader_name args = None).
  { rewrite READER_lookup.
    assert (model_reader_name args ≠ "DPR").
    { intros Heq. apply Hn. rewrite Heq. unfold reader_names. in_list. }
    by rewrite !bool_decide_eq_false_2. }
  split.
  - intros r log' Hget. unfold get_reader in Hget.
    apply bind_Val_inv in Hget as (config & l1 & _ & Hget).
    apply bind_Val_inv in Hget as (tokenizer & l2 & _ & Hget).
    apply bind_Val_inv in Hget as (model & l3 & _ & Hget).
    apply bind_Val_inv in Hget as (cls & l4 & Hcls & _).
    unfold READER_getitem in Hcls. rewrite Hnone in Hcls. discriminate.
  - intros config tokenizer log2 Hcfg Htok. unfold get_reader.
    rewrite (bind_Val _ _ _ _ _ (eq_trans (get_config_run args log)
                                   (f_equal (λ r, (r, _)) Hcfg))).
    rewrite (bind_Val _ _ _ _ _ Htok).
    destruct (backbone_supported args) eqn:Hsup.
    + intros model Hmodel. rewrite (bind_Val _ _ _ _ _ Hmodel).
      apply bind_Exc. unfold READER_getitem. by rewrite Hnone.
    + apply bind_Exc. by apply get_model_run.
Qed.

(** X14: When [get_reader] returns, three loads have been made, in this order:
    the configuration, the tokenizer, the model.  The model is an
    [AutoModelForQuestionAnswering] exactly for the reader "DPR", which is
    also the only name that selects [DprReader]; for the other readers it
    is the bare [AutoModel], without pooling layer when the name of the
    backbone contains "bert", and the backbone must be a BERT or an
    ELECTRA. *)
Theorem get_reader_returns (args : Args Cfg) (eval_answers : EvalAnswers)
    (log log' : list Call) (r : R) :
  get_reader args eval_answers log = (Val r, log') →
  ∃ config tokenizer model cls tokenizer_call,
    load_config env (config_source args) = Val config ∧
    READER !! model_reader_name args = Some cls ∧
    (cls = DprReader ↔ model_reader_name args = "DPR") ∧
    backbone_supported args = true ∧
    reader_init env cls args model tokenizer eval_answers = Val r ∧
    (if is_kobert args then ∃ path, tokenizer_call = KoBertTokenizer_from_pretrained path
     else tokenizer_call
          = AutoTokenizer_from_pretrained (model_model_name_or_path args) true) ∧
    log' = log ++ [AutoConfig_from_pretrained (config_source args);
                   tokenizer_call; model_call args].
Proof.
  intros Hget. unfold get_reader in Hget.
  apply bind_Val_inv in Hget as (config & l1 & Hcfg & Hget).
  apply bind_Val_inv in Hget as (tokenizer & l2 & Htok & Hget).
  apply bind_Val_inv in Hget as (model & l3 & Hmodel & Hget).
  apply bind_Val_inv in Hget as (cls & l4 & Hcls & Hinit).
  rewrite get_config_run in Hcfg. injection Hcfg as Hcfg Hl1.
  unfold READER_getitem in Hcls.
  destruct (READER !! model_reader_name args) as [cls'|] eqn:Hreg; [|discriminate].
  injection Hcls as Hcls' Hl4.
  unfold lift in Hinit. injection Hinit as Hinit Hlog'.
  destruct (backbone_supported args) eqn:Hsup.
  2:{ rewrite (proj2 (get_model_run args config l2) Hsup) in Hmodel. discriminate. }
  destruct (proj1 (get_model_run args config l2) Hsup) as [rm Hrm].
  rewrite Hrm in Hmodel. injection Hmodel as Hrm' Hl3.
  destruct (get_tokenizer_log _ _ _ _ Htok) as (c & Hl2 & Hc).
  subst. exists config, tokenizer, model, cls, c.
  split; [exact Hcfg|]. split; [reflexivity|]. split.
  { rewrite READER_lookup in Hreg. case_bool_decide as Hd.
    - injection Hreg as <-. done.
    - case_bool_decide; [|discriminate]. injection Hreg as <-. done. }
  split; [reflexivity|]. split; [exact Hinit|]. split; [exact Hc|].
  rewrite <- !app_assoc. reflexivity.
Qed.

(** X15: For the two KoBERT names the tokenizer path is read from
    [args.model_path], an attribute of [args] itself: when [args] has no
    such attribute, [get_reader] ends with [AttributeError] once the
    configuration is loaded, before any tokenizer or model is. *)
Theorem get_reader_kobert_model_path (args : Args Cfg) (eval_answers : EvalAnswers)
    (log : list Call) :
  is_kobert args = true → model_path args = Missing →
  get_reader args eval_answers log =
  (match load_config env (config_source args) with
   | Val _ => Exc (Builtin (AttributeError "model_path"))
   | Exc e => Exc e
   end,
   log ++ [AutoConfig_from_pretrained (config_source args)]).
Proof.
  intros Hk Hmiss. unfold get_reader.
  destruct (load_config env (config_source args)) as [config|e] eqn:Hcfg.
  - rewrite (bind_Val _ _ _ _ _ (eq_trans (get_config_run args log)
                                   (f_equal (λ r, (r, _)) Hcfg))).
    apply bind_Exc. unfold get_tokenizer. cbv zeta.
    unfold is_kobert in Hk. rewrite Hk.
    apply bind_Exc. unfold model_path_or_name. rewrite Hmiss. reflexivity.
  - apply bind_Exc. rewrite get_config_run, Hcfg. reflexivity.
Qed.

End GetReader.

(** *** A small environment *)

Definition reader_env : @Env () string string string () string :=
  {| load_config := λ name, Val ("config of " +:+ name);
     load_kobert_tokenizer := λ name, Val ("KoBertTokenizer of " +:+ name);
     load_auto_tokenizer := λ name _, Val ("AutoTokenizer of " +:+ name);
     load_qa_model := λ name _ _, Val ("QA model " +:+ name);
     load_auto_model := λ name _ _ _, Val ("model " +:+ name);
     reader_init := λ cls _ model _ _,
       Val (match cls with
            | DprReader => "DprReader on " +:+ model
            | CustomHeadReader => "CustomHeadReader on " +:+ model
            end) |}.

Definition reader_args (name reader : string) (path : Attribute) : Args () :=
  {| model_config_name := None;
     model_model_name_or_path := name;
     model_reader_name := reader;
     model_path := path;
     args_other := () |}.

Lemma get_reader_unknown_reader_witness :
  get_reader reader_env (reader_args "bert-base-multilingual-cased" "GRU" PyNone) () []
  = (Exc (Builtin (KeyError "GRU")),
     [AutoConfig_from_pretrained "bert-base-multilingual-cased";
      AutoTokenizer_from_pretrained "bert-base-multilingual-cased" true;
      AutoModel_from_pretrained "bert-base-multilingual-cased" false (Some false)]).
Proof.
  refine (proj2 (get_reader_unknown_reader reader_env
                   (reader_args "bert-base-multilingual-cased" "GRU" PyNone) () [] _)
            "config of bert-base-multilingual-cased"
            "AutoTokenizer of bert-base-multilingual-cased"
            [AutoConfig_from_pretrained "bert-base-multilingual-cased";
             AutoTokenizer_from_pretrained "bert-base-multilingual-cased" true]
            _ _ "model bert-base-multilingual-cased" _).
  - unfold reader_names. not_in_list.
  - reflexivity.
  - reflexivity.
  - reflexivity.
Defined.

Lemma get_reader_returns_witness :
  ∃ cls, READER !! "LSTM" = Some cls ∧ (cls = DprReader ↔ "LSTM" = "DPR").
Proof.
  destruct (get_reader_returns reader_env
              (reader_args "monologg/koelectra-small-v3-discriminator" "LSTM" PyNone)
              () [] _ _ eq_refl)
    as (config & tokenizer & model & cls & tokenizer_call & _ & Hreg & Hiff & _).
  exists cls. split; [exact Hreg | exact Hiff].
Defined.

Lemma get_reader_kobert_model_path_witness :
  get_reader reader_env (reader_args "monologg/kobert" "DPR" Missing) () []
  = (Exc (Builtin (AttributeError "model_path")),
     [AutoConfig_from_pretrained "monologg/kobert"]).
Proof.
  exact (get_reader_kobert_model_path reader_env
           (reader_args "monologg/kobert" "DPR" Missing) () [] eq_refl eq_refl).
Defined.

(** A KoBERT backbone with a custom head: the KoBERT tokenizer, and the
    model without its pooling layer. *)
Example get_reader_kobert_custom_head :
  get_reader reader_env (reader_args "monologg/kobert" "CNN" (PyStr "")) () []
  = (Val "CustomHeadReader on model monologg/kobert",
     [AutoConfig_from_pretrained "monologg/kobert";
      KoBertTokenizer_from_pretrained "monologg/kobert";
      AutoModel_from_pretrained "monologg/kobert" false (Some false)]).
Proof. reflexivity. Qed.

End Reader.

(** ** [prepare.py]: [get_dataset] and [concatenate_datasets_with_ratio]
    (lines 118-180) *)

Module Datasets.
Import Py Eff.

(** [s.split(sep)] for a separator of one character: the pieces between
    the occurrences of the separator, empty pieces included. *)
Fixpoint split (sep : Ascii.ascii) (s : string) : list string :=
  match s with
  | EmptyString => [EmptyString]
  | String c rest =>
      if Ascii.eqb c sep then EmptyString :: split sep rest
      else match split sep rest with
           | [] => [String c EmptyString]
           | piece :: pieces => String c piece :: pieces
           end
  end.

Definition comma : Ascii.ascii := Ascii.ascii_of_nat 44.

(** A Python number. *)
Inductive Num :=
| PyInt (z : Z)
| PyFloat (q : Q).

(** The attributes of [args] that the two functions read; they assign to
    [args.train.num_train_epochs], which is part of the state. *)
Record Args := {
  data_dataset_name : string;
  data_sub_datasets : string;
  data_sub_datasets_ratio : string;
  path_train_data_dir : string;
  debug : bool
}.

Inductive Load :=
| load_from_disk_call (path : string)
| load_dataset_call (name : string).

Record State := {
  train_num_train_epochs : Num;
  loads : list Load
}.

Section GetDataset.

(** Datasets, their features and the ratios read from the configuration
    are those of the libraries. *)
Context {D Feat Ratio : Type}.

Record Env := {
  load_from_disk : string → Res (gmap string D);
  load_dataset : string → Res (gmap string D);
  path_exists : string → bool;
  py_float : string → Res Ratio;
  int_of_scaled : nat → Ratio → Res Z;
  ds_len : D → nat;
  ds_features : D → Feat;
  select_range : D → nat → Res D;
  recast : D → Feat → Res D;
  flatten_indices : D → Res D;
  concatenate_datasets : list D → Res D
}.

Variable env : Env.

Definition M (A : Type) : Type := ST State A.

Definition record_load (l : Load) : M () :=
  modify (λ s, {| train_num_train_epochs := train_num_train_epochs s;
                  loads := loads s ++ [l] |}).

(** [load_from_disk(path)] *)
Definition call_load_from_disk (path : string) : M (gmap string D) :=
  _ ← record_load (load_from_disk_call path);
  lift (load_from_disk env path).

(** [load_dataset(name)] *)
Definition call_load_dataset (name : string) : M (gmap string D) :=
  _ ← record_load (load_dataset_call name);
  lift (load_dataset env name).

(** [args.train.num_train_epochs = v] *)
Definition set_num_train_epochs (v : Num) : M () :=
  modify (λ s, {| train_num_train_epochs := v; loads := loads s |}).

(** [datasets[split]] *)
Definition getitem (datasets : gmap string D) (name : string) : M D :=
  match datasets !! name with
  | Some d => mret d
  | None => throw (Builtin (KeyError name))
  end.

(** The body of the loop, lines 160-175.  [int_of_scaled n ratio] is
    [int(n * ratio)], [select_range d k] is [d.select(range(k))] and
    [recast d features] is
    [Dataset.from_pandas(d.to_pandas(), features=features)]. *)
Definition add_sub_dataset (args : Args) (concatenate_list : list D)
    (sub_dataset_name ratio : string) : M (list D * Feat) :=
  ratio ← lift (py_float env ratio);
  let sub_dataset_path := Dpr.path_join (path_train_data_dir args) sub_dataset_name in
  if negb (path_exists env sub_dataset_path) then
    throw (AssertionError (sub_dataset_name +:+ "이 존재하지 않습니다."))
  else
    sub_dataset ← call_load_from_disk sub_dataset_path;
    sub_train ← getitem sub_dataset "train";
    sub_dataset_len ← lift (int_of_scaled env (ds_len env sub_train) ratio);
    let features := ds_features env sub_train in
    new_sub_dataset ← lift (select_range env sub_train (Z.to_nat sub_dataset_len));
    new_sub_dataset ← lift (recast env new_sub_dataset features);
    flat ← lift (flatten_indices env new_sub_dataset);
    mret (concatenate_list ++ [flat], features).

(** The loop of lines 159-175: the list built so far, and [features] once
    it has been assigned. *)
Fixpoint sub_datasets_loop (args : Args) (pairs : list (string * string))
    (concatenate_list : list D) (features : option Feat)
    : M (list D * option Feat) :=
  match pairs with
  | [] => mret (concatenate_list, features)
  | (sub_dataset_name, ratio) :: rest =>
      r ← add_sub_dataset args concatenate_list sub_dataset_name ratio;
      sub_datasets_loop args rest r.1 (Some r.2)
  end.

(** The pairs that the loop iterates over, line 159. *)
Definition sub_dataset_pairs (args : Args) : list (string * string) :=
  zip (split comma (data_sub_datasets args))
      (split comma (data_sub_datasets_ratio args)).

(** Lines 156-180 *)
Definition concatenate_datasets_with_ratio (args : Args) (train_dataset : D) : M D :=
  r ← sub_datasets_loop args (sub_dataset_pairs args) [] None;
  match r.2 with
  | None => throw (UnboundLocalError "features")
  | Some features =>
      train_dataset ← lift (recast env train_dataset features);
      flat ← lift (flatten_indices env train_dataset);
      lift (concatenate_datasets env (flat :: r.1))
  end.

Definition no_such_dataset (name : string) : Exn :=
  Builtin (KeyError (name +:+ "데이터는 존재하지 않습니다.")).

(** Lines 128-137 *)
Definition load_named (args : Args) (is_train : bool) : M (option (gmap string D)) :=
  if bool_decide (data_dataset_name args = "train_dataset") then
    if is_train then
      datasets ← call_load_from_disk
                   (Dpr.path_join (path_train_data_dir args) (data_dataset_name args));
      mret (Some datasets)
    else
      datasets ← call_load_from_disk
                   (Dpr.path_join (path_train_data_dir args) "test_dataset");
      mret (Some datasets)
  else if bool_decide (data_dataset_name args = "squad_kor_v1") then
    datasets ← call_load_dataset (data_dataset_name args);
    mret (Some datasets)
  else mret None.

(** Lines 118-153 *)
Definition get_dataset (args : Args) (is_train : bool) : M (gmap string D) :=
  datasets ← load_named args is_train;
  match datasets with
  | None => throw (no_such_dataset (data_dataset_name args))
  | Some datasets =>
      datasets ←
        (if negb (bool_decide (data_sub_datasets args = "")) && is_train then
           train ← getitem datasets "train";
           train ← concatenate_datasets_with_ratio args train;
           mret (<["train" := train]> datasets)
         else mret datasets);
      datasets ←
        (if debug args then
           _ ← set_num_train_epochs (PyFloat 1);
           train ← getitem datasets "train";
           train ← lift (select_range env train 100);
           mret (<["train" := train]> datasets)
         else mret datasets);
      _ ← (if is_train then _ ← getitem datasets "train"; mret () else mret ());
      _ ← getitem datasets "validation";
      mret datasets
  end.

(** *** [split] and the pairs of the loop *)

Lemma split_nonempty (sep : Ascii.ascii) (s : string) : split sep s ≠ [].
Proof.
  destruct s as [|c rest]; cbn; [done|].
  destruct (Ascii.eqb c sep); [done|]. by destruct (split sep rest).
Qed.

Lemma zip_fst_take {A B} (l : list A) (k : list B) :
  (zip l k).*1 = take (length l `min` length k) l.
Proof.
  revert k. induction l as [|x l IH]; intros [|y k]; cbn; try done.
  by rewrite IH.
Qed.

Lemma sub_dataset_pairs_length (args : Args) :
  length (sub_dataset_pairs args)
  = length (split comma (data_sub_datasets args))
    `min` length (split comma (data_sub_datasets_ratio args)) ∧
  1 ≤ length (sub_dataset_pairs args).
Proof.
  unfold sub_dataset_pairs. rewrite length_zip_with. split; [reflexivity|].
  pose proof (split_nonempty comma (data_sub_datasets args)).
  pose proof (split_nonempty comma (data_sub_datasets_ratio args)).
  destruct (split comma (data_sub_datasets args)),
    (split comma (data_sub_datasets_ratio args)); cbn; try done; lia.
Qed.

(** *** The loop *)

Definition sub_dataset_load (args : Args) (name : string) : Load :=
  load_from_disk_call (Dpr.path_join (path_train_data_dir args) name).

Lemma record_load_run (l : Load) (s : State) :
  record_load l s
  = (Val (), {| train_num_train_epochs := train_num_train_epochs s;
                loads := loads s ++ [l] |}).
Proof. reflexivity. Qed.

Lemma lift_Val_inv {A} (r : Res A) (s s' : State) (a : A) :
  lift r s = (Val a, s') → r = Val a ∧ s' = s.
Proof. unfold lift. by intros [= -> <-]. Qed.

Lemma getitem_Val_inv (datasets : gmap string D) (name : string) (s s' : State)
    (d : D) :
  getitem datasets name s = (Val d, s') → datasets !! name = Some d ∧ s' = s.
Proof.
  unfold getitem. destruct (datasets !! name); [|discriminate].
  by intros [= -> <-].
Qed.

Lemma call_load_from_disk_Val_inv (path : string) (s s' : State)
    (datasets : gmap string D) :
  call_load_from_disk path s = (Val datasets, s') →
  load_from_disk env path = Val datasets ∧
  train_num_train_epochs s' = train_num_train_epochs s ∧
  loads s' = loads s ++ [load_from_disk_call path].
Proof.
  unfold call_load_from_disk. intros Hc.
  apply bind_Val_inv in Hc as ([] & s1 & Hrec & Hl).
  rewrite record_load_run in Hrec. injection Hrec as <-.
  apply lift_Val_inv in Hl as [-> ->]. done.
Qed.

(** What one turn of the loop has done when it completes. *)
Lemma add_sub_dataset_Val_inv (args : Args) (concatenate_list : list D)
    (sub_dataset_name ratio : string) (s s' : State) (r : list D * Feat) :
  add_sub_dataset args concatenate_list sub_dataset_name ratio s = (Val r, s') →
  train_num_train_epochs s' = train_num_train_epochs s ∧
  loads s' = loads s ++ [sub_dataset_load args sub_dataset_name] ∧
  ∃ sub_dataset sub_train flat,
    load_from_disk env (Dpr.path_join (path_train_data_dir args) sub_dataset_name)
      = Val sub_dataset ∧
    sub_dataset !! "train" = Some sub_train ∧
    r = (concatenate_list ++ [flat], ds_features env sub_train).
Proof.
  unfold add_sub_dataset. intros Hadd.
  apply bind_Val_inv in Hadd as (rat & s1 & Hrat & Hadd).
  apply lift_Val_inv in Hrat as [_ ->].
  destruct (negb (path_exists env _)); [discriminate|].
  apply bind_Val_inv in Hadd as (sub_dataset & s2 & Hload & Hadd).
  apply call_load_from_disk_Val_inv in Hload as (Hload & He & Hl).
  apply bind_Val_inv in Hadd as (sub_train & s3 & Htrain & Hadd).
  apply getitem_Val_inv in Htrain as [Htrain ->].
  apply bind_Val_inv in Hadd as (len & s4 & Hlen & Hadd).
  apply lift_Val_inv in Hlen as [_ ->].
  apply bind_Val_inv in Hadd as (d1 & s5 & Hd1 & Hadd).
  apply lift_Val_inv in Hd1 as [_ ->].
  apply bind_Val_inv in Hadd as (d2 & s6 & Hd2 & Hadd).
  apply lift_Val_inv in Hd2 as [_ ->].
  apply bind_Val_inv in Hadd as (flat & s7 & Hflat & Hadd).
  apply lift_Val_inv in Hflat as [_ ->].
  injection Hadd as <- <-.
  split; [exact He|]. split; [exact Hl|]. eauto 10.
Qed.

Lemma sub_datasets_loop_Val_inv (args : Args) (pairs : list (string * string)) :
  ∀ concatenate_list features s s' r,
  sub_datasets_loop args pairs concatenate_list features s = (Val r, s') →
  train_num_train_epochs s' = train_num_train_epochs s ∧
  loads s' = loads s ++ (sub_dataset_load args <$> pairs.*1) ∧
  length r.1 = length concatenate_list + length pairs ∧
  match last pairs with
  | None => r.2 = features
  | Some (last_name, _) =>
      ∃ sub_dataset sub_train,
        load_from_disk env (Dpr.path_join (path_train_data_dir args) last_name)
          = Val sub_dataset ∧
        sub_dataset !! "train" = Some sub_train ∧
        r.2 = Some (ds_features env sub_train)
  end.
Proof.
  induction pairs as [|[name ratio] rest IH];
    intros concatenate_list features s s' r Hloop.
  - injection Hloop as <- <-. cbn. rewrite app_nil_r. repeat split; lia.
  - cbn [sub_datasets_loop] in Hloop.
    apply bind_Val_inv in Hloop as (r1 & s1 & Hadd & Hloop).
    apply add_sub_dataset_Val_inv in Hadd
      as (He1 & Hl1 & sub_dataset & sub_train & flat & Hload & Htrain & ->).
    apply IH in Hloop as (He & Hl & Hlen & Hlast). cbn [fst snd] in Hlen, Hlast, Hl.
    split; [congruence|]. split.
    { rewrite Hl, Hl1, <- app_assoc. reflexivity. }
    split.
    { rewrite Hlen, length_app. cbn. lia. }
    destruct rest as [|p rest'].
    + cbn in Hlast |- *. eauto.
    + rewrite last_cons_cons.
      destruct (last (p :: rest')) as [[last_name last_ratio]|] eqn:Hlp;
        [exact Hlast | by apply last_None in Hlp].
Qed.

(** The loads of [concatenate_datasets_with_ratio]. *)
Lemma concatenate_datasets_with_ratio_state (args : Args) (train_dataset : D)
    (s s' : State) (d : D) :
  concatenate_datasets_with_ratio args train_dataset s = (Val d, s') →
  train_num_train_epochs s' = train_num_train_epochs s ∧
  loads s' = loads s ++ (sub_dataset_load args <$> (sub_dataset_pairs args).*1).
Proof.
  intros Hcat. unfold concatenate_datasets_with_ratio in Hcat.
  apply bind_Val_inv in Hcat as ([subs features] & s1 & Hloop & Hcat).
  apply sub_datasets_loop_Val_inv in Hloop as (He & Hl & _ & _).
  cbn [snd] in Hcat. destruct features as [features|]; [|discriminate].
  apply bind_Val_inv in Hcat as (recasted & s2 & Hre & Hcat).
  apply lift_Val_inv in Hre as [_ ->].
  apply bind_Val_inv in Hcat as (flat & s3 & Hflat & Hcat).
  apply lift_Val_inv in Hflat as [_ ->].
  apply lift_Val_inv in Hcat as [_ ->]. done.
Qed.

(** X16: [concatenate_datasets_with_ratio] pairs the comma-separated names with
    the comma-separated ratios and stops at the shorter list: surplus names
    or ratios are ignored.  Both lists have at least one entry, so the loop
    runs at least once and [features] is bound when line 177 reads it.
    When the function returns, exactly the first [k] sub-datasets have been
    loaded, in order, the training set has been cast to the features of the
    last of them, and it comes first in the concatenation. *)
Theorem concatenate_datasets_with_ratio_spec (args : Args) (train_dataset : D)
    (s s' : State) (d : D) :
  concatenate_datasets_with_ratio args train_dataset s = (Val d, s') →
  let names := split comma (data_sub_datasets args) in
  let ratios := split comma (data_sub_datasets_ratio args) in
  let k := length names `min` length ratios in
  1 ≤ k ∧
  loads s' = loads s ++ (sub_dataset_load args <$> take k names) ∧
  train_num_train_epochs s' = train_num_train_epochs s ∧
  ∃ last_name sub_dataset sub_train recasted flat subs,
    last (take k names) = Some last_name ∧
    load_from_disk env (Dpr.path_join (path_train_data_dir args) last_name)
      = Val sub_dataset ∧
    sub_dataset !! "train" = Some sub_train ∧
    recast env train_dataset (ds_features env sub_train) = Val recasted ∧
    flatten_indices env recasted = Val flat ∧
    length subs = k ∧
    concatenate_datasets env (flat :: subs) = Val d.
Proof.
  intros Hcat names ratios k.
  destruct (sub_dataset_pairs_length args) as [Hk H1].
  fold names ratios k in Hk.
  unfold concatenate_datasets_with_ratio in Hcat.
  apply bind_Val_inv in Hcat as ([subs features] & s1 & Hloop & Hcat).
  apply sub_datasets_loop_Val_inv in Hloop as (He & Hl & Hlen & Hlast).
  cbn [fst snd] in *.
  assert (Hfst : (sub_dataset_pairs args).*1 = take k names).
  { unfold sub_dataset_pairs. apply zip_fst_take. }
  split; [lia|].
  destruct (last (sub_dataset_pairs args)) as [[last_name last_ratio]|] eqn:Hlp.
  2:{ apply last_None in Hlp. rewrite Hlp in H1. cbn in H1. lia. }
  destruct Hlast as (sub_dataset & sub_train & Hload & Htrain & ->).
  apply bind_Val_inv in Hcat as (recasted & s2 & Hre & Hcat).
  apply lift_Val_inv in Hre as [Hre ->].
  apply bind_Val_inv in Hcat as (flat & s3 & Hflat & Hcat).
  apply lift_Val_inv in Hflat as [Hflat ->].
  apply lift_Val_inv in Hcat as [Hcat ->].
  split; [by rewrite Hl, Hfst|]. split; [exact He|].
  exists last_name, sub_dataset, sub_train, recasted, flat, subs.
  split.
  { rewrite <- Hfst, fmap_last, Hlp. reflexivity. }
  repeat (split; [done|]). split; [|done].
  rewrite Hlen, Hk. reflexivity.
Qed.

(** *** [get_dataset] *)

Definition known_datasets : list string := ["train_dataset"; "squad_kor_v1"].

(** The load that [get_dataset] starts with. *)
Definition first_load (args : Args) (is_train : bool) : Load :=
  if bool_decide (data_dataset_name args = "train_dataset") then
    load_from_disk_call
      (Dpr.path_join (path_train_data_dir args)
         (if is_train then "train_dataset" else "test_dataset"))
  else load_dataset_call "squad_kor_v1".

(** X17: With a dataset name other than "train_dataset" and "squad_kor_v1",
    [get_dataset] raises [KeyError] without loading anything and without
    touching [args]. *)
Theorem get_dataset_unknown_name (args : Args) (is_train : bool) (s : State) :
  data_dataset_name args ∉ known_datasets →
  get_dataset args is_train s = (Exc (no_such_dataset (data_dataset_name args)), s).
Proof.
  intros Hn. unfold known_datasets in Hn.
  apply not_elem_of_cons in Hn as [H1 Hn]. apply not_elem_of_cons in Hn as [H2 _].
  unfold get_dataset, load_named.
  rewrite (bool_decide_eq_false_2 _ H1), (bool_decide_eq_false_2 _ H2).
  reflexivity.
Qed.

Lemma load_named_Val_inv (args : Args) (is_train : bool) (s s' : State)
    (datasets : option (gmap string D)) :
  load_named args is_train s = (Val datasets, s') →
  match datasets with
  | None => (data_dataset_name args ∉ known_datasets) ∧ s' = s
  | Some _ =>
      data_dataset_name args ∈ known_datasets ∧
      train_num_train_epochs s' = train_num_train_epochs s ∧
      loads s' = loads s ++ [first_load args is_train]
  end.
Proof.
  unfold load_named, first_load, known_datasets.
  case_bool_decide as Hname.
  - rewrite Hname. destruct is_train; intros Hl;
      apply bind_Val_inv in Hl as (dd & s1 & Hload & Hret);
      apply call_load_from_disk_Val_inv in Hload as (_ & He & Hlo);
      injection Hret as <- <-; (split; [in_list | done]).
  - case_bool_decide as Hname2.
    + rewrite Hname2. intros Hl.
      apply bind_Val_inv in Hl as (dd & s1 & Hload & Hret).
      unfold call_load_dataset in Hload.
      apply bind_Val_inv in Hload as ([] & s2 & Hrec & Hload).
      rewrite record_load_run in Hrec. injection Hrec as <-.
      apply lift_Val_inv in Hload as [_ ->].
      injection Hret as <- <-. split; [in_list | done].
    + intros [= <- <-]. split; [|done].
      intros Hin. apply elem_of_cons in Hin as [?|Hin]; [done|].
      apply elem_of_cons in Hin as [?|Hin]; [done|]. by apply elem_of_nil in Hin.
Qed.

(** X18: When [get_dataset] returns, the dataset has a "validation" split in
    every mode, and a "train" split when training or debugging.  The first
    load is the one that the name and the mode select ("test_dataset" on
    disk when not training); it is the only load unless sub-datasets are
    added, which happens only when training.  In debug mode, and only then,
    [args.train.num_train_epochs] has been overwritten with [1.0]. *)
Theorem get_dataset_returns (args : Args) (is_train : bool) (s s' : State)
    (datasets : gmap string D) :
  get_dataset args is_train s = (Val datasets, s') →
  data_dataset_name args ∈ known_datasets ∧
  is_Some (datasets !! "validation") ∧
  (is_train || debug args = true → is_Some (datasets !! "train")) ∧
  train_num_train_epochs s'
    = (if debug args then PyFloat 1 else train_num_train_epochs s) ∧
  ∃ more, loads s' = loads s ++ first_load args is_train :: more ∧
          (is_train = false ∨ data_sub_datasets args = "" → more = []).
Proof.
  intros Hget. unfold get_dataset in Hget.
  apply bind_Val_inv in Hget as (loaded & s1 & Hload & Hget).
  apply load_named_Val_inv in Hload.
  destruct loaded as [dd0|]; [|discriminate].
  destruct Hload as (Hknown & He1 & Hl1).
  apply bind_Val_inv in Hget as (dd1 & s2 & Hsub & Hget).
  apply bind_Val_inv in Hget as (dd2 & s3 & Hdbg & Hget).
  apply bind_Val_inv in Hget as ([] & s4 & Htr & Hget).
  apply bind_Val_inv in Hget as (va & s5 & Hva & Hret).
  injection Hret as <- <-.
  apply getitem_Val_inv in Hva as [Hva ->].
  assert (Htrain : is_train = true → is_Some (dd2 !! "train") ∧ s4 = s3).
  { intros ->. apply bind_Val_inv in Htr as (tr & s6 & Htr & Hret).
    apply getitem_Val_inv in Htr as [Htr ->]. injection Hret as <-.
    split; [by eexists | reflexivity]. }
  assert (Hs4 : s4 = s3).
  { destruct is_train; [by apply Htrain | by injection Htr as <-]. }
  subst s4.
  assert (Hdebug : train_num_train_epochs s3
                   = (if debug args then PyFloat 1 else train_num_train_epochs s2) ∧
                   loads s3 = loads s2 ∧
                   (debug args = true → is_Some (dd2 !! "train"))).
  { destruct (debug args).
    - apply bind_Val_inv in Hdbg as ([] & s6 & Hset & Hdbg).
      injection Hset as <-.
      apply bind_Val_inv in Hdbg as (tr & s7 & Htr' & Hdbg).
      apply getitem_Val_inv in Htr' as [_ ->].
      apply bind_Val_inv in Hdbg as (tr' & s8 & Hsel & Hret).
      apply lift_Val_inv in Hsel as [_ ->].
      injection Hret as <- <-. cbn.
      repeat split. intros _. rewrite lookup_insert_eq. by eexists.
    - injection Hdbg as <- <-. repeat split. discriminate. }
  destruct Hdebug as (He3 & Hl3 & Hdtrain).
  assert (Hsubs : train_num_train_epochs s2 = train_num_train_epochs s1 ∧
                  ∃ more, loads s2 = loads s1 ++ more ∧
                    (is_train = false ∨ data_sub_datasets args = "" → more = [])).
  { destruct (negb (bool_decide (data_sub_datasets args = "")) && is_train)
      eqn:Hcond.
    - apply andb_true_iff in Hcond as [Hne ->].
      apply negb_true_iff, bool_decide_eq_false in Hne.
      apply bind_Val_inv in Hsub as (tr & s6 & Htr' & Hsub).
      apply getitem_Val_inv in Htr' as [_ ->].
      apply bind_Val_inv in Hsub as (cat & s7 & Hcat & Hret).
      injection Hret as <- <-.
      apply concatenate_datasets_with_ratio_state in Hcat as (He & Hl).
      split; [exact He|]. eexists. split; [exact Hl|].
      intros [?|?]; [discriminate | done].
    - injection Hsub as <- <-. split; [reflexivity|].
      exists []. by rewrite app_nil_r. }
  destruct Hsubs as (He2 & more & Hl2 & Hmore).
  split; [exact Hknown|]. split; [by eexists|]. split.
  { intros Hor. apply orb_true_iff in Hor as [Ht|Hd];
      [by apply Htrain | by apply Hdtrain]. }
  split.
  { rewrite He3, He2, He1. reflexivity. }
  exists more. split; [|exact Hmore].
  rewrite Hl3, Hl2, Hl1, <- app_assoc. reflexivity.
Qed.

(** X19: In debug mode the train split is truncated even when [is_train] is
    false.  A dataset without "train" split, as a test set is, then makes
    [get_dataset] raise [KeyError]; by then the dataset has been loaded and
    [args.train.num_train_epochs] has been overwritten. *)
Theorem get_dataset_debug_without_train (args : Args) (s : State)
    (datasets : gmap string D) :
  data_dataset_name args = "train_dataset" → debug args = true →
  load_from_disk env (Dpr.path_join (path_train_data_dir args) "test_dataset")
    = Val datasets →
  datasets !! "train" = None →
  get_dataset args false s
  = (Exc (Builtin (KeyError "train")),
     {| train_num_train_epochs := PyFloat 1;
        loads := loads s ++ [load_from_disk_call
                               (Dpr.path_join (path_train_data_dir args)
                                  "test_dataset")] |}).
Proof.
  intros Hname Hdebug Hload Htrain. unfold get_dataset, load_named.
  rewrite Hname, Hdebug.
  rewrite (bool_decide_eq_true_2 ("train_dataset" = "train_dataset") eq_refl).
  rewrite andb_false_r.
  unfold call_load_from_disk, record_load, modify, lift, set_num_train_epochs,
    getitem, mbind, ST_bind, mret, ST_ret, throw.
  cbn -[Dpr.path_join]. rewrite Hload. cbn -[Dpr.path_join].
  rewrite Htrain. reflexivity.
Qed.

End GetDataset.
(** *** A small environment

    A dataset is the list of its rows; the disk holds a training set with
    both splits, a test set with a "validation" split only, and one
    additional corpus. *)

Definition datasets_disk (path : string) : Res (gmap string (list nat)) :=
  if bool_decide (path = "/data/train_dataset") then
    Val (py_dict [("train", [1; 2; 3]); ("validation", [4; 5])])
  else if bool_decide (path = "/data/test_dataset") then
    Val (py_dict [("validation", [6; 7])])
  else if bool_decide (path = "/data/korquad") then
    Val (py_dict [("train", [10; 11; 12; 13])])
  else Exc (Builtin (OSError "no such dataset directory")).

Definition datasets_float (s : string) : Res Q :=
  if bool_decide (s = "0.5") then Val (1 # 2)
  else if bool_decide (s = "1") then Val 1%Q
  else Exc (Builtin (ValueError "could not convert string to float")).

Definition datasets_env : @Env (list nat) string Q :=
  {| load_from_disk := datasets_disk;
     load_dataset := λ _, Exc (Builtin (OSError "offline"));
     path_exists := λ path,
       bool_decide (path ∈ ["/data/train_dataset"; "/data/test_dataset";
                            "/data/korquad"]);
     py_float := datasets_float;
     int_of_scaled := λ n q, Val (EpochTime.py_int (inject_Z (Z.of_nat n) * q));
     ds_len := length;
     ds_features := λ _, "features";
     select_range := λ d k,
       if k <=? length d then Val (take k d)
       else Exc (Builtin (IndexError "index out of range"));
     recast := λ d _, Val d;
     flatten_indices := Val;
     concatenate_datasets := λ ds, Val (concat ds) |}.

Definition datasets_args (name subs ratios : string) (dbg : bool) : Args :=
  {| data_dataset_name := name;
     data_sub_datasets := subs;
     data_sub_datasets_ratio := ratios;
     path_train_data_dir := "/data";
     debug := dbg |}.

Definition datasets_state : State :=
  {| train_num_train_epochs := PyInt 3; loads := [] |}.

Example split_examples :
  split comma "korquad,extra" = ["korquad"; "extra"] ∧
  split comma "" = [""] ∧
  split comma "a," = ["a"; ""].
Proof. repeat split. Qed.

(** Two names and one ratio: the second name is ignored. *)
Lemma concatenate_datasets_with_ratio_spec_witness :
  loads (concatenate_datasets_with_ratio datasets_env
           (datasets_args "train_dataset" "korquad,extra" "0.5" false) [1; 2; 3]
           datasets_state).2
  = [load_from_disk_call "/data/korquad"].
Proof.
  exact (proj1 (proj2
    (concatenate_datasets_with_ratio_spec datasets_env
       (datasets_args "train_dataset" "korquad,extra" "0.5" false) [1; 2; 3]
       datasets_state
       {| train_num_train_epochs := PyInt 3;
          loads := [load_from_disk_call "/data/korquad"] |}
       [1; 2; 3; 10; 11] eq_refl))).
Defined.

Lemma get_dataset_unknown_name_witness :
  get_dataset datasets_env (datasets_args "squad" "" "" true) true datasets_state
  = (Exc (no_such_dataset "squad"), datasets_state).
Proof.
  refine (get_dataset_unknown_name datasets_env (datasets_args "squad" "" "" true) true
            datasets_state _).
  unfold known_datasets. not_in_list.
Defined.

Lemma get_dataset_returns_witness :
  is_Some (py_dict [("train", [1; 2; 3; 10; 11]); ("validation", [4; 5])]
           !! "validation") ∧
  ∃ more,
    [load_from_disk_call "/data/train_dataset"; load_from_disk_call "/data/korquad"]
    = [] ++ load_from_disk_call "/data/train_dataset" :: more.
Proof.
  pose proof (get_dataset_returns datasets_env
                (datasets_args "train_dataset" "korquad" "0.5" false) true datasets_state
                {| train_num_train_epochs := PyInt 3;
                   loads := [load_from_disk_call "/data/train_dataset";
                             load_from_disk_call "/data/korquad"] |}
                (py_dict [("train", [1; 2; 3; 10; 11]); ("validation", [4; 5])])
                ltac:(vm_compute; reflexivity))
    as (_ & Hval & _ & _ & more & Hmore & _).
  split; [exact Hval|]. exists more. exact Hmore.
Defined.

Lemma get_dataset_debug_without_train_witness :
  get_dataset datasets_env (datasets_args "train_dataset" "" "" true) false datasets_state
  = (Exc (Builtin (KeyError "train")),
     {| train_num_train_epochs := PyFloat 1;
        loads := [load_from_disk_call "/data/test_dataset"] |}).
Proof.
  exact (get_dataset_debug_without_train datasets_env
           (datasets_args "train_dataset" "" "" true) datasets_state
           (py_dict [("validation", [6; 7])])
           eq_refl eq_refl eq_refl eq_refl).
Defined.

End Datasets.

(** ** [run.py] *)

Module Run.
Import Py Eff.

(** *** The statements at the top of a module

    Importing a module runs its top-level statements once and yields the
    names that they bind. *)

Inductive Stmt :=
| ImportAs (module asname : string)
| FromImport (module : string) (names : list string)
| Bind (name : string).

(** The names that every module has before its first statement. *)
Definition module_attributes : gset string :=
  list_to_set ["__name__"; "__doc__"; "__package__"; "__loader__"; "__spec__";
               "__file__"; "__cached__"; "__builtins__"].

Section Modules.

(** What importing a module that is not part of [src/] gives: an error, or
    the module, seen as the names that can be imported from it. *)
Variable library : string → Res (string → bool).

(** [from module import names]: the first name that the module lacks
    raises [ImportError]. *)
Definition import_names (module : string) (provided : string → bool)
    (names : list string) : Res (list string) :=
  match List.find (λ n, negb (provided n)) names with
  | Some n => Exc (ImportError n module)
  | None => Val names
  end.

Fixpoint exec_module (importer : string → Res (string → bool)) (body : list Stmt)
    (namespace : gset string) : Res (gset string) :=
  match body with
  | [] => Val namespace
  | ImportAs module asname :: rest =>
      match importer module with
      | Val _ => exec_module importer rest ({[asname]} ∪ namespace)
      | Exc e => Exc e
      end
  | FromImport module names :: rest =>
      match importer module with
      | Val provided =>
          match import_names module provided names with
          | Val names => exec_module importer rest (list_to_set names ∪ namespace)
          | Exc e => Exc e
          end
      | Exc e => Exc e
      end
  | Bind name :: rest => exec_module importer rest ({[name]} ∪ namespace)
  end.

(** [prepare.py]: the imports of lines 1-10, then the two registries and
    the five functions. *)
Definition prepare_body : list Stmt :=
  [ ImportAs "os.path" "p";
    FromImport "tokenization_kobert" ["KoBertTokenizer"];
    FromImport "datasets"
      ["load_from_disk"; "load_dataset"; "concatenate_datasets"; "Dataset"];
    FromImport "transformers"
      ["AutoConfig"; "AutoModelForQuestionAnswering"; "AutoModel"; "AutoTokenizer"];
    FromImport "reader" ["DprReader"; "CustomHeadReader"];
    FromImport "retrieval.hybrid"
      ["Bm25DprBert"; "TfidfDprBert"; "LogisticBm25DprBert";
       "LogisticAtireBm25DprBert"; "AtireBm25DprBert"];
    FromImport "retrieval.sparse"
      ["TfidfRetrieval"; "BM25Retrieval"; "ATIREBM25Retrieval"];
    FromImport "retrieval.dense"
      ["DprBert"; "BaseTrainMixin"; "Bm25TrainMixin"; "ColBert"];
    Bind "RETRIEVER";
    Bind "READER";
    Bind "retriever_mixin_factory";
    Bind "get_retriever";
    Bind "get_reader";
    Bind "get_dataset";
    Bind "concatenate_datasets_with_ratio" ].

(** [run.py]: the imports of lines 1-8, ... *)
Definition run_imports : list Stmt :=
  [ ImportAs "os.path" "p";
    FromImport "itertools" ["product"];
    FromImport "argparse" ["Namespace"];
    FromImport "transformers" ["set_seed"];
    FromImport "tools" ["update_args"];
    FromImport "trainer_qa" ["QuestionAnsweringTrainer"];
    FromImport "transformers" ["DataCollatorWithPadding"] ].

(** ... the import of line 9 and the definition of [train_reader]. *)
Definition run_body : list Stmt :=
  run_imports ++
  [ FromImport "prepare"
      ["prepare_dataset"; "preprocess_dataset"; "get_reader_model";
       "compute_metrics"];
    Bind "train_reader" ].

(** The module [prepare] is the one of this repository; the names that can
    be imported from it are those that its statements have bound. *)
Definition import_prepare : Res (string → bool) :=
  match exec_module library prepare_body module_attributes with
  | Val namespace => Val (λ n, bool_decide (n ∈ namespace))
  | Exc e => Exc e
  end.

Definition importer (module : string) : Res (string → bool) :=
  if bool_decide (module = "prepare") then import_prepare else library module.

Definition import_run : Res (gset string) :=
  exec_module importer run_body module_attributes.

(** The names that [prepare.py] binds. *)
Definition prepare_names : list string :=
  ["p"; "KoBertTokenizer"; "load_from_disk"; "load_dataset";
   "concatenate_datasets"; "Dataset"; "AutoConfig";
   "AutoModelForQuestionAnswering"; "AutoModel"; "AutoTokenizer";
   "DprReader"; "CustomHeadReader"; "Bm25DprBert"; "TfidfDprBert";
   "LogisticBm25DprBert"; "LogisticAtireBm25DprBert"; "AtireBm25DprBert";
   "TfidfRetrieval"; "BM25Retrieval"; "ATIREBM25Retrieval"; "DprBert";
   "BaseTrainMixin"; "Bm25TrainMixin"; "ColBert"; "RETRIEVER"; "READER";
   "retriever_mixin_factory"; "get_retriever"; "get_reader"; "get_dataset";
   "concatenate_datasets_with_ratio"].

Lemma import_names_Val (module : string) (provided : string → bool)
    (names names' : list string) :
  import_names module provided names = Val names' → names' = names.
Proof.
  unfold import_names. destruct (List.find _ names); [discriminate|].
  by intros [= <-].
Qed.

Lemma exec_module_app (imp : string → Res (string → bool)) (body rest : list Stmt) :
  ∀ namespace,
  exec_module imp (body ++ rest) namespace =
  match exec_module imp body namespace with
  | Val namespace' => exec_module imp rest namespace'
  | Exc e => Exc e
  end.
Proof.
  induction body as [|[m a|m names|n] body IH]; intros namespace; cbn.
  - reflexivity.
  - destruct (imp m); [apply IH | reflexivity].
  - destruct (imp m) as [provided|]; [|reflexivity].
    destruct (import_names m provided names); [apply IH | reflexivity].
  - apply IH.
Qed.

(** When [prepare.py] runs to its end, it has bound the names that its
    statements list, and no other. *)
Lemma prepare_namespace (namespace : gset string) :
  exec_module library prepare_body module_attributes = Val namespace →
  namespace ≡ list_to_set prepare_names ∪ module_attributes.
Proof.
  unfold prepare_body. cbn [exec_module].
  repeat match goal with
         | |- context [library ?m] => destruct (library m) as [?|?]; [|discriminate]
         | |- context [import_names ?m ?p ?n] =>
             let H := fresh "Hn" in
             destruct (import_names m p n) as [?|?] eqn:H; [|discriminate];
             apply import_names_Val in H; subst
         end.
  intros [= <-]. unfold prepare_names. cbn [list_to_set]. set_solver.
Qed.

Lemma prepare_dataset_unbound :
  "prepare_dataset" ∉ (list_to_set prepare_names ∪ module_attributes : gset string).
Proof.
  unfold module_attributes.
  rewrite not_elem_of_union, !not_elem_of_list_to_set. split.
  - unfold prepare_names. not_in_list.
  - not_in_list.
Qed.

Lemma import_prepare_names (provided : string → bool) :
  import_prepare = Val provided →
  import_names "prepare" provided
    ["prepare_dataset"; "preprocess_dataset"; "get_reader_model"; "compute_metrics"]
  = Exc (ImportError "prepare_dataset" "prepare").
Proof.
  unfold import_prepare.
  destruct (exec_module library prepare_body module_attributes)
    as [namespace|] eqn:Hns; [|discriminate].
  intros [= <-]. apply prepare_namespace in Hns.
  unfold import_names. cbn [List.find].
  rewrite bool_decide_eq_false_2; [reflexivity|].
  rewrite Hns. apply prepare_dataset_unbound.
Qed.

(** X20: Importing [run.py] always fails: whatever the libraries provide, the
    execution of its top-level statements raises, so that [train_reader]
    is never bound.  When the imports of lines 1-8 and [prepare.py] itself
    run without error, the exception is the [ImportError] of line 9, which
    asks [prepare] for names that [prepare.py] does not define. *)
Theorem import_run_raises :
  (∃ e, import_run = Exc e) ∧
  (∀ namespace provided,
     exec_module importer run_imports module_attributes = Val namespace →
     import_prepare = Val provided →
     import_run = Exc (ImportError "prepare_dataset" "prepare")).
Proof.
  assert (Hline9 : ∀ namespace,
            (∃ e, exec_module importer
                    [FromImport "prepare"
                       ["prepare_dataset"; "preprocess_dataset";
                        "get_reader_model"; "compute_metrics"];
                     Bind "train_reader"] namespace = Exc e) ∧
            ∀ provided, import_prepare = Val provided →
              exec_module importer
                [FromImport "prepare"
                   ["prepare_dataset"; "preprocess_dataset";
                    "get_reader_model"; "compute_metrics"];
                 Bind "train_reader"] namespace
              = Exc (ImportError "prepare_dataset" "prepare")).
  { intros namespace. cbn [exec_module]. unfold importer.
    rewrite (bool_decide_eq_true_2 ("prepare" = "prepare") eq_refl).
    destruct import_prepare as [provided|e] eqn:Hp.
    - rewrite (import_prepare_names provided Hp).
      split; [by eexists|]. done.
    - split; [by eexists|]. discriminate. }
  unfold import_run, run_body. rewrite exec_module_app.
  destruct (exec_module importer run_imports module_attributes) as [namespace|e].
  - destruct (Hline9 namespace) as [Hraise Hprecise]. split; [exact Hraise|].
    intros _ provided _ Hp. exact (Hprecise provided Hp).
  - split; [by exists e | discriminate].
Qed.

End Modules.

(** Libraries that provide everything they are asked for. *)
Example import_run_generous :
  import_run (λ _, Val (λ _, true)) = Exc (ImportError "prepare_dataset" "prepare").
Proof. vm_compute. reflexivity. Qed.

(** *** [train_reader] (lines 12-57) *)

(** [l[:stop]]: a negative [stop] counts from the end, and the bounds are
    clipped to the list. *)
Definition slice_to {A} (l : list A) (stop : option Z) : list A :=
  match stop with
  | None => l
  | Some z =>
      if (z <? 0)%Z then take (Z.to_nat (Z.of_nat (length l) + z)) l
      else take (Z.to_nat z) l
  end.

(** [str(z)] for an integer *)
Definition str (z : Z) : string :=
  DecimalString.NilZero.string_of_int (Z.to_int z).

(** Line 38: ["_".join([strategy, str(seed), args.alias])] *)
Definition run_name (strategy : string) (seed : Z) (alias : string) : string :=
  strategy +:+ "_" +:+ str seed +:+ "_" +:+ alias.

(** The calls that a run makes to seed the generators and to train. *)
Inductive Event :=
| set_seed_call (seed : Z)
| train_call (strategy : string) (seed : Z) (run_name output_dir : string).

(** *** Run names are unambiguous *)









Example run_name_example : run_name "ST01" 42 "baseline" = "ST01_42_baseline".
Proof. reflexivity. Qed.

Section TrainReader.
Context {Cfg TrainCfg Info Datasets Model Tokenizer Dataset PostFn Collator
         Examples Trainer : Type}.

(** [args.train] *)
Record TrainArgs := {
  fp16 : bool;
  do_train : bool;
  do_eval : bool;
  train_run_name : option string;
  output_dir : option string;
  train_other : TrainCfg
}.

Record Args := {
  strategis : list string;
  seeds : list Z;
  run_cnt : option Z;
  alias : string;
  path_checkpoint : string;
  strategy : option string;
  seed : option Z;
  info : option Info;
  train : TrainArgs;
  args_other : Cfg
}.

(** The keyword arguments of [QuestionAnsweringTrainer]. *)
Record TrainerArguments := {
  ta_model : Model;
  ta_args : TrainArgs;
  ta_custom_args : Args;
  ta_train_dataset : Dataset;
  ta_eval_dataset : Dataset;
  ta_eval_examples : Examples;
  ta_tokenizer : Tokenizer;
  ta_data_collator : Collator;
  ta_post_process_function : PostFn
}.

(** The imported functions and classes. *)
Record Env := {
  update_args : Args → string → Res Args;
  Namespace : Info;
  set_seed : Z → Res ();
  prepare_dataset : Args → bool → Res Datasets;
  get_reader_model : Args → Res (Model * Tokenizer);
  preprocess_dataset : Args → Datasets → Tokenizer → bool → Res (Dataset * PostFn);
  DataCollatorWithPadding : Tokenizer → option nat → Res Collator;
  validation : Datasets → Res Examples;
  QuestionAnsweringTrainer : TrainerArguments → Res Trainer;
  trainer_train : Trainer → Res ()
}.

Variable env : Env.

Definition M (A : Type) : Type := ST (list Event) A.

Definition call {A} (e : Event) (r : Res A) : M A := λ log, (r, log ++ [e]).

(** Lines 18-19 *)
Definition set_strategy_seed_info (args : Args) (strategy' : string) (seed' : Z)
    : Args :=
  {| strategis := strategis args; seeds := seeds args; run_cnt := run_cnt args;
     alias := alias args; path_checkpoint := path_checkpoint args;
     strategy := Some strategy'; seed := Some seed';
     info := Some (Namespace env);
     train := train args; args_other := args_other args |}.

(** Lines 31-40 *)
Definition set_train (args : Args) (name dir : string) : Args :=
  {| strategis := strategis args; seeds := seeds args; run_cnt := run_cnt args;
     alias := alias args; path_checkpoint := path_checkpoint args;
     strategy := strategy args; seed := seed args; info := info args;
     train := {| fp16 := fp16 (train args);
                 do_train := true;
                 do_eval := true;
                 train_run_name := Some name;
                 output_dir := Some dir;
                 train_other := train_other (train args) |};
     args_other := args_other args |}.

(** The body of the loop, lines 17-57. *)
Definition run_once (args : Args) (seed : Z) (strategy : string) : M Args :=
  args ← lift (update_args env args strategy);
  let args := set_strategy_seed_info args strategy seed in
  _ ← call (set_seed_call seed) (set_seed env seed);
  datasets ← lift (prepare_dataset env args true);
  model_tokenizer ← lift (get_reader_model env args);
  train_post ← lift (preprocess_dataset env args datasets model_tokenizer.2 true);
  eval_post ← lift (preprocess_dataset env args datasets model_tokenizer.2 false);
  data_collator ← lift (DataCollatorWithPadding env model_tokenizer.2
                          (if fp16 (train args) then Some 8 else None));
  let name := run_name strategy seed (alias args) in
  let dir := Dpr.path_join (path_checkpoint args) name in
  let args := set_train args name dir in
  eval_examples ← lift (validation env datasets);
  trainer ← lift (QuestionAnsweringTrainer env
                    {| ta_model := model_tokenizer.1;
                       ta_args := train args;
                       ta_custom_args := args;
                       ta_train_dataset := train_post.1;
                       ta_eval_dataset := eval_post.1;
                       ta_eval_examples := eval_examples;
                       ta_tokenizer := model_tokenizer.2;
                       ta_data_collator := data_collator;
                       ta_post_process_function := train_post.2 |});
  _ ← call (train_call strategy seed name dir) (trainer_train env trainer);
  mret args.

(** The loop, line 16: [args] is rebound in every turn. *)
Fixpoint run_all (args : Args) (runs : list (Z * string)) : M () :=
  match runs with
  | [] => mret ()
  | (seed, strategy) :: rest =>
      args ← run_once args seed strategy;
      run_all args rest
  end.

(** Lines 13-16: [product(seeds, strategis)] *)
Definition schedule (args : Args) : list (Z * string) :=
  list_prod (slice_to (seeds args) (run_cnt args)) (strategis args).

Definition train_reader (args : Args) : M () :=
  run_all args (schedule args).

(** The runs for which training was started, and the seeds that were set. *)
Definition trained (log : list Event) : list (Z * string) :=
  omap (λ e, match e with
             | train_call strategy seed _ _ => Some (seed, strategy)
             | set_seed_call _ => None
             end) log.

Definition seeded (log : list Event) : list Z :=
  omap (λ e, match e with
             | set_seed_call seed => Some seed
             | train_call _ _ _ _ => None
             end) log.

Lemma lift_run {A} (r : Res A) (log : list Event) : lift r log = (r, log).
Proof. reflexivity. Qed.

(** One turn of the loop seeds at most once and starts at most one
    training, for its own pair; when it completes it has done both. *)
Lemma run_once_events (args : Args) (seed : Z) (strategy : string)
    (log : list Event) :
  ∃ events,
    (run_once args seed strategy log).2 = log ++ events ∧
    trained events `prefix_of` [(seed, strategy)] ∧
    seeded events `prefix_of` [seed] ∧
    (∀ args', (run_once args seed strategy log).1 = Val args' →
       trained events = [(seed, strategy)] ∧ seeded events = [seed]).
Proof.
  unfold run_once, mbind, ST_bind, call, mret, ST_ret. rewrite !lift_run.
  destruct (update_args env args strategy) as [args1|];
    [|exists []; rewrite app_nil_r;
      repeat split; try apply prefix_nil; discriminate].
  cbv zeta.
  destruct (set_seed env seed) as [[]|];
    [|exists [set_seed_call seed];
      repeat split; try apply prefix_nil; try done; discriminate].
  rewrite !lift_run.
  repeat match goal with
  | |- context [match ?r with Val _ => _ | Exc _ => _ end] =>
      lazymatch r with
      | trainer_train _ _ => fail
      | _ => destruct r as [?|?];
             [|exists [set_seed_call seed];
               repeat split; try apply prefix_nil; try done; discriminate]
      end
  | |- context [lift ?r ?l] => rewrite (lift_run r l)
  end.
  eexists [set_seed_call seed; train_call strategy seed _ _].
  rewrite <- app_assoc. cbn [app].
  destruct (trainer_train env _) as [[]|]; cbn; repeat split; try done.
Qed.

Lemma trained_app (l k : list Event) : trained (l ++ k) = trained l ++ trained k.
Proof. apply omap_app. Qed.

Lemma seeded_app (l k : list Event) : seeded (l ++ k) = seeded l ++ seeded k.
Proof. apply omap_app. Qed.

Lemma run_all_events (runs : list (Z * string)) :
  ∀ args log,
  ∃ events,
    (run_all args runs log).2 = log ++ events ∧
    trained events `prefix_of` runs ∧
    seeded events `prefix_of` runs.*1 ∧
    ((run_all args runs log).1 = Val () →
     trained events = runs ∧ seeded events = runs.*1).
Proof.
  induction runs as [|[seed strategy] rest IH]; intros args log.
  - exists []. cbn. rewrite app_nil_r. repeat split; done.
  - cbn [run_all]. unfold mbind, ST_bind.
    destruct (run_once_events args seed strategy log)
      as (ev1 & Hlog1 & Hpre1 & Hseed1 & Hdone1).
    destruct (run_once args seed strategy log) as [[args1|e] log1];
      cbn [fst snd] in *.
    + destruct (Hdone1 args1 eq_refl) as [Ht1 Hs1].
      destruct (IH args1 log1) as (ev2 & Hlog2 & Hpre2 & Hseed2 & Hdone2).
      exists (ev1 ++ ev2). rewrite Hlog2. subst log1. rewrite <- app_assoc.
      rewrite trained_app, seeded_app, Ht1, Hs1. cbn [fmap list_fmap fst app].
      split; [reflexivity|]. split; [by apply prefix_cons|].
      split; [by apply prefix_cons|].
      intros Hv. destruct (Hdone2 Hv) as [-> ->]. done.
    + exists ev1. split; [exact Hlog1|]. split.
      { etrans; [exact Hpre1|]. apply prefix_cons, prefix_nil. }
      split.
      { etrans; [exact Hseed1|]. cbn. apply prefix_cons, prefix_nil. }
      discriminate.
Qed.

Lemma slice_to_length {A} (l : list A) (k : nat) :
  length (slice_to l (Some (Z.of_nat k))) = k `min` length l.
Proof.
  unfold slice_to. destruct (Z.ltb_spec (Z.of_nat k) 0) as [|_]; [lia|].
  rewrite Nat2Z.id, length_take. reflexivity.
Qed.

(** X21: [train_reader] trains once for every pair of a seed among
    [args.seeds[:args.run_cnt]] and a strategy, seed by seed, and sets the
    seed before each training.  The pairs are fixed before the loop starts,
    from the [args] that were passed in: what [update_args] returns does
    not change them.  A run that raises ends the function, so the trainings
    started are always a prefix of the schedule, and the whole schedule
    when [train_reader] returns. *)
Theorem train_reader_schedule (args : Args) :
  trained (train_reader args []).2 `prefix_of` schedule args ∧
  seeded (train_reader args []).2 `prefix_of` (schedule args).*1 ∧
  ((train_reader args []).1 = Val () →
   trained (train_reader args []).2 = schedule args ∧
   seeded (train_reader args []).2 = (schedule args).*1) ∧
  (∀ k, run_cnt args = Some (Z.of_nat k) →
     length (schedule args) = (k `min` length (seeds args)) * length (strategis args)).
Proof.
  unfold train_reader.
  destruct (run_all_events (schedule args) args [])
    as (events & Hlog & Hpre & Hseed & Hdone).
  rewrite Hlog. cbn [app].
  split; [exact Hpre|]. split; [exact Hseed|]. split; [exact Hdone|].
  intros k Hk. unfold schedule. rewrite length_prod, Hk, slice_to_length.
  reflexivity.
Qed.

End TrainReader.

End Run.

(** ** The retrieval core of the specification

    The sparse scorers, the dense index, the fusion engine and the query
    facade are not part of [src/]; they are modelled from the text of the
    specification, over the real numbers. *)

Module Core.

(** Modelled from the spec: the error taxonomy of section 7 (the core is
    missing from the sources). *)
Inductive CoreError : Type :=
| EmptyCorpusError
| DimensionMismatchError
| UnknownSchemeError
| CacheCorruptionError
| NotReadyError.

(** Modelled from the spec: an operation of the core returns its result or
    fails with one of these errors. *)
Inductive Outcome (A : Type) : Type :=
| Done (a : A)
| Fail (e : CoreError).
Arguments Done {A} a.
Arguments Fail {A} e.

(** Modelled from the spec: the Sparse Index Artifact of section 3, built
    by the Sparse Indexer of section 4.1 (the indexer is missing from the
    sources).  The corpus is the ordered sequence of passage texts; the id
    of a document is its position. *)
Record SparseIndexArtifact := {
  vocabulary : gmap string nat;
  postings : gmap string (list (nat * nat));
  doc_lengths : list nat;
  avg_doc_length : R;
  N : nat
}.

Section Sparse.

(** The pluggable tokenizer. *)
Variable tokenize : string → list string.

(** Modelled from the spec: the term frequency of a term in a tokenized
    document. *)
Definition term_count (t : string) (tokens : list string) : nat :=
  length (filter (λ t', t' = t) tokens).

(** Modelled from the spec: a posting list holds one [(doc_id,
    term_frequency)] pair for each document that contains the term. *)
Definition postings_of (docs : list (list string)) (t : string) : list (nat * nat) :=
  filter (λ p, 0 < p.2) (imap (λ i tokens, (i, term_count t tokens)) docs).

(** Modelled from the spec: terms get their vocabulary column in
    first-seen order. *)
Definition first_seen (tokens : list string) : list string :=
  foldl (λ seen t, if decide (t ∈ seen) then seen else seen ++ [t]) [] tokens.

(** Modelled from the spec: the statistics accumulated over the tokenized
    documents. *)
Definition build_artifact (docs : list (list string)) : SparseIndexArtifact :=
  let vocab := first_seen (concat docs) in
  {| vocabulary := list_to_map (imap (λ i t, (t, i)) vocab);
     postings := list_to_map ((λ t, (t, postings_of docs t)) <$> vocab);
     doc_lengths := length <$> docs;
     avg_doc_length := (INR (sum_list (length <$> docs)) / INR (length docs))%R;
     N := length docs |}.

(** Modelled from the spec: [build(corpus)], which fails with
    [EmptyCorpusError] on a corpus without documents. *)
Definition build (corpus : list string) : Outcome SparseIndexArtifact :=
  match corpus with
  | [] => Fail EmptyCorpusError
  | _ => Done (build_artifact (tokenize <$> corpus))
  end.

(** Modelled from the spec: the term statistics read off the artifact, the
    posting list of a term, its document frequency, its frequency in a
    document, and the length of a document. *)
Definition posting_list (idx : SparseIndexArtifact) (t : string) : list (nat * nat) :=
  default [] (postings idx !! t).

Definition df (idx : SparseIndexArtifact) (t : string) : nat :=
  length (posting_list idx t).

Definition tf (idx : SparseIndexArtifact) (t : string) (d : nat) : nat :=
  default 0 (snd <$> (snd <$> list_find (λ p, p.1 = d) (posting_list idx t))).

Definition doc_len (idx : SparseIndexArtifact) (d : nat) : nat :=
  default 0 (doc_lengths idx !! d).

Local Open Scope R_scope.

(** Modelled from the spec: the sum over the query terms. *)
Definition Rsum (l : list R) : R := foldr Rplus 0 l.

(** Modelled from the spec: TF-IDF, [idf(t) = log(N / df(t))] with [df(t)]
    clamped to a minimum of 1; the vectors are not cosine-normalised. *)
Definition tfidf_idf (idx : SparseIndexArtifact) (t : string) : R :=
  ln (INR (N idx) / INR (Nat.max (df idx t) 1)).

Definition tfidf_score (idx : SparseIndexArtifact) (query : string) (d : nat) : R :=
  Rsum ((λ t, INR (tf idx t d) * tfidf_idf idx t) <$> tokenize query).

(** Modelled from the spec: the term-frequency saturation shared by BM25
    and ATIRE-BM25. *)
Definition saturation (k1 b : R) (idx : SparseIndexArtifact) (t : string) (d : nat) : R :=
  INR (tf idx t d) * (k1 + 1)
  / (INR (tf idx t d)
     + k1 * (1 - b + b * INR (doc_len idx d) / avg_doc_length idx)).

(** Modelled from the spec: the idf of BM25, with the "+1" smoothing that
    the ATIRE variant drops (the specification does not write it out; this
    is the classical form). *)
Definition bm25_idf (idx : SparseIndexArtifact) (t : string) : R :=
  ln (1 + (INR (N idx) - INR (df idx t) + 1 / 2) / (INR (df idx t) + 1 / 2)).

(** Modelled from the spec: terms absent from the vocabulary contribute
    zero. *)
Definition in_index (idx : SparseIndexArtifact) (t : string) : bool :=
  bool_decide (is_Some (postings idx !! t)).

Definition bm25_score (k1 b : R) (idx : SparseIndexArtifact) (query : string)
    (d : nat) : R :=
  Rsum ((λ t, if in_index idx t then bm25_idf idx t * saturation k1 b idx t d else 0)
          <$> tokenize query).

(** Modelled from the spec: ATIRE-BM25, [idf(t) = log(N / df(t))] without
    smoothing, a negative value being clamped to zero. *)
Definition atire_raw_idf (idx : SparseIndexArtifact) (t : string) : R :=
  ln (INR (N idx) / INR (df idx t)).

Definition atire_idf (idx : SparseIndexArtifact) (t : string) : R :=
  Rmax 0 (atire_raw_idf idx t).

Definition atire_bm25_score (k1 b : R) (idx : SparseIndexArtifact) (query : string)
    (d : nat) : R :=
  Rsum ((λ t, if in_index idx t then atire_idf idx t * saturation k1 b idx t d else 0)
          <$> tokenize query).

(** Modelled from the spec: the default constants [k1 = 1.2] and
    [b = 0.75]. *)
Definition default_k1 : R := 12 / 10.
Definition default_b : R := 75 / 100.


(** *** Non-negativity of the sparse scores *)













End Sparse.

(** *** Dense index, fusion engine and query facade *)

(** Modelled from the spec: the Dense Embedding Matrix of section 3 with
    its declared dimension (the dense index is missing from the sources). *)
Record DenseIndex := {
  matrix : list (list R);
  dim : nat
}.

(** Modelled from the spec: the fusion strategies of section 4.4; the
    logistic combiner may come without fitted weights. *)
Inductive FusionStrategy : Type :=
| Linear (alpha beta : R)
| Logistic (weights : option (R * R * R)).

(** Modelled from the spec: the three weighting policies of section 4.2. *)
Inductive SparseScheme : Type :=
| TFIDF
| BM25
| ATIRE_BM25.

(** Modelled from the spec: the states of the facade. *)
Inductive Phase : Type :=
| UNINITIALIZED
| INDEXED
| READY
| SERVING.

(** Modelled from the spec: the state of the Query Facade of section 4.6. *)
Record Facade := {
  phase : Phase;
  corpus : list string;
  scheme : SparseScheme;
  sparse_index : option SparseIndexArtifact;
  dense_index : option DenseIndex;
  strategy : FusionStrategy
}.

(** Modelled from the spec: "ties in final score are broken by ascending
    document id"; a result ranks before another when its score is higher,
    or equal with an id that is not larger. *)
Definition ranks_before (x y : nat * R) : Prop :=
  (y.2 < x.2)%R ∨ (x.2 = y.2 ∧ x.1 ≤ y.1).

#[local] Instance ranks_before_dec (x y : nat * R) : Decision (ranks_before x y).
Proof.
  unfold ranks_before.
  destruct (Rlt_dec y.2 x.2) as [Hlt|Hnlt]; [left; by left|].
  destruct (Req_dec_T x.2 y.2) as [Heq|Hne].
  - destruct (decide (x.1 ≤ y.1)) as [Hle|Hnle].
    + left. by right.
    + right. intros [?|[_ ?]]; contradiction.
  - right. intros [?|[? _]]; contradiction.
Defined.

#[local] Instance ranks_before_total : Total ranks_before.
Proof.
  intros [i x] [j y]. unfold ranks_before. cbn.
  destruct (Rtotal_order x y) as [Hlt|[Heq|Hgt]].
  - right. by left.
  - subst. destruct (decide (i ≤ j)); [left | right]; right; split; lia || done.
  - left. by left.
Qed.

#[local] Instance ranks_before_trans : Transitive ranks_before.
Proof.
  intros [i x] [j y] [k z]. unfold ranks_before. cbn.
  intros [H1|[H1 H1']] [H2|[H2 H2']].
  - left. lra.
  - left. lra.
  - left. lra.
  - right. split; [lra | lia].
Qed.

Section Facade.

Variable tokenize : string → list string.

(** The external query encoder, [text -> vector[D]]. *)
Variable encode_query : string → list R.

Variables k1 b : R.

Local Open Scope R_scope.

(** Modelled from the spec: the score of a document under the chosen
    weighting policy. *)
Definition sparse_score (sch : SparseScheme) (idx : SparseIndexArtifact)
    (query : string) (d : nat) : R :=
  match sch with
  | TFIDF => tfidf_score tokenize idx query d
  | BM25 => bm25_score tokenize k1 b idx query d
  | ATIRE_BM25 => atire_bm25_score tokenize k1 b idx query d
  end.

(** Modelled from the spec: whether a document shares a term with the
    query. *)
Definition shares_term (idx : SparseIndexArtifact) (query : string) (d : nat) : bool :=
  existsb (λ t, (0 <? tf idx t d)%nat) (tokenize query).

(** Modelled from the spec: the sparse Score Vector holds every document
    that shares a term with the query; the others are omitted. *)
Definition sparse_scores (sch : SparseScheme) (idx : SparseIndexArtifact)
    (query : string) : gmap nat R :=
  list_to_map
    ((λ d, (d, sparse_score sch idx query d))
       <$> List.filter (shares_term idx query) (seq 0 (N idx))).

(** Modelled from the spec: the dot product of two vectors. *)
Definition dot_product (x y : list R) : R :=
  Rsum (zip_with Rmult x y).

(** Modelled from the spec: the dense Score Vector is the dot product of
    the query vector with every row; a query vector of another length is a
    [DimensionMismatchError]. *)
Definition dense_scores (dx : DenseIndex) (query_vector : list R)
    : Outcome (gmap nat R) :=
  if bool_decide (length query_vector = dim dx) then
    Done (list_to_map (imap (λ d row, (d, dot_product query_vector row)) (matrix dx)))
  else Fail DimensionMismatchError.

(** Modelled from the spec: a document missing from one side scores 0 on
    that side. *)
Definition score_of (scores : gmap nat R) (d : nat) : R :=
  default 0 (scores !! d).

(** Modelled from the spec: the least and the greatest score of the
    candidates. *)
Definition Rmin_list (l : list R) : R :=
  match l with [] => 0 | x :: rest => foldr Rmin x rest end.

Definition Rmax_list (l : list R) : R :=
  match l with [] => 0 | x :: rest => foldr Rmax x rest end.

(** Modelled from the spec: min-max normalisation to [0, 1] over the
    candidate set of the query. *)
Definition min_max (scores : gmap nat R) (candidates : list nat) (d : nat) : R :=
  let values := score_of scores <$> candidates in
  (score_of scores d - Rmin_list values) / (Rmax_list values - Rmin_list values).

(** Modelled from the spec: linear fusion,
    [alpha * sparse_norm + beta * dense_norm]. *)
Definition linear_fusion (alpha beta : R) (sparse dense : gmap nat R)
    (candidates : list nat) (d : nat) : R :=
  alpha * min_max sparse candidates d + beta * min_max dense candidates d.

(** Modelled from the spec: logistic fusion, the probability given by the
    fitted classifier on the two raw scores. *)
Definition logistic_fusion (w_sparse w_dense bias : R) (sparse dense : gmap nat R)
    (d : nat) : R :=
  1 / (1 + exp (- (w_sparse * score_of sparse d + w_dense * score_of dense d + bias))).

(** Modelled from the spec: without fitted weights the logistic strategy
    falls back to the equal-weight linear combination. *)
Definition fused_score (st : FusionStrategy) (sparse dense : gmap nat R)
    (candidates : list nat) (d : nat) : R :=
  match st with
  | Linear alpha beta => linear_fusion alpha beta sparse dense candidates d
  | Logistic (Some (w_sparse, w_dense, bias)) =>
      logistic_fusion w_sparse w_dense bias sparse dense d
  | Logistic None => linear_fusion (1 / 2) (1 / 2) sparse dense candidates d
  end.

(** Modelled from the spec: the fallback is surfaced. *)
Definition fallback_used (st : FusionStrategy) : bool :=
  match st with
  | Logistic None => true
  | _ => false
  end.

(** Modelled from the spec: [fuse(sparse, dense, top_k)], the candidates in
    descending order of fused score, ties by ascending id, cut at [top_k]. *)
Definition fuse (st : FusionStrategy) (sparse dense : gmap nat R) (top_k : nat)
    : list (nat * R) :=
  let candidates := elements (dom sparse ∪ dom dense) in
  take top_k
    (merge_sort ranks_before
       ((λ d, (d, fused_score st sparse dense candidates d)) <$> candidates)).

(** Modelled from the spec: queries are accepted from [READY] on, and
    answering one leaves the facade [SERVING]. *)
Definition is_ready (p : Phase) : bool :=
  match p with
  | READY | SERVING => true
  | UNINITIALIZED | INDEXED => false
  end.

Definition serving (f : Facade) : Facade :=
  {| phase := SERVING; corpus := corpus f; scheme := scheme f;
     sparse_index := sparse_index f; dense_index := dense_index f;
     strategy := strategy f |}.

(** Modelled from the spec: [UNINITIALIZED -> INDEXED], the sparse index is
    built. *)
Definition index_corpus (f : Facade) (texts : list string) : Outcome Facade :=
  match build tokenize texts with
  | Fail e => Fail e
  | Done idx =>
      Done {| phase := INDEXED; corpus := texts; scheme := scheme f;
              sparse_index := Some idx; dense_index := None;
              strategy := strategy f |}
  end.

(** Modelled from the spec: [INDEXED -> READY], the dense matrix is
    attached; its row count must match the corpus and its rows the declared
    dimension. *)
Definition attach_dense (f : Facade) (dx : DenseIndex) : Outcome Facade :=
  match phase f with
  | INDEXED =>
      if bool_decide (length (matrix dx) = length (corpus f))
         && forallb (λ row, length row =? dim dx)%nat (matrix dx)
      then Done {| phase := READY; corpus := corpus f; scheme := scheme f;
                   sparse_index := sparse_index f; dense_index := Some dx;
                   strategy := strategy f |}
      else Fail DimensionMismatchError
  | _ => Fail NotReadyError
  end.

(** Modelled from the spec: [retrieve(query, top_k)], which fails with
    [NotReadyError] before [READY] and otherwise answers and leaves the
    facade [SERVING]. *)
Definition retrieve (f : Facade) (query : string) (top_k : nat)
    : Outcome (list (nat * R * string)) * Facade :=
  if is_ready (phase f) then
    match sparse_index f, dense_index f with
    | Some idx, Some dx =>
        match dense_scores dx (encode_query query) with
        | Fail e => (Fail e, serving f)
        | Done dense =>
            let sparse := sparse_scores (scheme f) idx query in
            (Done ((λ r : nat * R, (r.1, r.2, default "" (corpus f !! r.1)))
                     <$> fuse (strategy f) sparse dense top_k),
             serving f)
        end
    | _, _ => (Fail NotReadyError, f)
    end
  else (Fail NotReadyError, f).

(** Results in ranking order: scores descend, and of two results with the
    same score the one with the smaller document id comes first. *)
Definition ranked (results : list (nat * R * string)) : Prop :=
  ∀ i j di si pi dj sj pj,
    (i < j)%nat →
    results !! i = Some (di, si, pi) →
    results !! j = Some (dj, sj, pj) →
    sj <= si ∧ (si = sj → (di < dj)%nat).


(** *** Ranking *)

Lemma StronglySorted_lookup {A} (R : relation A) (l : list A) (i j : nat) (x y : A) :
  StronglySorted R l → (i < j)%nat → l !! i = Some x → l !! j = Some y → R x y.
Proof.
  intros Hs. revert i j. induction Hs as [|z l Hs IH Hall]; intros i j Hij Hi Hj.
  - by rewrite lookup_nil in Hi.
  - destruct j as [|j]; [lia|]. destruct i as [|i].
    + injection Hi as ->. rewrite Forall_forall in Hall. apply Hall.
      by eapply list_elem_of_lookup_2.
    + eapply (IH i j); [lia | exact Hi | exact Hj].
Qed.

Lemma StronglySorted_take {A} (R : relation A) (l : list A) (n : nat) :
  StronglySorted R l → StronglySorted R (take n l).
Proof.
  intros Hs. rewrite <- (take_drop n l) in Hs.
  by apply StronglySorted_app_1_l in Hs.
Qed.

Lemma fuse_sorted (st : FusionStrategy) (sparse dense : gmap nat R) (top_k : nat) :
  StronglySorted ranks_before (fuse st sparse dense top_k).
Proof.
  unfold fuse. apply StronglySorted_take.
  apply (StronglySorted_merge_sort ranks_before).
Qed.

Lemma fuse_NoDup (st : FusionStrategy) (sparse dense : gmap nat R) (top_k : nat) :
  NoDup (fst <$> fuse st sparse dense top_k).
Proof.
  unfold fuse. rewrite fmap_take.
  eapply sublist_NoDup; [|apply sublist_take].
  rewrite merge_sort_Permutation.
  assert (Hid : ∀ (g : nat → R) (l : list nat),
            fst <$> ((λ d, (d, g d)) <$> l) = l).
  { intros g l. induction l as [|d l IH]; [reflexivity|]. cbn. by rewrite IH. }
  rewrite Hid. apply NoDup_elements.
Qed.

Lemma fuse_length (st : FusionStrategy) (sparse dense : gmap nat R) (top_k : nat) :
  (length (fuse st sparse dense top_k) ≤ top_k)%nat.
Proof. unfold fuse. rewrite length_take. lia. Qed.

Lemma fuse_ranked (st : FusionStrategy) (sparse dense : gmap nat R) (top_k : nat)
    (i j di dj : nat) (si sj : R) :
  (i < j)%nat →
  fuse st sparse dense top_k !! i = Some (di, si) →
  fuse st sparse dense top_k !! j = Some (dj, sj) →
  sj <= si ∧ (si = sj → (di < dj)%nat).
Proof.
  intros Hij Hi Hj.
  pose proof (StronglySorted_lookup _ _ _ _ _ _
                (fuse_sorted st sparse dense top_k) Hij Hi Hj) as Hb.
  unfold ranks_before in Hb. cbn in Hb.
  split; [destruct Hb as [?|[? _]]; lra|].
  intros Heq. destruct Hb as [Hlt|[_ Hle]]; [lra|].
  assert (Hne : di ≠ dj).
  { intros ->. pose proof (fuse_NoDup st sparse dense top_k) as Hnd.
    assert (i = j); [|lia].
    eapply NoDup_lookup; [exact Hnd | |];
      rewrite list_lookup_fmap; [rewrite Hi | rewrite Hj]; reflexivity. }
  lia.
Qed.

(** The index state of a facade: everything but the phase. *)
Definition same_index (f f' : Facade) : Prop :=
  corpus f' = corpus f ∧ scheme f' = scheme f ∧
  sparse_index f' = sparse_index f ∧ dense_index f' = dense_index f ∧
  strategy f' = strategy f.

Lemma retrieve_same_index (f f' : Facade) (query : string) (top_k : nat) :
  same_index f f' → is_ready (phase f) = is_ready (phase f') →
  (retrieve f' query top_k).1 = (retrieve f query top_k).1.
Proof.
  intros (Hc & Hsch & Hs & Hd & Hst) Hr. unfold retrieve.
  rewrite <- Hr, Hs, Hd, Hsch, Hst, Hc.
  destruct (is_ready (phase f)); [|reflexivity].
  destruct (sparse_index f), (dense_index f); try reflexivity.
  by destruct (dense_scores _ _).
Qed.

Lemma retrieve_state (f : Facade) (query : string) (top_k : nat) :
  (retrieve f query top_k).2 = f ∨ (retrieve f query top_k).2 = serving f.
Proof.
  unfold retrieve. destruct (is_ready (phase f)); [|by left].
  destruct (sparse_index f), (dense_index f); try by left.
  destruct (dense_scores _ _); by right.
Qed.

Lemma retrieve_again (f : Facade) (query : string) (top_k : nat) :
  retrieve (retrieve f query top_k).2 query top_k = retrieve f query top_k.
Proof.
  destruct (is_ready (phase f)) eqn:Hr;
    [destruct (sparse_index f) as [idx|] eqn:Hs;
     [destruct (dense_index f) as [dx|] eqn:Hd|]|].
  - assert (Hst : (retrieve f query top_k).2 = serving f).
    { unfold retrieve. rewrite Hr, Hs, Hd. by destruct (dense_scores _ _). }
    rewrite Hst. unfold retrieve.
    cbn [phase serving is_ready sparse_index dense_index scheme strategy corpus].
    rewrite Hr, Hs, Hd. reflexivity.
  - assert (Hst : (retrieve f query top_k).2 = f).
    { unfold retrieve. by rewrite Hr, Hs, Hd. }
    by rewrite Hst.
  - assert (Hst : (retrieve f query top_k).2 = f).
    { unfold retrieve. by rewrite Hr, Hs. }
    by rewrite Hst.
  - assert (Hst : (retrieve f query top_k).2 = f).
    { unfold retrieve. by rewrite Hr. }
    by rewrite Hst.
Qed.

(** C6: a second [retrieve] with the same query gives the same ordered
    results and leaves the facade as the first did; any facade with the same
    index state answers alike; the results are at most [top_k], in
    descending order of score, and of two results with equal score the one
    with the smaller document id comes first. *)
Theorem retrieve_deterministic (f : Facade) (query : string) (top_k : nat) :
  retrieve (retrieve f query top_k).2 query top_k = retrieve f query top_k ∧
  same_index f (retrieve f query top_k).2 ∧
  (∀ f', same_index f f' → is_ready (phase f) = is_ready (phase f') →
         (retrieve f' query top_k).1 = (retrieve f query top_k).1) ∧
  match (retrieve f query top_k).1 with
  | Done results => ranked results ∧ (length results ≤ top_k)%nat
  | Fail _ => True
  end.
Proof.
  split; [apply retrieve_again|]. split; [|split].
  - destruct (retrieve_state f query top_k) as [-> | ->]; by repeat split.
  - intros f'. apply retrieve_same_index.
  - unfold retrieve. destruct (is_ready (phase f)); [|exact I].
    destruct (sparse_index f) as [idx|], (dense_index f) as [dx|]; try exact I.
    destruct (dense_scores dx (encode_query query)) as [dense|e]; [|exact I].
    cbn [fst]. split.
    + intros i j di si pi dj sj pj Hij Hi Hj.
      rewrite list_lookup_fmap in Hi, Hj.
      destruct (fuse _ _ _ _ !! i) as [[di' si']|] eqn:Hi'; [|discriminate].
      destruct (fuse _ _ _ _ !! j) as [[dj' sj']|] eqn:Hj'; [|discriminate].
      cbn in Hi, Hj. injection Hi as <- <- _. injection Hj as <- <- _.
      eapply fuse_ranked; eassumption.
    + rewrite length_fmap. apply fuse_length.
Qed.

End Facade.

(** *** The fusion scenario of the specification

    Linear fusion with [alpha = beta = 0.5] on sparse scores [1, 0] and
    dense scores [0, 1]: both documents get 0.5 and document 0 comes
    first. *)

#[local] Instance ranks_before_antisymm : AntiSymm (=) ranks_before.
Proof.
  intros [i x] [j y]. unfold ranks_before. cbn.
  intros [H1|[H1 H1']] [H2|[H2 H2']]; try lra.
  f_equal; [lia | done].
Qed.

Lemma merge_sort_unique (l sorted : list (nat * R)) :
  StronglySorted ranks_before sorted → l ≡ₚ sorted →
  merge_sort ranks_before l = sorted.
Proof.
  intros Hs Hp. apply (StronglySorted_unique ranks_before).
  - apply (StronglySorted_merge_sort ranks_before).
  - exact Hs.
  - by rewrite merge_sort_Permutation.
Qed.

Definition scenario_sparse : gmap nat R := {[ 0 := 1%R; 1 := 0%R ]}.
Definition scenario_dense : gmap nat R := {[ 0 := 0%R; 1 := 1%R ]}.

Lemma scenario_scores :
  score_of scenario_sparse 0 = 1%R ∧ score_of scenario_sparse 1 = 0%R ∧
  score_of scenario_dense 0 = 0%R ∧ score_of scenario_dense 1 = 1%R.
Proof.
  unfold score_of, scenario_sparse, scenario_dense.
  rewrite !lookup_insert_eq, !lookup_insert_ne, !lookup_singleton_eq by done.
  done.
Qed.

Lemma scenario_candidates :
  elements (dom scenario_sparse ∪ dom scenario_dense) = [0; 1] ∨
  elements (dom scenario_sparse ∪ dom scenario_dense) = [1; 0].
Proof.
  assert (Hp : elements (dom scenario_sparse ∪ dom scenario_dense) ≡ₚ [0; 1]).
  { apply NoDup_Permutation.
    - apply NoDup_elements.
    - apply NoDup_cons. split; [not_in_list | apply NoDup_singleton].
    - intros d. rewrite elem_of_elements.
      unfold scenario_sparse, scenario_dense.
      rewrite !dom_insert_L, !dom_singleton_L.
      rewrite !elem_of_union, !elem_of_singleton, !elem_of_cons, elem_of_nil.
      tauto. }
  destruct (elements _) as [|x [|y [|z l]]];
    try (apply Permutation_length in Hp; discriminate).
  apply Permutation_length_2_inv in Hp as [Hp|Hp]; injection Hp as -> ->; auto.
Qed.

Lemma scenario_fused_score (candidates : list nat) (d : nat) :
  candidates = [0; 1] ∨ candidates = [1; 0] → d = 0 ∨ d = 1 →
  fused_score (Linear (1 / 2) (1 / 2)) scenario_sparse scenario_dense candidates d
  = (1 / 2)%R.
Proof.
  destruct scenario_scores as (Hs0 & Hs1 & Hd0 & Hd1).
  assert (Hmin01 : Rmin 0 1 = 0%R) by (apply Rmin_left; lra).
  assert (Hmax01 : Rmax 0 1 = 1%R) by (apply Rmax_right; lra).
  assert (Hmin10 : Rmin 1 0 = 0%R) by (apply Rmin_right; lra).
  assert (Hmax10 : Rmax 1 0 = 1%R) by (apply Rmax_left; lra).
  intros [-> | ->] [-> | ->];
    unfold fused_score, linear_fusion, min_max; cbn [fmap list_fmap];
    rewrite ?Hs0, ?Hs1, ?Hd0, ?Hd1; unfold Rmin_list, Rmax_list; cbn [foldr];
    rewrite ?Hmin01, ?Hmax01, ?Hmin10, ?Hmax10; field.
Qed.

Example fuse_scenario :
  fuse (Linear (1 / 2) (1 / 2)) scenario_sparse scenario_dense 2
  = [(0, (1 / 2)%R); (1, (1 / 2)%R)].
Proof.
  unfold fuse.
  pose proof scenario_candidates as Hc.
  set (candidates := elements (dom scenario_sparse ∪ dom scenario_dense)) in *.
  assert (Hsorted : StronglySorted ranks_before [(0, (1 / 2)%R); (1, (1 / 2)%R)]).
  { apply SSorted_cons; [apply SSorted_cons; [apply SSorted_nil | apply Forall_nil_2]|].
    apply Forall_cons_2; [|apply Forall_nil_2].
    right. cbn. split; [reflexivity | lia]. }
  rewrite (merge_sort_unique _ _ Hsorted); [reflexivity|].
  pose proof (scenario_fused_score candidates 0 Hc (or_introl eq_refl)) as H0.
  pose proof (scenario_fused_score candidates 1 Hc (or_intror eq_refl)) as H1.
  destruct Hc as [Hc | Hc]; rewrite Hc in *; cbn [fmap list_fmap];
    rewrite H0, H1; [reflexivity | apply Permutation_swap].
Qed.

(** Before the index is built a query is refused. *)
Example retrieve_not_ready (tokenize : string → list string)
    (encode_query : string → list R) (k1 b : R) :
  let f := {| phase := UNINITIALIZED; corpus := []; scheme := BM25;
              sparse_index := None; dense_index := None;
              strategy := Linear (1 / 2) (1 / 2) |} in
  retrieve tokenize encode_query k1 b f "cat" 3 = (Fail NotReadyError, f).
Proof. reflexivity. Qed.



(** *** A whitespace tokenizer and the corpus of the specification's
    scenario *)

Definition space : Ascii.ascii := Ascii.ascii_of_nat 32.

Fixpoint words_aux (word : list Ascii.ascii) (text : list Ascii.ascii) : list string :=
  let flush := match word with
               | [] => []
               | _ => [String.string_of_list_ascii (rev word)]
               end in
  match text with
  | [] => flush
  | c :: rest =>
      if Ascii.eqb c space then flush ++ words_aux [] rest
      else words_aux (c :: word) rest
  end.

Definition whitespace_tokenize (text : string) : list string :=
  words_aux [] (String.list_ascii_of_string text).

Definition scenario_corpus : list string :=
  ["the cat sat"; "the dog ran"; "cats and dogs"].

Example whitespace_tokenize_scenario :
  whitespace_tokenize <$> scenario_corpus
  = [["the"; "cat"; "sat"]; ["the"; "dog"; "ran"]; ["cats"; "and"; "dogs"]].
Proof. reflexivity. Qed.

(** The BM25 scenario of the specification: for the query "cat", with the
    default constants and without stemming, document 0 scores above
    documents 1 and 2, which score zero. *)

Definition scenario_index : SparseIndexArtifact :=
  build_artifact (whitespace_tokenize <$> scenario_corpus).

Lemma scenario_statistics :
  build whitespace_tokenize scenario_corpus = Done scenario_index ∧
  whitespace_tokenize "cat" = ["cat"] ∧
  in_index scenario_index "cat" = true ∧
  N scenario_index = 3 ∧ df scenario_index "cat" = 1 ∧
  tf scenario_index "cat" 0 = 1 ∧ tf scenario_index "cat" 1 = 0 ∧
  tf scenario_index "cat" 2 = 0 ∧ doc_len scenario_index 0 = 3 ∧
  sum_list (length <$> (whitespace_tokenize <$> scenario_corpus)) = 9.
Proof. split; [reflexivity|]. vm_compute. done. Qed.

Example bm25_scenario :
  let score := bm25_score whitespace_tokenize default_k1 default_b scenario_index "cat" in
  (score 1%nat = 0 ∧ score 2%nat = 0 ∧
   score 1%nat < score 0%nat ∧ score 2%nat < score 0%nat)%R.
Proof.
  destruct scenario_statistics
    as (_ & Htok & Hin & HN & Hdf & Htf0 & Htf1 & Htf2 & Hdl & Hsum).
  cbv zeta.
  assert (H1 : bm25_score whitespace_tokenize default_k1 default_b
                 scenario_index "cat" 1 = 0%R).
  { unfold bm25_score. rewrite Htok. cbn [fmap list_fmap Rsum foldr].
    rewrite Hin. unfold saturation. rewrite Htf1. cbn [INR].
    unfold Rdiv. ring. }
  assert (H2 : bm25_score whitespace_tokenize default_k1 default_b
                 scenario_index "cat" 2 = 0%R).
  { unfold bm25_score. rewrite Htok. cbn [fmap list_fmap Rsum foldr].
    rewrite Hin. unfold saturation. rewrite Htf2. cbn [INR].
    unfold Rdiv. ring. }
  assert (H0 : (0 < bm25_score whitespace_tokenize default_k1 default_b
                      scenario_index "cat" 0)%R).
  { unfold bm25_score. rewrite Htok. cbn [fmap list_fmap Rsum foldr].
    rewrite Hin, Rplus_0_r. apply Rmult_lt_0_compat.
    - unfold bm25_idf. rewrite HN, Hdf. rewrite <- ln_1.
      apply ln_increasing; [lra|].
      replace (INR 3) with 3%R by (simpl; ring).
      replace (INR 1) with 1%R by reflexivity.
      assert (0 < (3 - 1 + 1 / 2) / (1 + 1 / 2))%R
        by (apply Rdiv_lt_0_compat; lra).
      lra.
    - unfold saturation. rewrite Htf0, Hdl.
      assert (Havg : avg_doc_length scenario_index = 3%R).
      { unfold scenario_index, build_artifact. cbn [avg_doc_length].
        rewrite Hsum, length_fmap. simpl INR. field. }
      rewrite Havg.
      replace (INR 3) with 3%R by (simpl; ring).
      replace (INR 1) with 1%R by reflexivity.
      unfold default_k1, default_b. apply Rdiv_lt_0_compat; lra. }
  rewrite H1, H2. repeat split; assumption || reflexivity.
Qed.



End Core.
